(** * Generate-interests: place classification against a fixed taxonomy

    A shallow embedding of [main.py] (the Lambda handler shell) and [app.py]
    (the Streamlit shell), and the properties of the classification core
    that their specification states.

    Layout:
    - [Py]: the Python values, strings, exceptions and effects both files
      run on, with the standard-library routines they call
      ([json.loads], [json.dumps], [csv.reader], [str.join], [dict.get]);
    - [Pydantic]: [BaseModel] validation, for pydantic 1 and pydantic 2;
    - [Main]: [main.py]; [App]: [app.py];
    - the properties, one section per group: the handler's guard, the
      status check, the prompt and the request, taxonomy loading, the
      reading of the model's answer, the answer written by [json.dumps]
      and read again; then the handler past its guard, the loaders on
      every text, the page of the interactive shell and the result as
      text.

    Limits: the [csv] reader has its field size limit. The JSON readers
    follow the grammar and have no limit of their own; what is stated
    of a text they read is stated for texts [within_limits], which
    stay clear of the recursion limit of the interpreter, of the digit
    limit of [int] and of the nesting limit of pydantic 2's reader. *)

From Stdlib Require Import List NArith ZArith String Ascii Bool Lia Arith.
From Stdlib Require Import Decimal DecimalN DecimalPos.
From Stdlib Require DecimalFacts.
Import ListNotations.

Set Warnings "-register-all".

(* ================================================================== *)
(** * The Python runtime both files run on *)
(* ================================================================== *)

Module Py.

(** ** Strings

    A Python [str] is a sequence of Unicode code points. *)

Definition char := N.
Definition str := list char.

(** A literal of the source, written as a Rocq string (ASCII only). *)
Definition lit (x : string) : str :=
  map N_of_ascii (list_ascii_of_string x).

(** A literal in which every apostrophe stands for a double quote:
    [jlit "{'a': 1}"] is the seven-character text that starts with a
    brace and a double quote. *)
Definition jlit (x : string) : str :=
  map (fun c => if (c =? 39)%N then 34%N else c) (lit x).

Fixpoint str_eqb (a b : str) : bool :=
  match a, b with
  | [], [] => true
  | x :: a', y :: b' => (x =? y)%N && str_eqb a' b'
  | _, _ => false
  end.

(** [sep.join(parts)]. *)
Fixpoint join (sep : str) (parts : list str) : str :=
  match parts with
  | [] => []
  | [p] => p
  | p :: rest => p ++ sep ++ join sep rest
  end.

(** [p] is a prefix of [s]: the rest of [s] after it. *)
Fixpoint strip_prefix (p s : str) : option str :=
  match p, s with
  | [], _ => Some s
  | x :: p', y :: s' => if (x =? y)%N then strip_prefix p' s' else None
  | _ :: _, [] => None
  end.

(** [needle in haystack]. *)
Fixpoint contains (needle haystack : str) : bool :=
  match strip_prefix needle haystack with
  | Some _ => true
  | None =>
      match haystack with
      | [] => false
      | _ :: h' => contains needle h'
      end
  end.

(** ** Values

    The objects [json.loads] builds, which are also the objects a Lambda
    event and a [requests] response body are made of. A [float] is kept
    as its [repr] (the text [float.__repr__] prints), which identifies
    it; a [dict] keeps its keys in insertion order. *)

Inductive value : Type :=
| VNone
| VBool (b : bool)
| VInt (z : Z)
| VFloat (r : str)
| VStr (s : str)
| VList (items : list value)
| VDict (members : list (str * value)).

Definition dict := list (str * value).

(** [d.get(k)], as an option. *)
Fixpoint dict_get (d : dict) (k : str) : option value :=
  match d with
  | [] => None
  | (k', v) :: d' => if str_eqb k' k then Some v else dict_get d' k
  end.

(** [d.get(k, default)]. *)
Definition dict_get_default (d : dict) (k : str) (default : value) : value :=
  match dict_get d k with
  | Some v => v
  | None => default
  end.

(** [d[k] = v]: a present key keeps its place and takes the new value. *)
Fixpoint dict_set (d : dict) (k : str) (v : value) : dict :=
  match d with
  | [] => [(k, v)]
  | (k', v') :: d' =>
      if str_eqb k' k then (k', v) :: d' else (k', v') :: dict_set d' k v
  end.

(** The dict built by assigning the pairs in order. *)
Definition dict_of_pairs (pairs : list (str * value)) : dict :=
  fold_left (fun d kv => dict_set d (fst kv) (snd kv)) pairs [].

(** [bool(v)]. *)
Definition truthy (v : value) : bool :=
  match v with
  | VNone => false
  | VBool b => b
  | VInt z => negb (z =? 0)%Z
  | VFloat r => negb (str_eqb r (lit "0.0") || str_eqb r (lit "-0.0"))
  | VStr s => match s with [] => false | _ => true end
  | VList l => match l with [] => false | _ => true end
  | VDict d => match d with [] => false | _ => true end
  end.

(** ** Lexical helpers of the JSON reader *)

Definition is_ws (c : char) : bool :=
  ((c =? 32) || (c =? 9) || (c =? 10) || (c =? 13))%N.

Fixpoint skip_ws (s : str) : str :=
  match s with
  | c :: t => if is_ws c then skip_ws t else s
  | [] => []
  end.

Definition is_digit (c : char) : bool := ((48 <=? c) && (c <=? 57))%N.

Fixpoint span_digits (s : str) : str * str :=
  match s with
  | c :: t =>
      if is_digit c
      then let (ds, rest) := span_digits t in (c :: ds, rest)
      else ([], s)
  | [] => ([], [])
  end.

Definition hexval (c : char) : option N :=
  if ((48 <=? c) && (c <=? 57))%N then Some (c - 48)%N
  else if ((97 <=? c) && (c <=? 102))%N then Some (c - 87)%N
  else if ((65 <=? c) && (c <=? 70))%N then Some (c - 55)%N
  else None.

Definition hex4 (a b c d : char) : option N :=
  match hexval a, hexval b, hexval c, hexval d with
  | Some x, Some y, Some z, Some w => Some (x * 4096 + y * 256 + z * 16 + w)%N
  | _, _, _, _ => None
  end.

Definition is_high_surrogate (u : N) : bool :=
  ((55296 <=? u) && (u <=? 56319))%N.
Definition is_low_surrogate (u : N) : bool :=
  ((56320 <=? u) && (u <=? 57343))%N.
Definition is_surrogate (u : N) : bool :=
  ((55296 <=? u) && (u <=? 57343))%N.

(** The code point a surrogate pair stands for. *)
Definition join_surrogates (hi lo : N) : N :=
  (65536 + (hi - 55296) * 1024 + (lo - 56320))%N.

(** The character a one-letter escape stands for. *)
Definition simple_escape (e : char) : option char :=
  if (e =? 34)%N then Some 34%N
  else if (e =? 92)%N then Some 92%N
  else if (e =? 47)%N then Some 47%N
  else if (e =? 98)%N then Some 8%N
  else if (e =? 102)%N then Some 12%N
  else if (e =? 110)%N then Some 10%N
  else if (e =? 114)%N then Some 13%N
  else if (e =? 116)%N then Some 9%N
  else None.

(** The body of a string literal, after its opening quote: the decoded
    string and the text after the closing quote. A [\uD800]-[\uDBFF]
    escape followed by a [\uDC00]-[\uDFFF] escape is one code point.
    [json.loads] keeps any other surrogate escape as it is; a reader
    with [strict_utf] (pydantic 2's) refuses it. *)
Fixpoint scanstring (strict_utf : bool) (s : str) : option (str * str) :=
  let keep c t :=
    match scanstring strict_utf t with
    | Some (r, rest) => Some (c :: r, rest)
    | None => None
    end in
  match s with
  | [] => None
  | c :: t =>
      if (c =? 34)%N then Some ([], t)
      else if (c =? 92)%N then
        match t with
        | [] => None
        | e :: t1 =>
            if (e =? 117)%N then
              match t1 with
              | h1 :: h2 :: h3 :: h4 :: t2 =>
                  match hex4 h1 h2 h3 h4 with
                  | None => None
                  | Some u =>
                      let lone := if strict_utf then None else keep u t2 in
                      if is_high_surrogate u then
                        match t2 with
                        | b :: l :: g1 :: g2 :: g3 :: g4 :: t3 =>
                            if ((b =? 92) && (l =? 117))%N then
                              match hex4 g1 g2 g3 g4 with
                              | None => None
                              | Some u2 =>
                                  if is_low_surrogate u2
                                  then keep (join_surrogates u u2) t3
                                  else lone
                              end
                            else lone
                        | _ => lone
                        end
                      else if is_low_surrogate u then lone
                      else keep u t2
                  end
              | _ => None
              end
            else
              match simple_escape e with
              | Some c' => keep c' t1
              | None => None
              end
        end
      else if (c <? 32)%N then None
      else keep c t
  end.

(** ** Numbers *)

Definition digit_of_char (c : char) : option (uint -> uint) :=
  if (c =? 48)%N then Some D0 else if (c =? 49)%N then Some D1
  else if (c =? 50)%N then Some D2 else if (c =? 51)%N then Some D3
  else if (c =? 52)%N then Some D4 else if (c =? 53)%N then Some D5
  else if (c =? 54)%N then Some D6 else if (c =? 55)%N then Some D7
  else if (c =? 56)%N then Some D8 else if (c =? 57)%N then Some D9
  else None.

Fixpoint uint_of_digits (ds : str) : uint :=
  match ds with
  | [] => Nil
  | c :: t =>
      match digit_of_char c with
      | Some d => d (uint_of_digits t)
      | None => Nil
      end
  end.

Fixpoint digits_of_uint (u : uint) : str :=
  match u with
  | Nil => []
  | D0 u' => 48%N :: digits_of_uint u'
  | D1 u' => 49%N :: digits_of_uint u'
  | D2 u' => 50%N :: digits_of_uint u'
  | D3 u' => 51%N :: digits_of_uint u'
  | D4 u' => 52%N :: digits_of_uint u'
  | D5 u' => 53%N :: digits_of_uint u'
  | D6 u' => 54%N :: digits_of_uint u'
  | D7 u' => 55%N :: digits_of_uint u'
  | D8 u' => 56%N :: digits_of_uint u'
  | D9 u' => 57%N :: digits_of_uint u'
  end.

(** [str(n)] for a natural number, and [str(z)] for an [int]. *)
Definition str_of_N (n : N) : str := digits_of_uint (N.to_uint n).
Definition str_of_Z (z : Z) : str :=
  match z with
  | Zneg p => 45%N :: str_of_N (Npos p)
  | _ => str_of_N (Z.to_N z)
  end.

(** One token of a number: an optional minus sign; a zero or a digit run
    that does not start with zero; optionally a point and digits;
    optionally [e] or [E], a sign and digits. Each part returns what it
    read and the rest. *)
Definition scan_sign (s : str) : bool * str :=
  match s with
  | c :: t => if (c =? 45)%N then (true, t) else (false, s)
  | [] => (false, s)
  end.

Definition scan_int (s : str) : option (str * str) :=
  match s with
  | [] => None
  | c :: t =>
      if (c =? 48)%N then Some ([c], t)
      else if is_digit c
           then let (ds, rest) := span_digits t in Some (c :: ds, rest)
           else None
  end.

Definition scan_frac (s : str) : str * str :=
  match s with
  | p :: d :: t =>
      if ((p =? 46)%N && is_digit d)%bool
      then let (ds, rest) := span_digits t in (p :: d :: ds, rest)
      else ([], s)
  | _ => ([], s)
  end.

(** An [e] that no digit follows is not part of the number. *)
Definition scan_exp (s : str) : str * str :=
  match s with
  | e :: t =>
      if ((e =? 101) || (e =? 69))%N then
        let (sign, t') :=
          match t with
          | g :: t2 => if ((g =? 43) || (g =? 45))%N then ([g], t2) else ([], t)
          | [] => ([], t)
          end in
        let (ds, rest) := span_digits t' in
        match ds with
        | [] => ([], s)
        | _ => (e :: sign ++ ds, rest)
        end
      else ([], s)
  | [] => ([], s)
  end.

(** The sign, the digits of the integer part, the text of the fraction
    and exponent (empty for an [int]) and the rest. *)
Definition scan_number (s : str) : option (bool * str * str * str) :=
  let (neg, s1) := scan_sign s in
  match scan_int s1 with
  | None => None
  | Some (ip, r1) =>
      let (frac, r2) := scan_frac r1 in
      let (ex, r3) := scan_exp r2 in
      Some (neg, ip, frac ++ ex, r3)
  end.

(** The text of a number token that is a [float]. *)
Definition is_float_lexeme (s : str) : bool :=
  match scan_number s with
  | Some (neg, ip, fe, []) =>
      match fe with [] => false | _ => true end
  | _ => false
  end.

Definition special_float (r : str) : bool :=
  str_eqb r (lit "nan") || str_eqb r (lit "inf") || str_eqb r (lit "-inf").

(** ** What the embedding takes from the interpreter

    Three routines of CPython are parameters: the [repr] of a [float]
    given by a number token ([repr(float(s))]), the [repr] of a [str],
    and the text [str(e)] of an exception that a library raised.
    A [repr] of a finite float is again a float token that denotes the
    same float. *)

Inductive loc_item : Type :=
| Field (name : str)
| Index (i : nat).

(** One entry of a pydantic [ValidationError]: where, and which
    constraint. *)
Inductive issue_kind : Type :=
| JsonInvalid        (* the text is not JSON *)
| Missing            (* a required field is absent *)
| NotAString
| NotAList
| NotAModel          (* neither a dict nor, in pydantic 1, dict-like *)
| TooShort           (* fewer items than [min_items] *)
| BadKeywords.       (* keyword arguments that the call of the model refuses *)

Definition issue : Type := (list loc_item * issue_kind)%type.

Inductive exn : Type :=
| JSONDecodeError (doc : str)            (* json.loads *)
| ValidationError (issues : list issue)  (* pydantic *)
| ValueError (msg : str)
| TypeError
| AttributeError
| KeyError (key : str)
| IndexError
| LibraryError (name : str) (detail : str).  (* raised inside a client library *)

Class Runtime : Type := {
  float_repr : str -> str;
  repr_str : str -> str;
  exn_text : exn -> str;
  float_repr_canonical :
    forall s, is_float_lexeme s = true ->
      special_float (float_repr s)
      || (is_float_lexeme (float_repr s)
          && str_eqb (float_repr (float_repr s)) (float_repr s)) = true
}.

(** [str(e)]. *)
Definition str_of_exn `{Runtime} (e : exn) : str :=
  match e with
  | ValueError msg => msg
  | _ => exn_text e
  end.

(** [repr(v)] and [str(v)] of a value. *)
Fixpoint py_repr `{Runtime} (v : value) : str :=
  match v with
  | VNone => lit "None"
  | VBool true => lit "True"
  | VBool false => lit "False"
  | VInt z => str_of_Z z
  | VFloat r => r
  | VStr s => repr_str s
  | VList items => lit "[" ++ join (lit ", ") (map py_repr items) ++ lit "]"
  | VDict members =>
      lit "{"
      ++ join (lit ", ")
           (map (fun kv => repr_str (fst kv) ++ lit ": " ++ py_repr (snd kv))
              members)
      ++ lit "}"
  end.

Definition py_str `{Runtime} (v : value) : str :=
  match v with
  | VStr s => s
  | _ => py_repr v
  end.

(** ** [json.loads]

    The reader of CPython's [json] module: a recursive descent over the
    text ([scan_once], [_parse_object], [_parse_array]). The descent is
    bounded by [fuel]; [parse_value_fuel] below shows that twice the
    length of the text is always enough. *)

Inductive parsed (A : Type) : Type :=
| Parsed (a : A) (rest : str)
| Invalid
| OutOfFuel.
Arguments Parsed {A} a rest.
Arguments Invalid {A}.
Arguments OutOfFuel {A}.

Section Reader.
Context `{Runtime}.
Variable strict_utf : bool.

Definition signed (neg : bool) (n : N) : Z :=
  if neg then (- Z.of_N n)%Z else Z.of_N n.

Definition number_token (s : str) : parsed value :=
  match scan_number s with
  | None => Invalid
  | Some (neg, ip, fe, rest) =>
      match fe with
      | [] => Parsed (VInt (signed neg (N.of_uint (uint_of_digits ip)))) rest
      | _ =>
          Parsed (VFloat (float_repr ((if neg then [45%N] else []) ++ ip ++ fe)))
                 rest
      end
  end.

(** [null], [true], [false], [NaN], [Infinity], [-Infinity], or a number. *)
Definition constant_or_number (s : str) : parsed value :=
  match strip_prefix (lit "null") s with
  | Some rest => Parsed VNone rest
  | None =>
  match strip_prefix (lit "true") s with
  | Some rest => Parsed (VBool true) rest
  | None =>
  match strip_prefix (lit "false") s with
  | Some rest => Parsed (VBool false) rest
  | None =>
  match strip_prefix (lit "NaN") s with
  | Some rest => Parsed (VFloat (lit "nan")) rest
  | None =>
  match strip_prefix (lit "Infinity") s with
  | Some rest => Parsed (VFloat (lit "inf")) rest
  | None =>
  match strip_prefix (lit "-Infinity") s with
  | Some rest => Parsed (VFloat (lit "-inf")) rest
  | None => number_token s
  end end end end end end.

Fixpoint parse_value (fuel : nat) (s : str) : parsed value :=
  match fuel with
  | O => OutOfFuel
  | S n =>
      match s with
      | [] => Invalid
      | c :: t =>
          if (c =? 34)%N then
            match scanstring strict_utf t with
            | Some (r, rest) => Parsed (VStr r) rest
            | None => Invalid
            end
          else if (c =? 123)%N then
            match skip_ws t with
            | c' :: t' =>
                if (c' =? 125)%N then Parsed (VDict []) t'
                else
                  match parse_members n (c' :: t') with
                  | Parsed pairs rest => Parsed (VDict (dict_of_pairs pairs)) rest
                  | Invalid => Invalid
                  | OutOfFuel => OutOfFuel
                  end
            | [] => Invalid
            end
          else if (c =? 91)%N then
            match skip_ws t with
            | c' :: t' =>
                if (c' =? 93)%N then Parsed (VList []) t'
                else
                  match parse_elems n (c' :: t') with
                  | Parsed items rest => Parsed (VList items) rest
                  | Invalid => Invalid
                  | OutOfFuel => OutOfFuel
                  end
            | [] => Invalid
            end
          else constant_or_number s
      end
  end

(** The items of an array, from the first character of an item to the
    closing bracket. *)
with parse_elems (fuel : nat) (s : str) : parsed (list value) :=
  match fuel with
  | O => OutOfFuel
  | S n =>
      match parse_value n s with
      | Parsed v r =>
          match skip_ws r with
          | c :: t =>
              if (c =? 93)%N then Parsed [v] t
              else if (c =? 44)%N then
                match parse_elems n (skip_ws t) with
                | Parsed vs rest => Parsed (v :: vs) rest
                | Invalid => Invalid
                | OutOfFuel => OutOfFuel
                end
              else Invalid
          | [] => Invalid
          end
      | Invalid => Invalid
      | OutOfFuel => OutOfFuel
      end
  end

(** The members of an object, from the quote of a key to the closing
    brace. *)
with parse_members (fuel : nat) (s : str) : parsed (list (str * value)) :=
  match fuel with
  | O => OutOfFuel
  | S n =>
      match s with
      | [] => Invalid
      | q :: t =>
          if negb (q =? 34)%N then Invalid
          else
            match scanstring strict_utf t with
            | None => Invalid
            | Some (k, r) =>
                match skip_ws r with
                | [] => Invalid
                | c :: t1 =>
                    if negb (c =? 58)%N then Invalid
                    else
                      match parse_value n (skip_ws t1) with
                      | Parsed v r2 =>
                          match skip_ws r2 with
                          | c2 :: t2 =>
                              if (c2 =? 125)%N then Parsed [(k, v)] t2
                              else if (c2 =? 44)%N then
                                match parse_members n (skip_ws t2) with
                                | Parsed kvs rest => Parsed ((k, v) :: kvs) rest
                                | Invalid => Invalid
                                | OutOfFuel => OutOfFuel
                                end
                              else Invalid
                          | [] => Invalid
                          end
                      | Invalid => Invalid
                      | OutOfFuel => OutOfFuel
                      end
                end
            end
      end
  end.

(** A whole document: one value, with blanks around it and nothing else. *)
Definition json_decode (s : str) : option value :=
  match parse_value (2 * List.length s + 2) (skip_ws s) with
  | Parsed v rest =>
      match skip_ws rest with
      | [] => Some v
      | _ => None
      end
  | _ => None
  end.

End Reader.

(** [json.loads(s)] for a [str]: [None] stands for [JSONDecodeError]. *)
Definition json_loads `{Runtime} (s : str) : option value :=
  match s with
  | c :: _ => if (c =? 65279)%N then None else json_decode false s
  | [] => json_decode false s
  end.

(** ** [json.dumps], with its defaults: [ensure_ascii], and a blank
    after each comma and colon *)

Definition hexchar (d : N) : char :=
  if (d <? 10)%N then (48 + d)%N else (87 + d)%N.

Definition hex4_of (n : N) : str :=
  [hexchar (n / 4096); hexchar ((n / 256) mod 16);
   hexchar ((n / 16) mod 16); hexchar (n mod 16)]%N.

Definition u_escape (n : N) : str := 92%N :: 117%N :: hex4_of n.

Definition escape_char (c : char) : str :=
  if (c =? 34)%N then [92; 34]%N
  else if (c =? 92)%N then [92; 92]%N
  else if (c =? 10)%N then [92; 110]%N
  else if (c =? 13)%N then [92; 114]%N
  else if (c =? 9)%N then [92; 116]%N
  else if (c =? 8)%N then [92; 98]%N
  else if (c =? 12)%N then [92; 102]%N
  else if ((32 <=? c) && (c <=? 126))%N then [c]
  else if (c <? 65536)%N then u_escape c
  else u_escape (55296 + (c - 65536) / 1024)
       ++ u_escape (56320 + (c - 65536) mod 1024).

Definition encode_str (s : str) : str :=
  34%N :: flat_map escape_char s ++ [34%N].

Definition floatstr (r : str) : str :=
  if str_eqb r (lit "nan") then lit "NaN"
  else if str_eqb r (lit "inf") then lit "Infinity"
  else if str_eqb r (lit "-inf") then lit "-Infinity"
  else r.

Fixpoint json_dumps (v : value) : str :=
  match v with
  | VNone => lit "null"
  | VBool true => lit "true"
  | VBool false => lit "false"
  | VInt z => str_of_Z z
  | VFloat r => floatstr r
  | VStr s => encode_str s
  | VList items => lit "[" ++ join (lit ", ") (map json_dumps items) ++ lit "]"
  | VDict members =>
      lit "{"
      ++ join (lit ", ")
           (map (fun kv => encode_str (fst kv) ++ lit ": " ++ json_dumps (snd kv))
              members)
      ++ lit "}"
  end.

(** ** [str.splitlines] and the lines of a text file *)

Definition is_linebreak (c : char) : bool :=
  ((c =? 10) || (c =? 13) || (c =? 11) || (c =? 12) || (c =? 28) || (c =? 29)
   || (c =? 30) || (c =? 133) || (c =? 8232) || (c =? 8233))%N.

(** [s.splitlines()]: the lines without their ends; [cur] is the line
    being read. *)
Fixpoint splitlines_from (cur : str) (s : str) : list str :=
  match s with
  | [] => match cur with [] => [] | _ => [cur] end
  | c :: t =>
      if (c =? 13)%N then
        match t with
        | c' :: t' =>
            if (c' =? 10)%N then cur :: splitlines_from [] t'
            else cur :: splitlines_from [] t
        | [] => cur :: splitlines_from [] t
        end
      else if is_linebreak c then cur :: splitlines_from [] t
      else splitlines_from (cur ++ [c]) t
  end.

Definition splitlines (s : str) : list str := splitlines_from [] s.

(** The lines a file opened with [open(path, 'r')] yields: each ends
    with a line feed, which also stands for a carriage return and for a
    carriage return with a line feed; a last line may have no end. *)
Fixpoint file_lines_from (cur : str) (s : str) : list str :=
  match s with
  | [] => match cur with [] => [] | _ => [cur] end
  | c :: t =>
      if (c =? 13)%N then
        match t with
        | c' :: t' =>
            if (c' =? 10)%N then (cur ++ [10%N]) :: file_lines_from [] t'
            else (cur ++ [10%N]) :: file_lines_from [] t
        | [] => (cur ++ [10%N]) :: file_lines_from [] t
        end
      else if (c =? 10)%N then (cur ++ [10%N]) :: file_lines_from [] t
      else file_lines_from (cur ++ [c]) t
  end.

Definition file_lines (s : str) : list str := file_lines_from [] s.

(** ** [csv.reader], with the default dialect

    The reader of CPython's [_csv] module is a state machine over the
    characters of each line, which ends with an end-of-line step. With
    the default dialect there is no escape character, quotes are doubled
    inside a quoted field, and the reader is not strict. A field holds
    at most [field_size_limit] characters. *)

Inductive csv_state : Type :=
| START_RECORD
| START_FIELD
| IN_FIELD
| IN_QUOTED_FIELD
| QUOTE_IN_QUOTED_FIELD
| EAT_CRNL.

(** The two ways the reader raises [csv.Error] with this dialect. *)
Inductive csv_error : Type :=
| FieldTooLarge      (* field larger than field limit (131072) *)
| NewLineInField.    (* new-line character seen in unquoted field *)

Record csv_parser : Type := {
  state : csv_state;
  fields : list str;     (* the fields of the record so far *)
  field : str            (* the field being read *)
}.

(** [csv.field_size_limit()], which neither file changes. *)
Definition field_size_limit : N := 131072.

Definition parse_reset : csv_parser :=
  {| state := START_RECORD; fields := []; field := [] |}.

Definition parse_save_field (p : csv_parser) (next : csv_state) : csv_parser :=
  {| state := next; fields := fields p ++ [field p]; field := [] |}.

(** A character is refused once the field is as long as the limit. *)
Definition parse_add_char (p : csv_parser) (c : char) (next : csv_state)
  : csv_parser + csv_error :=
  if (field_size_limit <=? N.of_nat (List.length (field p)))%N
  then inr FieldTooLarge
  else inl {| state := next; fields := fields p; field := field p ++ [c] |}.

Definition goto (p : csv_parser) (next : csv_state) : csv_parser :=
  {| state := next; fields := fields p; field := field p |}.

Definition is_crnl (c : char) : bool := ((c =? 10) || (c =? 13))%N.

(** One step: [Some c] is a character of the line, [None] the end of
    the line. *)
Definition parse_process_char (p : csv_parser) (c : option char)
  : csv_parser + csv_error :=
  let start_field :=
    match c with
    | None => inl (parse_save_field p START_RECORD)
    | Some ch =>
        if is_crnl ch then inl (parse_save_field p EAT_CRNL)
        else if (ch =? 34)%N then inl (goto p IN_QUOTED_FIELD)
        else if (ch =? 44)%N then inl (parse_save_field p START_FIELD)
        else parse_add_char p ch IN_FIELD
    end in
  match state p with
  | START_RECORD =>
      match c with
      | None => inl p
      | Some ch => if is_crnl ch then inl (goto p EAT_CRNL) else start_field
      end
  | START_FIELD => start_field
  | IN_FIELD =>
      match c with
      | None => inl (parse_save_field p START_RECORD)
      | Some ch =>
          if is_crnl ch then inl (parse_save_field p EAT_CRNL)
          else if (ch =? 44)%N then inl (parse_save_field p START_FIELD)
          else parse_add_char p ch IN_FIELD
      end
  | IN_QUOTED_FIELD =>
      match c with
      | None => inl p
      | Some ch =>
          if (ch =? 34)%N then inl (goto p QUOTE_IN_QUOTED_FIELD)
          else parse_add_char p ch IN_QUOTED_FIELD
      end
  | QUOTE_IN_QUOTED_FIELD =>
      match c with
      | None => inl (parse_save_field p START_RECORD)
      | Some ch =>
          if (ch =? 34)%N then parse_add_char p ch IN_QUOTED_FIELD
          else if (ch =? 44)%N then inl (parse_save_field p START_FIELD)
          else if is_crnl ch then inl (parse_save_field p EAT_CRNL)
          else parse_add_char p ch IN_FIELD
      end
  | EAT_CRNL =>
      match c with
      | None => inl (goto p START_RECORD)
      | Some ch => if is_crnl ch then inl p else inr NewLineInField
      end
  end.

(** The characters of one line, then its end. *)
Fixpoint parse_line (p : csv_parser) (line : str) : csv_parser + csv_error :=
  match line with
  | [] => parse_process_char p None
  | c :: t =>
      match parse_process_char p (Some c) with
      | inl p' => parse_line p' t
      | inr e => inr e
      end
  end.

Definition csv_state_eqb (a b : csv_state) : bool :=
  match a, b with
  | START_RECORD, START_RECORD | START_FIELD, START_FIELD
  | IN_FIELD, IN_FIELD | IN_QUOTED_FIELD, IN_QUOTED_FIELD
  | QUOTE_IN_QUOTED_FIELD, QUOTE_IN_QUOTED_FIELD | EAT_CRNL, EAT_CRNL => true
  | _, _ => false
  end.

(** The rows the reader yields over [lines], from parser state [p]: a
    row is complete when a line ends in [START_RECORD]; when the lines
    run out inside a record, what was read is the last row. *)
Fixpoint reader_rows (p : csv_parser) (lines : list str)
  : list (list str) + csv_error :=
  match lines with
  | [] =>
      match field p, csv_state_eqb (state p) IN_QUOTED_FIELD with
      | [], false => inl []
      | _, _ => inl [fields p ++ [field p]]
      end
  | line :: rest =>
      match parse_line p line with
      | inr e => inr e
      | inl p' =>
          if csv_state_eqb (state p') START_RECORD then
            match reader_rows parse_reset rest with
            | inl rows => inl (fields p' :: rows)
            | inr e => inr e
            end
          else reader_rows p' rest
      end
  end.

(** [list(csv.reader(lines))]. *)
Definition csv_reader (lines : list str) : list (list str) + csv_error :=
  reader_rows parse_reset lines.

(** The exception of a refusal. *)
Definition csv_error_exn (e : csv_error) : exn :=
  LibraryError (lit "_csv.Error")
    match e with
    | FieldTooLarge => lit "field larger than field limit (131072)"
    | NewLineInField => lit "new-line character seen in unquoted field"
    end.

(** ** Effects

    A run reads the outside world through [services] and leaves a trace:
    the outbound calls it made and the widgets it put on the page. *)

Inductive outcome (A : Type) : Type :=
| Return (a : A)
| Raise (e : exn).
Arguments Return {A} a.
Arguments Raise {A} e.

Record chat_message : Type := { role : str; content : str }.

Record chat_request : Type := {
  model : str;
  messages : list chat_message;
  response_format : dict
}.

(** A completion: [message.content] of each of its choices. *)
Record chat_completion : Type := { choices : list (option str) }.

Inductive outbound : Type :=
| ChatCompletionsCreate (api_key : str) (request : chat_request)
| RequestsGet (url : str) (params : list (str * str))
| S3GetObject (bucket key : str).

Inductive widget : Type :=
| StTitle (text : str)
| StSubheader (text : str)
| StWrite (args : list value)
| StError (text : str)
| StWarning (text : str).

Record world : Type := {
  calls : list outbound;
  page : list widget
}.

Record services : Type := {
  (** [OpenAI(api_key=k).chat.completions.create(...)] *)
  chat_completions_create : str -> chat_request -> outcome chat_completion;
  (** [requests.get(url, params=params).json()] *)
  requests_get_json : str -> list (str * str) -> outcome value;
  (** [get_object(Bucket=b, Key=k)['Body'].read().decode('utf-8')] *)
  s3_object_text : str -> str -> outcome str;
  (** the text of a local file *)
  file_text : str -> outcome str
}.

Definition M (A : Type) : Type := world -> outcome A * world.

Definition ret {A} (a : A) : M A := fun w => (Return a, w).
Definition raise {A} (e : exn) : M A := fun w => (Raise e, w).
Definition bind {A B} (m : M A) (k : A -> M B) : M B :=
  fun w =>
    match m w with
    | (Return a, w') => k a w'
    | (Raise e, w') => (Raise e, w')
    end.
Definition lift {A} (o : outcome A) : M A := fun w => (o, w).

(** [try: m except Exception as e: handler(e)]. *)
Definition try_except {A} (m : M A) (handler : exn -> M A) : M A :=
  fun w =>
    match m w with
    | (Return a, w') => (Return a, w')
    | (Raise e, w') => handler e w'
    end.

Definition call_out (c : outbound) : M unit :=
  fun w => (Return tt, {| calls := calls w ++ [c]; page := page w |}).

Definition show (x : widget) : M unit :=
  fun w => (Return tt, {| calls := calls w; page := page w ++ [x] |}).

(** The same for code that has no effect but may raise. *)
Definition obind {A B} (o : outcome A) (k : A -> outcome B) : outcome B :=
  match o with
  | Return a => k a
  | Raise e => Raise e
  end.

Declare Scope py_scope.
Delimit Scope py_scope with py.
Notation "x <- m ;; k" := (bind m (fun x => k))
  (at level 61, m at next level, right associativity) : py_scope.
Notation "m ;;; k" := (bind m (fun _ => k))
  (at level 61, right associativity) : py_scope.
Notation "'let*' x := o 'in' k" := (obind o (fun x => k))
  (at level 61, x name, o at next level, right associativity) : py_scope.

(** ** Builtins on values *)

(** [v.get(k, default)]: only a [dict] has the method. *)
Definition py_get (v : value) (k : str) (default : value) : outcome value :=
  match v with
  | VDict d => Return (dict_get_default d k default)
  | _ => Raise AttributeError
  end.

(** [v[k]] for a [str] key. *)
Definition py_getitem (v : value) (k : str) : outcome value :=
  match v with
  | VDict d =>
      match dict_get d k with
      | Some x => Return x
      | None => Raise (KeyError k)
      end
  | _ => Raise TypeError
  end.

(** The items of an iterable that [sep.join] accepts: every item must
    be a [str]. A [str] yields its characters, a [dict] its keys. *)
Fixpoint all_str (items : list value) : option (list str) :=
  match items with
  | [] => Some []
  | VStr s :: rest =>
      match all_str rest with
      | Some l => Some (s :: l)
      | None => None
      end
  | _ :: _ => None
  end.

(** [sep.join(v)]. *)
Definition py_join (sep : str) (v : value) : outcome str :=
  match v with
  | VList items =>
      match all_str items with
      | Some l => Return (join sep l)
      | None => Raise TypeError
      end
  | VStr s => Return (join sep (map (fun c => [c]) s))
  | VDict d => Return (join sep (map fst d))
  | _ => Raise TypeError
  end.

(** [a == b] for values built from JSON, where [b] is a [str]. *)
Definition eq_str (a : value) (b : str) : bool :=
  match a with
  | VStr s => str_eqb s b
  | _ => false
  end.

End Py.

(* ================================================================== *)
(** * pydantic: [BaseModel] validation *)
(* ================================================================== *)

(** What both files rely on: required fields, [str] and [List] fields,
    nested models, [min_items], unknown keys ignored. The flag [v2]
    says that the installed pydantic is version 2. Version 1 reads
    text with [json.loads], turns numbers into [str] for a [str] field
    and accepts, for a model, whatever [dict()] accepts; version 2 has
    a reader of its own, which refuses unpaired surrogate escapes, and
    coerces neither. The kinds of issue are coarser than pydantic's. *)

Module Pydantic.
Import Py.

Inductive validation (A : Type) : Type :=
| Valid (a : A)
| Errors (issues : list issue).
Arguments Valid {A} a.
Arguments Errors {A} issues.

Definition at_loc (l : loc_item) (es : list issue) : list issue :=
  map (fun e => (l :: fst e, snd e)) es.

(** A model class: the validation of keyword data against its fields,
    and the dict of an instance. *)
Class BaseModel (A : Type) : Type := {
  model_init : bool -> dict -> validation A;
  model_dump : A -> value
}.

Section Validators.
Context `{Runtime}.
Variable v2 : bool.

Definition validate_str (v : value) : validation str :=
  match v with
  | VStr s => Valid s
  | VInt _ | VFloat _ | VBool _ =>
      if v2 then Errors [([], NotAString)] else Valid (py_str v)
  | _ => Errors [([], NotAString)]
  end.

Section Items.
Variables (A : Type) (item : value -> validation A).

Fixpoint validate_items (i : nat) (items : list value) : validation (list A) :=
  match items with
  | [] => Valid []
  | x :: rest =>
      match item x, validate_items (S i) rest with
      | Valid a, Valid l => Valid (a :: l)
      | Valid _, Errors es => Errors es
      | Errors es, Valid _ => Errors (at_loc (Index i) es)
      | Errors es, Errors es' => Errors (at_loc (Index i) es ++ es')
      end
  end.

(** A [List[A]] field with [min_items]. *)
Definition validate_list (min_items : nat) (v : value) : validation (list A) :=
  match v with
  | VList items =>
      match validate_items 0 items with
      | Valid l =>
          if List.length l <? min_items then Errors [([], TooShort)] else Valid l
      | Errors es => Errors es
      end
  | _ => Errors [([], NotAList)]
  end.

End Items.

(** A required field [name] of the keyword data [d]. *)
Definition required {A} (d : dict) (name : str) (check : value -> validation A)
  : validation A :=
  match dict_get d name with
  | None => Errors [([Field name], Missing)]
  | Some v =>
      match check v with
      | Valid a => Valid a
      | Errors es => Errors (at_loc (Field name) es)
      end
  end.

Definition both {A B C} (a : validation A) (b : validation B) (f : A -> B -> C)
  : validation C :=
  match a, b with
  | Valid x, Valid y => Valid (f x y)
  | Valid _, Errors es => Errors es
  | Errors es, Valid _ => Errors es
  | Errors es, Errors es' => Errors (es ++ es')
  end.

(** What [dict(v)] makes of a value that is no [dict]. *)
Inductive dict_like : Type :=
| DictOk (d : dict)
| NotDictLike      (* [dict(v)] raises *)
| NonStrKeys.      (* a dict, some key of which is no [str] *)

(** An item of the sequence given to [dict()]: a key and a value, when
    the item has two elements and the first can be a key. *)
Definition as_pair (x : value) : option (value * value) :=
  match x with
  | VList [k; v] =>
      match k with
      | VList _ | VDict _ => None
      | _ => Some (k, v)
      end
  | VStr [a; b] => Some (VStr [a], VStr [b])
  | VDict [(k1, _); (k2, _)] => Some (VStr k1, VStr k2)
  | _ => None
  end.

Fixpoint all_pairs (items : list value) : option (list (value * value)) :=
  match items with
  | [] => Some []
  | x :: rest =>
      match as_pair x, all_pairs rest with
      | Some p, Some l => Some (p :: l)
      | _, _ => None
      end
  end.

Fixpoint str_keys (ps : list (value * value)) : option (list (str * value)) :=
  match ps with
  | [] => Some []
  | (VStr k, v) :: rest =>
      match str_keys rest with
      | Some l => Some ((k, v) :: l)
      | None => None
      end
  | _ :: _ => None
  end.

Definition dict_of_iterable (v : value) : dict_like :=
  match v with
  | VDict d => DictOk d
  | VList items =>
      match all_pairs items with
      | None => NotDictLike
      | Some ps =>
          match str_keys ps with
          | Some kvs => DictOk (dict_of_pairs kvs)
          | None => NonStrKeys
          end
      end
  | VStr [] => DictOk []
  | _ => NotDictLike
  end.

(** The call of the class with the dict as keyword arguments, in
    pydantic 1, where the first parameter of [__init__] is named
    [__pydantic_self__] and the keywords follow it: a key of that name
    is a second value for the parameter, and the call raises
    [TypeError] before any field is looked at. Pydantic 2 validates
    JSON data without that call. *)
Definition self_name : str := lit "__pydantic_self__".

Definition names_self (d : dict) : bool :=
  match dict_get d self_name with
  | Some _ => true
  | None => false
  end.

(** A field whose type is the model [A]. In pydantic 1 the model is
    built by that call, and a [TypeError] of the call is one more
    issue of the field. *)
Definition validate_model {A} `{BaseModel A} (v : value) : validation A :=
  match v with
  | VDict d =>
      if v2 then model_init v2 d
      else if names_self d then Errors [([], BadKeywords)]
      else model_init v2 d
  | _ =>
      if v2 then Errors [([], NotAModel)]
      else
        match dict_of_iterable v with
        | DictOk d =>
            if names_self d then Errors [([], BadKeywords)]
            else model_init v2 d
        | NotDictLike => Errors [([], NotAModel)]
        | NonStrKeys => Errors [([], BadKeywords)]
        end
  end.

Definition checked {A} (r : validation A) : outcome A :=
  match r with
  | Valid a => Return a
  | Errors es => Raise (ValidationError es)
  end.

(** pydantic 1: [A.parse_obj(v)] and [A.parse_raw(text)]. *)
Definition parse_obj (A : Type) `{BaseModel A} (v : value) : outcome A :=
  match dict_of_iterable v with
  | DictOk d =>
      if names_self d then Raise TypeError else checked (model_init v2 d)
  | NotDictLike => Raise (ValidationError [([], NotAModel)])
  | NonStrKeys => Raise TypeError
  end.

Definition parse_raw (A : Type) `{BaseModel A} (b : str) : outcome A :=
  match json_loads b with
  | None => Raise (ValidationError [([], JsonInvalid)])
  | Some v => parse_obj A v
  end.

(** pydantic 2: [A.model_validate_json(text)]. *)
Definition model_validate_json (A : Type) `{BaseModel A} (json_data : str)
  : outcome A :=
  match json_decode true json_data with
  | None => Raise (ValidationError [([], JsonInvalid)])
  | Some (VDict d) => checked (model_init v2 d)
  | Some _ => Raise (ValidationError [([], NotAModel)])
  end.

End Validators.

(** The text pydantic 2 writes for a value: no blanks, and only quotes,
    backslashes and control characters escaped. *)
Definition escape_char_compact (c : char) : str :=
  if (c =? 34)%N then [92; 34]%N
  else if (c =? 92)%N then [92; 92]%N
  else if (c =? 10)%N then [92; 110]%N
  else if (c =? 13)%N then [92; 114]%N
  else if (c =? 9)%N then [92; 116]%N
  else if (c =? 8)%N then [92; 98]%N
  else if (c =? 12)%N then [92; 102]%N
  else if (c <? 32)%N then u_escape c
  else [c].

Definition encode_str_compact (s : str) : str :=
  34%N :: flat_map escape_char_compact s ++ [34%N].

Fixpoint to_json (v : value) : str :=
  match v with
  | VNone => lit "null"
  | VBool true => lit "true"
  | VBool false => lit "false"
  | VInt z => str_of_Z z
  | VFloat r => floatstr r
  | VStr s => encode_str_compact s
  | VList items => lit "[" ++ join (lit ",") (map to_json items) ++ lit "]"
  | VDict members =>
      lit "{"
      ++ join (lit ",")
           (map (fun kv => encode_str_compact (fst kv) ++ lit ":" ++ to_json (snd kv))
              members)
      ++ lit "}"
  end.

(** [a.json()]: [json.dumps] of the dict in version 1, the compact
    text in version 2. *)
Definition model_json {A} `{BaseModel A} (v2 : bool) (a : A) : str :=
  if v2 then to_json (model_dump a) else json_dumps (model_dump a).

End Pydantic.

(* ================================================================== *)
(** * main.py: the Lambda handler shell *)
(* ================================================================== *)

Module Main.
Import Py Pydantic.
Local Open Scope py_scope.

Definition S3_BUCKET_NAME : str := lit "travelogueit-code".
Definition S3_FILE_NAME : str := lit "interests.csv".

Definition nl : str := [10%N].

(** [Interest] and [PlaceInterests]. *)
Record Interest : Type := {
  main_interest : str;
  sub_interests : list str
}.

Record PlaceInterests : Type := {
  interests : list Interest
}.

(** A lambda response. *)
Record response : Type := {
  statusCode : Z;
  body : str
}.

Section MainPy.
Context `{Runtime}.

(** [PYDANTIC_V2 = pydantic.VERSION.startswith("2.")]; the services the
    process reaches; [os.environ.get]; and [INTERESTS], the taxonomy
    the module loaded when it was imported. *)
Variable PYDANTIC_V2 : bool.
Variable svc : services.
Variable environ_get : str -> option str.
Variable INTERESTS : list str.

#[global] Instance Interest_model : BaseModel Interest := {
  model_init v2 d :=
    both (required d (lit "main_interest") (validate_str v2))
         (required d (lit "sub_interests")
            (validate_list str (validate_str v2) 0))
         Build_Interest;
  model_dump a :=
    VDict [(lit "main_interest", VStr (main_interest a));
           (lit "sub_interests", VList (map VStr (sub_interests a)))]
}.

#[global] Instance PlaceInterests_model : BaseModel PlaceInterests := {
  model_init v2 d :=
    match required d (lit "interests")
            (validate_list Interest (validate_model v2) 1) with
    | Valid l => Valid (Build_PlaceInterests l)
    | Errors es => Errors es
    end;
  model_dump a :=
    VDict [(lit "interests", VList (map model_dump (interests a)))]
}.

(** [load_interests_from_s3]. *)
Definition csv_rows (lines : list str) : outcome (list (list str)) :=
  match csv_reader lines with
  | inl rows => Return rows
  | inr e => Raise (csv_error_exn e)
  end.

Definition load_interests_from_s3 (bucket_name file_name : str) : M (list str) :=
  try_except
    (call_out (S3GetObject bucket_name file_name) ;;;
     text <- lift (s3_object_text svc bucket_name file_name) ;;
     let content := splitlines text in
     rows <- lift (csv_rows content) ;;
     ret (flat_map (fun row => match row with [] => [] | f :: _ => [f] end) rows))
    (fun e =>
       raise (ValueError (lit "Error loading interests from S3: " ++ str_of_exn e))).

(** [validate_json]. *)
Definition validate_json (json_data : str) (model : Type) `{BaseModel model}
  : outcome model :=
  if PYDANTIC_V2
  then model_validate_json PYDANTIC_V2 model json_data
  else parse_raw PYDANTIC_V2 model json_data.

(** The four expressions the prompt embeds. *)
Definition render_name (place_details : value) : outcome str :=
  let* v := py_get place_details (lit "name") (VStr (lit "N/A")) in
  Return (py_str v).

Definition render_address (place_details : value) : outcome str :=
  let* v := py_get place_details (lit "formatted_address") (VStr (lit "N/A")) in
  Return (py_str v).

Definition render_types (place_details : value) : outcome str :=
  let* v := py_get place_details (lit "types") (VList []) in
  py_join (lit ", ") v.

Definition render_description (place_details : value) : outcome str :=
  let* summary := py_get place_details (lit "editorial_summary") (VDict []) in
  let* v := py_get summary (lit "overview") (VStr (lit "N/A")) in
  Return (py_str v).

Definition prompt_text (name address types description taxonomy : str) : str :=
  nl
    ++ lit "    Based on the following place details, generate a list of interests and sub-interests that match this location. " ++ nl
    ++ lit "    Choose only from the provided list of interests." ++ nl
    ++ nl
    ++ lit "    Place Details:" ++ nl
    ++ lit "    Name: " ++ name ++ nl
    ++ lit "    Address: " ++ address ++ nl
    ++ lit "    Types: " ++ types ++ nl
    ++ lit "    Description: " ++ description ++ nl
    ++ nl
    ++ lit "    Provided list of interests:" ++ nl
    ++ lit "    " ++ taxonomy ++ nl
    ++ nl
    ++ lit "    Generate the response in a structured JSON format with the following structure:" ++ nl
    ++ lit "    {" ++ nl
    ++ jlit "        'interests': [" ++ nl
    ++ lit "            {" ++ nl
    ++ jlit "                'main_interest': 'Interest Category'," ++ nl
    ++ jlit "                'sub_interests': ['Sub-interest 1', 'Sub-interest 2', ...]" ++ nl
    ++ lit "            }," ++ nl
    ++ lit "            ..." ++ nl
    ++ lit "        ]" ++ nl
    ++ lit "    }" ++ nl
    ++ lit "    Ensure that you include only interests from the provided list." ++ nl
    ++ lit "    ".

Definition make_prompt (place_details : value) : outcome str :=
  let* name := render_name place_details in
  let* address := render_address place_details in
  let* types := render_types place_details in
  let* description := render_description place_details in
  Return (prompt_text name address types description (join (lit ", ") INTERESTS)).

Definition system_message : chat_message :=
  {| role := lit "system";
     content := lit "You are a helpful assistant that generates structured data about place interests." |}.

Definition make_request (prompt : str) : chat_request :=
  {| model := lit "gpt-4o-mini";
     messages := [system_message; {| role := lit "user"; content := prompt |}];
     response_format := [(lit "type", VStr (lit "json_object"))] |}.

(** [response.choices[0].message.content]. *)
Definition first_content (r : chat_completion) : outcome (option str) :=
  match choices r with
  | c :: _ => Return c
  | [] => Raise IndexError
  end.

(** [json.loads(content)], where [content] may be [None]. *)
Definition loads (c : option str) : outcome value :=
  match c with
  | None => Raise TypeError
  | Some text =>
      match json_loads text with
      | Some v => Return v
      | None => Raise (JSONDecodeError text)
      end
  end.

(** The [try] block and its two [except] clauses. *)
Definition parse_response (c : option str) : outcome PlaceInterests :=
  match (let* parsed_json := loads c in
         validate_json (json_dumps parsed_json) PlaceInterests) with
  | Return r => Return r
  | Raise (JSONDecodeError doc) =>
      Raise (ValueError (lit "Invalid JSON returned by API: "
                         ++ str_of_exn (JSONDecodeError doc)))
  | Raise (ValidationError es) =>
      Raise (ValueError (lit "API response doesn't match expected structure: "
                         ++ str_of_exn (ValidationError es)))
  | Raise e => Raise e
  end.

(** [generate_interests]. *)
Definition generate_interests (place_details : value) (openai_api_key : str)
  : M PlaceInterests :=
  prompt <- lift (make_prompt place_details) ;;
  let request := make_request prompt in
  call_out (ChatCompletionsCreate openai_api_key request) ;;;
  response <- lift (chat_completions_create svc openai_api_key request) ;;
  content <- lift (first_content response) ;;
  lift (parse_response content).

(** [lambda_handler]. *)
Definition missing_parameters : response :=
  {| statusCode := 400;
     body := json_dumps (VDict [(lit "error", VStr (lit "Missing required parameters"))]) |}.

Definition lambda_handler (event context : value) : M response :=
  place_details <- lift (py_get event (lit "place_details") VNone) ;;
  let openai_api_key := environ_get (lit "OPENAI_API_KEY") in
  match truthy place_details, openai_api_key with
  | true, Some (c :: k) =>
      try_except
        (interests <- generate_interests place_details (c :: k) ;;
         ret {| statusCode := 200; body := model_json PYDANTIC_V2 interests |})
        (fun e =>
           ret {| statusCode := 500;
                  body := json_dumps (VDict [(lit "error", VStr (str_of_exn e))]) |})
  | _, _ => ret missing_parameters
  end.

End MainPy.
End Main.

(* ================================================================== *)
(** * app.py: the Streamlit shell *)
(* ================================================================== *)

Module App.
Import Py Pydantic.
Local Open Scope py_scope.

Definition GOOGLE_PLACE_DETAILS_URL : str :=
  lit "https://maps.googleapis.com/maps/api/place/details/json".

Definition nl : str := [10%N].

Record Interest : Type := {
  main_interest : str;
  sub_interests : list str
}.

Record PlaceInterests : Type := {
  interests : list Interest
}.

Section AppPy.
Context `{Runtime}.

(** [PYDANTIC_V2], the services the process reaches, and [INTERESTS],
    loaded from [interests.csv] when the script starts. *)
Variable PYDANTIC_V2 : bool.
Variable svc : services.
Variable INTERESTS : list str.

#[global] Instance Interest_model : BaseModel Interest := {
  model_init v2 d :=
    both (required d (lit "main_interest") (validate_str v2))
         (required d (lit "sub_interests")
            (validate_list str (validate_str v2) 0))
         Build_Interest;
  model_dump a :=
    VDict [(lit "main_interest", VStr (main_interest a));
           (lit "sub_interests", VList (map VStr (sub_interests a)))]
}.

#[global] Instance PlaceInterests_model : BaseModel PlaceInterests := {
  model_init v2 d :=
    match required d (lit "interests")
            (validate_list Interest (validate_model v2) 1) with
    | Valid l => Valid (Build_PlaceInterests l)
    | Errors es => Errors es
    end;
  model_dump a :=
    VDict [(lit "interests", VList (map model_dump (interests a)))]
}.

(** [load_interests_from_csv]: the decorator [st.cache_data] only keeps
    the result for the next run. *)
Definition csv_rows (lines : list str) : outcome (list (list str)) :=
  match csv_reader lines with
  | inl rows => Return rows
  | inr e => Raise (csv_error_exn e)
  end.

Definition load_interests_from_csv (file_path : str) : M (list str) :=
  text <- lift (file_text svc file_path) ;;
  rows <- lift (csv_rows (file_lines text)) ;;
  ret (flat_map (fun row => match row with [] => [] | f :: _ => [f] end) rows).

(** [validate_json]. *)
Definition validate_json (json_data : str) (model : Type) `{BaseModel model}
  : outcome model :=
  if PYDANTIC_V2
  then model_validate_json PYDANTIC_V2 model json_data
  else parse_raw PYDANTIC_V2 model json_data.

(** [get_place_details]. *)
Definition get_place_details (place_id google_api_key : str) : M value :=
  let params :=
    [(lit "place_id", place_id);
     (lit "fields", lit "name,formatted_address,types,editorial_summary");
     (lit "key", google_api_key)] in
  call_out (RequestsGet GOOGLE_PLACE_DETAILS_URL params) ;;;
  lift (requests_get_json svc GOOGLE_PLACE_DETAILS_URL params).

(** The four expressions the prompt and the page embed. *)
Definition render_name (place_details : value) : outcome str :=
  let* result := py_getitem place_details (lit "result") in
  let* v := py_get result (lit "name") (VStr (lit "N/A")) in
  Return (py_str v).

Definition render_address (place_details : value) : outcome str :=
  let* result := py_getitem place_details (lit "result") in
  let* v := py_get result (lit "formatted_address") (VStr (lit "N/A")) in
  Return (py_str v).

Definition render_types (place_details : value) : outcome str :=
  let* result := py_getitem place_details (lit "result") in
  let* v := py_get result (lit "types") (VList []) in
  py_join (lit ", ") v.

Definition render_description (place_details : value) : outcome str :=
  let* result := py_getitem place_details (lit "result") in
  let* summary := py_get result (lit "editorial_summary") (VDict []) in
  let* v := py_get summary (lit "overview") (VStr (lit "N/A")) in
  Return (py_str v).

Definition prompt_text (name address types description taxonomy : str) : str :=
  nl
    ++ lit "    Based on the following place details, generate a list of interests and sub-interests that match this location. " ++ nl
    ++ lit "    Choose only from the provided list of interests." ++ nl
    ++ nl
    ++ lit "    Place Details:" ++ nl
    ++ lit "    Name: " ++ name ++ nl
    ++ lit "    Address: " ++ address ++ nl
    ++ lit "    Types: " ++ types ++ nl
    ++ lit "    Description: " ++ description ++ nl
    ++ nl
    ++ lit "    Provided list of interests:" ++ nl
    ++ lit "    " ++ taxonomy ++ nl
    ++ nl
    ++ lit "    Generate the response in a structured JSON format with the following structure:" ++ nl
    ++ lit "    {" ++ nl
    ++ jlit "        'interests': [" ++ nl
    ++ lit "            {" ++ nl
    ++ jlit "                'main_interest': 'Interest Category'," ++ nl
    ++ jlit "                'sub_interests': ['Sub-interest 1', 'Sub-interest 2', ...]" ++ nl
    ++ lit "            }," ++ nl
    ++ lit "            ..." ++ nl
    ++ lit "        ]" ++ nl
    ++ lit "    }" ++ nl
    ++ lit "    Ensure that you include at least one interest in the list." ++ nl
    ++ lit "    ".

Definition make_prompt (place_details : value) : outcome str :=
  let* name := render_name place_details in
  let* address := render_address place_details in
  let* types := render_types place_details in
  let* description := render_description place_details in
  Return (prompt_text name address types description (join (lit ", ") INTERESTS)).

Definition system_message : chat_message :=
  {| role := lit "system";
     content := lit "You are a helpful assistant that generates structured data about place interests." |}.

Definition make_request (prompt : str) : chat_request :=
  {| model := lit "gpt-4o-mini";
     messages := [system_message; {| role := lit "user"; content := prompt |}];
     response_format := [(lit "type", VStr (lit "json_object"))] |}.

Definition first_content (r : chat_completion) : outcome (option str) :=
  match choices r with
  | c :: _ => Return c
  | [] => Raise IndexError
  end.

Definition loads (c : option str) : outcome value :=
  match c with
  | None => Raise TypeError
  | Some text =>
      match json_loads text with
      | Some v => Return v
      | None => Raise (JSONDecodeError text)
      end
  end.

Definition parse_response (c : option str) : outcome PlaceInterests :=
  match (let* parsed_json := loads c in
         validate_json (json_dumps parsed_json) PlaceInterests) with
  | Return r => Return r
  | Raise (JSONDecodeError doc) =>
      Raise (ValueError (lit "Invalid JSON returned by API: "
                         ++ str_of_exn (JSONDecodeError doc)))
  | Raise (ValidationError es) =>
      Raise (ValueError (lit "API response doesn't match expected structure: "
                         ++ str_of_exn (ValidationError es)))
  | Raise e => Raise e
  end.

Definition content_value (c : option str) : value :=
  match c with
  | Some text => VStr text
  | None => VNone
  end.

(** [generate_interests]. *)
Definition generate_interests (place_details : value) (openai_api_key : str)
  : M PlaceInterests :=
  prompt <- lift (make_prompt place_details) ;;
  let request := make_request prompt in
  call_out (ChatCompletionsCreate openai_api_key request) ;;;
  response <- lift (chat_completions_create svc openai_api_key request) ;;
  content <- lift (first_content response) ;;
  show (StWrite [VStr (lit "Debug - API Response:"); content_value content]) ;;;
  lift (parse_response content).

(** [for x in l: body(x)]. *)
Fixpoint for_each {A} (l : list A) (body : A -> M unit) : M unit :=
  match l with
  | [] => ret tt
  | x :: rest => body x ;;; for_each rest body
  end.

Definition nonempty (s : str) : bool :=
  match s with
  | [] => false
  | _ :: _ => true
  end.

(** The body of [if st.button("Generate Interests"):]. *)
Definition on_generate_interests (place_id google_api_key openai_api_key : str)
  : M unit :=
  if nonempty place_id && nonempty google_api_key && nonempty openai_api_key then
    place_details <- get_place_details place_id google_api_key ;;
    status <- lift (py_getitem place_details (lit "status")) ;;
    if eq_str status (lit "OK") then
      show (StSubheader (lit "Place Details:")) ;;;
      name <- lift (render_name place_details) ;;
      show (StWrite [VStr (lit "Name: " ++ name)]) ;;;
      address <- lift (render_address place_details) ;;
      show (StWrite [VStr (lit "Address: " ++ address)]) ;;;
      types <- lift (render_types place_details) ;;
      show (StWrite [VStr (lit "Types: " ++ types)]) ;;;
      description <- lift (render_description place_details) ;;
      show (StWrite [VStr (lit "Description: " ++ description)]) ;;;
      try_except
        (interests <- generate_interests place_details openai_api_key ;;
         show (StSubheader (lit "Generated Interests:")) ;;;
         for_each (App.interests interests) (fun interest =>
           show (StWrite [VStr (lit "- " ++ main_interest interest)]) ;;;
           for_each (sub_interests interest) (fun sub_interest =>
             show (StWrite [VStr (lit "  - " ++ sub_interest)]))))
        (fun e => show (StError (lit "Error generating interests: " ++ str_of_exn e)))
    else
      show (StError (lit "Error fetching place details: " ++ py_str status))
  else
    show (StWarning
            (lit "Please enter Google Place ID, Google API Key, and OpenAI API Key.")).

End AppPy.
End App.

(* ================================================================== *)
(** * Properties *)
(* ================================================================== *)

Import Py Pydantic.

(** ** Strings and dicts *)

Lemma str_eqb_refl (a : str) : str_eqb a a = true.
Proof.
  induction a as [|x a IH]; simpl; [reflexivity|].
  now rewrite N.eqb_refl.
Qed.

Lemma str_eqb_eq (a b : str) : str_eqb a b = true <-> a = b.
Proof.
  split; [|intros ->; apply str_eqb_refl].
  revert b; induction a as [|x a IH]; intros [|y b]; simpl; try easy.
  intros E; apply andb_prop in E as [E1 E2].
  apply N.eqb_eq in E1. f_equal; auto.
Qed.

Lemma str_eqb_neq (a b : str) : str_eqb a b = false <-> a <> b.
Proof.
  rewrite <- str_eqb_eq. destruct (str_eqb a b); intuition congruence.
Qed.

Lemma eq_str_false (v : value) (s : str) : v <> VStr s -> eq_str v s = false.
Proof.
  destruct v; simpl; try reflexivity.
  intros E. apply str_eqb_neq. congruence.
Qed.

(** A runtime to run the examples on: a float token prints as written,
    the [repr] of a string only adds apostrophes, and an exception
    prints as the name of its class. No example below contains a float
    or prints a string inside a list or dict. *)
Definition exn_class (e : exn) : str :=
  match e with
  | JSONDecodeError _ => lit "JSONDecodeError"
  | ValidationError _ => lit "ValidationError"
  | ValueError _ => lit "ValueError"
  | TypeError => lit "TypeError"
  | AttributeError => lit "AttributeError"
  | KeyError _ => lit "KeyError"
  | IndexError => lit "IndexError"
  | LibraryError name _ => name
  end.

Lemma written_floats_canonical (s : str) :
  is_float_lexeme s = true ->
  special_float s || (is_float_lexeme s && str_eqb s s) = true.
Proof.
  intros E. rewrite E, str_eqb_refl. apply orb_true_r.
Qed.

Definition example_runtime : Runtime := {|
  float_repr := fun s => s;
  repr_str := fun s => lit "'" ++ s ++ lit "'";
  exn_text := exn_class;
  float_repr_canonical := written_floats_canonical
|}.

(** Services that answer every chat completion with one choice whose
    content is [text], and every place-details request with [place];
    the taxonomy file, local or in the bucket, is empty. *)
Definition example_services (text : str) (place : value) : services := {|
  chat_completions_create := fun _ _ => Return {| choices := [Some text] |};
  requests_get_json := fun _ _ => Return place;
  s3_object_text := fun _ _ => Return [];
  file_text := fun _ => Return []
|}.

(** Services whose taxonomy file, local or in the bucket, is [text]. *)
Definition file_services (text : str) : services := {|
  chat_completions_create := fun _ _ => Raise (LibraryError (lit "APIConnectionError") []);
  requests_get_json := fun _ _ => Raise (LibraryError (lit "ConnectionError") []);
  s3_object_text := fun _ _ => Return text;
  file_text := fun _ => Return text
|}.

Definition no_environ : str -> option str := fun _ => None.

Definition key_environ (key : str) : str -> option str :=
  fun name => if str_eqb name (lit "OPENAI_API_KEY") then Some key else None.

Definition fresh_world : world := {| calls := []; page := [] |}.

(** ** The handler's guard (C6, C10) *)

Section HandlerGuard.
Context `{Runtime}.
Variables (PYDANTIC_V2 : bool) (svc : services)
          (environ_get : str -> option str) (INTERESTS : list str).

Lemma missing_parameters_body :
  Main.body Main.missing_parameters = jlit "{'error': 'Missing required parameters'}"
  /\ json_loads (Main.body Main.missing_parameters)
     = Some (VDict [(lit "error", VStr (lit "Missing required parameters"))]).
Proof. split; vm_compute; reflexivity. Qed.

Lemma handler_falsy_place_details (d : dict) (context : value) (w : world) :
  truthy (dict_get_default d (lit "place_details") VNone) = false ->
  Main.lambda_handler PYDANTIC_V2 svc environ_get INTERESTS (VDict d) context w
  = (Return Main.missing_parameters, w).
Proof.
  intros E. unfold Main.lambda_handler, bind, lift, py_get.
  cbn beta iota. rewrite E. reflexivity.
Qed.

(** C6: an event without the key [place_details] is answered with
    status 400 and a body that is a JSON object with an [error] field;
    the world is left as it was, so no outbound call is made. *)
Theorem lambda_handler_without_place_details
  (d : dict) (context : value) (w : world) :
  dict_get d (lit "place_details") = None ->
  exists r w',
    Main.lambda_handler PYDANTIC_V2 svc environ_get INTERESTS (VDict d) context w
      = (Return r, w')
    /\ Main.statusCode r = 400%Z
    /\ json_loads (Main.body r)
       = Some (VDict [(lit "error", VStr (lit "Missing required parameters"))])
    /\ calls w' = calls w /\ w' = w.
Proof.
  intros E. exists Main.missing_parameters, w.
  rewrite handler_falsy_place_details
    by (unfold dict_get_default; now rewrite E).
  split; [reflexivity|]. split; [reflexivity|].
  split; [apply missing_parameters_body|]. split; reflexivity.
Qed.

(** C10: a [place_details] that is present but falsy (an empty dict,
    [None], [0], an empty string or list, [False]) is answered like an
    absent one: status 400, an [error] body, no outbound call. *)
Theorem lambda_handler_falsy_place_details
  (d : dict) (v context : value) (w : world) :
  dict_get d (lit "place_details") = Some v ->
  truthy v = false ->
  exists r w',
    Main.lambda_handler PYDANTIC_V2 svc environ_get INTERESTS (VDict d) context w
      = (Return r, w')
    /\ Main.statusCode r = 400%Z
    /\ json_loads (Main.body r)
       = Some (VDict [(lit "error", VStr (lit "Missing required parameters"))])
    /\ calls w' = calls w /\ w' = w.
Proof.
  intros E F. exists Main.missing_parameters, w.
  rewrite handler_falsy_place_details
    by (unfold dict_get_default; now rewrite E).
  split; [reflexivity|]. split; [reflexivity|].
  split; [apply missing_parameters_body|]. split; reflexivity.
Qed.

End HandlerGuard.

Lemma lambda_handler_without_place_details_witness :
  dict_get [(lit "other", VInt 1)] (lit "place_details") = None
  /\ exists r w',
       Main.lambda_handler (H := example_runtime) true
         (example_services [] VNone) (key_environ (lit "sk-test")) [lit "Food"]
         (VDict [(lit "other", VInt 1)]) VNone fresh_world = (Return r, w')
       /\ Main.statusCode r = 400%Z
       /\ json_loads (H := example_runtime) (Main.body r)
          = Some (VDict [(lit "error", VStr (lit "Missing required parameters"))])
       /\ calls w' = calls fresh_world /\ w' = fresh_world.
Proof.
  split; [reflexivity|].
  apply (@lambda_handler_without_place_details example_runtime).
  reflexivity.
Defined.

Lemma lambda_handler_falsy_place_details_witness :
  dict_get [(lit "place_details", VDict [])] (lit "place_details") = Some (VDict [])
  /\ truthy (VDict []) = false
  /\ exists r w',
       Main.lambda_handler (H := example_runtime) true
         (example_services [] VNone) (key_environ (lit "sk-test")) [lit "Food"]
         (VDict [(lit "place_details", VDict [])]) VNone fresh_world = (Return r, w')
       /\ Main.statusCode r = 400%Z
       /\ json_loads (H := example_runtime) (Main.body r)
          = Some (VDict [(lit "error", VStr (lit "Missing required parameters"))])
       /\ calls w' = calls fresh_world /\ w' = fresh_world.
Proof.
  split; [reflexivity|]. split; [reflexivity|].
  apply (@lambda_handler_falsy_place_details example_runtime) with (v := VDict []);
    reflexivity.
Defined.

(** ** The status check of the interactive shell (C8) *)

(** The number of model calls in a trace. *)
Definition is_chat_call (c : outbound) : bool :=
  match c with
  | ChatCompletionsCreate _ _ => true
  | _ => false
  end.

Definition chat_call_count (l : list outbound) : nat :=
  List.length (filter is_chat_call l).

Lemma chat_call_count_app (a b : list outbound) :
  chat_call_count (a ++ b) = chat_call_count a + chat_call_count b.
Proof. unfold chat_call_count. now rewrite filter_app, length_app. Qed.

Definition place_details_params (place_id google_api_key : str)
  : list (str * str) :=
  [(lit "place_id", place_id);
   (lit "fields", lit "name,formatted_address,types,editorial_summary");
   (lit "key", google_api_key)].

Section StatusCheck.
Context `{Runtime}.
Variables (PYDANTIC_V2 : bool) (svc : services) (INTERESTS : list str).

(** C8: when the place-details response carries a [status] other than
    ["OK"], the click ends with one error message on the page; the only
    outbound call of the run is the place-details request, and the
    number of model calls does not change. *)
Theorem status_not_ok_short_circuits
  (place_id google_api_key openai_api_key : str) (d : dict) (status : value)
  (w : world) :
  App.nonempty place_id = true ->
  App.nonempty google_api_key = true ->
  App.nonempty openai_api_key = true ->
  requests_get_json svc App.GOOGLE_PLACE_DETAILS_URL
    (place_details_params place_id google_api_key) = Return (VDict d) ->
  dict_get d (lit "status") = Some status ->
  status <> VStr (lit "OK") ->
  exists w',
    App.on_generate_interests PYDANTIC_V2 svc INTERESTS
      place_id google_api_key openai_api_key w = (Return tt, w')
    /\ calls w' = calls w ++ [RequestsGet App.GOOGLE_PLACE_DETAILS_URL
                                (place_details_params place_id google_api_key)]
    /\ page w' = page w ++ [StError (lit "Error fetching place details: "
                                     ++ py_str status)]
    /\ chat_call_count (calls w') = chat_call_count (calls w).
Proof.
  intros P G O Hget Hstatus Hne.
  unfold App.on_generate_interests. rewrite P, G, O. cbn [andb].
  unfold App.get_place_details, bind, lift, call_out, show.
  fold (place_details_params place_id google_api_key).
  rewrite Hget. cbn [py_getitem]. rewrite Hstatus.
  rewrite (@eq_str_false status (lit "OK") Hne).
  eexists. split; [reflexivity|]. cbn [calls page].
  split; [reflexivity|]. split; [reflexivity|].
  rewrite chat_call_count_app. cbn. lia.
Qed.

End StatusCheck.

Lemma status_not_ok_short_circuits_witness :
  App.nonempty (lit "ChIJ") = true
  /\ App.nonempty (lit "g-key") = true
  /\ App.nonempty (lit "o-key") = true
  /\ VStr (lit "REQUEST_DENIED") <> VStr (lit "OK")
  /\ exists w',
       App.on_generate_interests (H := example_runtime) true
         (example_services [] (VDict [(lit "status", VStr (lit "REQUEST_DENIED"))]))
         [lit "Food"] (lit "ChIJ") (lit "g-key") (lit "o-key") fresh_world
       = (Return tt, w')
       /\ calls w' = calls fresh_world
                     ++ [RequestsGet App.GOOGLE_PLACE_DETAILS_URL
                           (place_details_params (lit "ChIJ") (lit "g-key"))]
       /\ page w' = page fresh_world
                    ++ [StError (lit "Error fetching place details: "
                                 ++ py_str (H := example_runtime)
                                      (VStr (lit "REQUEST_DENIED")))]
       /\ chat_call_count (calls w') = chat_call_count (calls fresh_world).
Proof.
  split; [reflexivity|]. split; [reflexivity|]. split; [reflexivity|].
  split; [discriminate|].
  apply (@status_not_ok_short_circuits example_runtime true
           (example_services [] (VDict [(lit "status", VStr (lit "REQUEST_DENIED"))]))
           [lit "Food"] (lit "ChIJ") (lit "g-key") (lit "o-key")
           [(lit "status", VStr (lit "REQUEST_DENIED"))]
           (VStr (lit "REQUEST_DENIED")) fresh_world);
    try reflexivity.
  discriminate.
Defined.

(** ** The prompt and the request (C4, C5) *)

(** [x] occurs in [s]. *)
Definition occurs_in (x s : str) : Prop :=
  exists pre post, s = pre ++ x ++ post.

Lemma occurs_here (x post : str) : occurs_in x (x ++ post).
Proof. now exists [], post. Qed.

Lemma occurs_later (x a s : str) : occurs_in x s -> occurs_in x (a ++ s).
Proof.
  intros (pre & post & ->). exists (a ++ pre), post. now rewrite app_assoc.
Qed.

Lemma strip_prefix_spec (p s r : str) : strip_prefix p s = Some r <-> s = p ++ r.
Proof.
  revert s; induction p as [|x p IH]; intros s; simpl.
  - split; congruence.
  - destruct s as [|y s]; [split; discriminate|].
    destruct (N.eqb_spec x y) as [->|Hxy].
    + rewrite IH. split; congruence.
    + split; [discriminate|]. intros E; congruence.
Qed.

Lemma contains_spec (x s : str) : contains x s = true <-> occurs_in x s.
Proof.
  induction s as [|c s IH].
  - simpl. destruct (strip_prefix x []) as [r|] eqn:E.
    + apply strip_prefix_spec in E. split; [|reflexivity].
      intros _. exists [], r. exact E.
    + split; [discriminate|]. intros (pre & post & E').
      destruct pre; [|discriminate]. simpl in E'.
      assert (strip_prefix x [] = Some post) by now apply strip_prefix_spec.
      congruence.
  - simpl. destruct (strip_prefix x (c :: s)) as [r|] eqn:E.
    + apply strip_prefix_spec in E. split; [|reflexivity].
      intros _. exists [], r. exact E.
    + rewrite IH. split.
      * intros (pre & post & ->). now exists (c :: pre), post.
      * intros (pre & post & E'). destruct pre as [|c' pre].
        -- simpl in E'.
           assert (strip_prefix x (c :: s) = Some post)
             by now apply strip_prefix_spec.
           congruence.
        -- injection E' as _ ->. now exists pre, post.
Qed.

Definition json_object_format : dict := [(lit "type", VStr (lit "json_object"))].

Definition only_from_list : str :=
  lit "Ensure that you include only interests from the provided list.".

Definition at_least_one : str :=
  lit "Ensure that you include at least one interest in the list.".

Ltac find_occurrence :=
  repeat first [ apply occurs_here | apply occurs_later ].

Section Prompt.
Context `{Runtime}.
Variables (PYDANTIC_V2 : bool) (svc : services) (INTERESTS : list str).

Lemma main_prompt_instruction (n a t d i : str) :
  occurs_in only_from_list (Main.prompt_text n a t d i).
Proof.
  unfold Main.prompt_text.
  change (lit "    Ensure that you include only interests from the provided list.")
    with (lit "    " ++ only_from_list).
  rewrite <- !app_assoc. find_occurrence.
Qed.

Lemma app_prompt_instruction (n a t d i : str) :
  occurs_in at_least_one (App.prompt_text n a t d i).
Proof.
  unfold App.prompt_text.
  change (lit "    Ensure that you include at least one interest in the list.")
    with (lit "    " ++ at_least_one).
  rewrite <- !app_assoc. find_occurrence.
Qed.

Lemma main_make_prompt_text (place_details : value) (p : str) :
  Main.make_prompt INTERESTS place_details = Return p ->
  exists n a t d,
    Main.render_name place_details = Return n
    /\ Main.render_address place_details = Return a
    /\ Main.render_types place_details = Return t
    /\ Main.render_description place_details = Return d
    /\ p = Main.prompt_text n a t d (join (lit ", ") INTERESTS).
Proof.
  unfold Main.make_prompt, obind.
  destruct (Main.render_name place_details) as [n|]; [|discriminate].
  destruct (Main.render_address place_details) as [a|]; [|discriminate].
  destruct (Main.render_types place_details) as [t|]; [|discriminate].
  destruct (Main.render_description place_details) as [d|]; [|discriminate].
  intros [= <-]. now exists n, a, t, d.
Qed.

Lemma app_make_prompt_text (place_details : value) (p : str) :
  App.make_prompt INTERESTS place_details = Return p ->
  exists n a t d,
    App.render_name place_details = Return n
    /\ App.render_address place_details = Return a
    /\ App.render_types place_details = Return t
    /\ App.render_description place_details = Return d
    /\ p = App.prompt_text n a t d (join (lit ", ") INTERESTS).
Proof.
  unfold App.make_prompt, obind.
  destruct (App.render_name place_details) as [n|]; [|discriminate].
  destruct (App.render_address place_details) as [a|]; [|discriminate].
  destruct (App.render_types place_details) as [t|]; [|discriminate].
  destruct (App.render_description place_details) as [d|]; [|discriminate].
  intros [= <-]. now exists n, a, t, d.
Qed.

(** The trace of [generate_interests]: one model call, with the request
    made of the prompt, when the prompt can be built; none otherwise. *)
Lemma main_generate_interests_calls (place_details : value) (key : str) (w : world) :
  match Main.make_prompt INTERESTS place_details with
  | Return p =>
      calls (snd (Main.generate_interests PYDANTIC_V2 svc INTERESTS place_details key w))
      = calls w ++ [ChatCompletionsCreate key (Main.make_request p)]
  | Raise e =>
      Main.generate_interests PYDANTIC_V2 svc INTERESTS place_details key w
      = (Raise e, w)
  end.
Proof.
  unfold Main.generate_interests, bind, lift, call_out.
  destruct (Main.make_prompt INTERESTS place_details) as [p|e]; [|reflexivity].
  destruct (chat_completions_create svc key (Main.make_request p)) as [r|e];
    [|reflexivity].
  destruct (Main.first_content r) as [c|e]; [|reflexivity].
  destruct (Main.parse_response PYDANTIC_V2 c); reflexivity.
Qed.

Lemma app_generate_interests_calls (place_details : value) (key : str) (w : world) :
  match App.make_prompt INTERESTS place_details with
  | Return p =>
      calls (snd (App.generate_interests PYDANTIC_V2 svc INTERESTS place_details key w))
      = calls w ++ [ChatCompletionsCreate key (App.make_request p)]
  | Raise e =>
      App.generate_interests PYDANTIC_V2 svc INTERESTS place_details key w
      = (Raise e, w)
  end.
Proof.
  unfold App.generate_interests, bind, lift, call_out, show.
  destruct (App.make_prompt INTERESTS place_details) as [p|e]; [|reflexivity].
  destruct (chat_completions_create svc key (App.make_request p)) as [r|e];
    [|reflexivity].
  destruct (App.first_content r) as [c|e]; [|reflexivity].
  destruct (App.parse_response PYDANTIC_V2 c); reflexivity.
Qed.

(** C5, as the code has it: in both shells the one request of a run
    asks for [json_object] output and carries the prompt as its user
    message. The prompt of the interactive shell tells the model to
    include at least one interest; the prompt of the handler shell
    tells it instead to include only interests from the list. A run
    whose prompt cannot be built makes no request. *)
Theorem generate_interests_request (place_details : value) (key : str) (w : world) :
  match Main.make_prompt INTERESTS place_details with
  | Return p =>
      calls (snd (Main.generate_interests PYDANTIC_V2 svc INTERESTS place_details key w))
      = calls w ++ [ChatCompletionsCreate key (Main.make_request p)]
      /\ response_format (Main.make_request p) = json_object_format
      /\ messages (Main.make_request p)
         = [Main.system_message; {| role := lit "user"; content := p |}]
      /\ occurs_in only_from_list p
  | Raise e =>
      Main.generate_interests PYDANTIC_V2 svc INTERESTS place_details key w
      = (Raise e, w)
  end
  /\
  match App.make_prompt INTERESTS place_details with
  | Return p =>
      calls (snd (App.generate_interests PYDANTIC_V2 svc INTERESTS place_details key w))
      = calls w ++ [ChatCompletionsCreate key (App.make_request p)]
      /\ response_format (App.make_request p) = json_object_format
      /\ messages (App.make_request p)
         = [App.system_message; {| role := lit "user"; content := p |}]
      /\ occurs_in at_least_one p
  | Raise e =>
      App.generate_interests PYDANTIC_V2 svc INTERESTS place_details key w
      = (Raise e, w)
  end.
Proof.
  split.
  - pose proof (main_generate_interests_calls place_details key w) as C.
    destruct (Main.make_prompt INTERESTS place_details) as [p|e] eqn:E; [|exact C].
    split; [exact C|]. split; [reflexivity|]. split; [reflexivity|].
    apply main_make_prompt_text in E as (n & a & t & d & _ & _ & _ & _ & ->).
    apply main_prompt_instruction.
  - pose proof (app_generate_interests_calls place_details key w) as C.
    destruct (App.make_prompt INTERESTS place_details) as [p|e] eqn:E; [|exact C].
    split; [exact C|]. split; [reflexivity|]. split; [reflexivity|].
    apply app_make_prompt_text in E as (n & a & t & d & _ & _ & _ & _ & ->).
    apply app_prompt_instruction.
Qed.

End Prompt.

(** C5, as stated, fails in the handler shell: for the place [{}] and
    the taxonomy [Food], the one request of the run carries a prompt in
    which neither the instruction of the interactive shell nor the
    words "at least one" occur. *)
Lemma handler_prompt_lacks_at_least_one :
  exists p,
    calls (snd (Main.generate_interests (H := example_runtime) true
                  (example_services [] VNone) [lit "Food"] (VDict [])
                  (lit "sk-test") fresh_world))
    = [ChatCompletionsCreate (lit "sk-test") (Main.make_request p)]
    /\ p = Main.prompt_text (lit "N/A") (lit "N/A") [] (lit "N/A") (lit "Food")
    /\ contains at_least_one p = false
    /\ contains (lit "at least one") p = false.
Proof.
  eexists. split; [reflexivity|]. split; [reflexivity|].
  split; vm_compute; reflexivity.
Qed.

(** The lines of the prompt that carry the place and the taxonomy. *)
Definition carries (n a t o i p : str) : Prop :=
  occurs_in (lit "Name: " ++ n ++ [10%N]) p
  /\ occurs_in (lit "Address: " ++ a ++ [10%N]) p
  /\ occurs_in (lit "Types: " ++ t ++ [10%N]) p
  /\ occurs_in (lit "Description: " ++ o ++ [10%N]) p
  /\ occurs_in (lit "Provided list of interests:" ++ [10%N] ++ lit "    " ++ i
                ++ [10%N]) p.

Lemma occurs_line (label x post : str) :
  occurs_in (label ++ x ++ [10%N]) (label ++ x ++ [10%N] ++ post).
Proof. exists [], post. rewrite <- !app_assoc. reflexivity. Qed.

Lemma occurs_two_lines (heading indent x post : str) :
  occurs_in (heading ++ [10%N] ++ indent ++ x ++ [10%N])
    (heading ++ [10%N] ++ indent ++ x ++ [10%N] ++ post).
Proof. exists [], post. rewrite <- !app_assoc. reflexivity. Qed.

Ltac find_line :=
  repeat first [ apply occurs_line | apply occurs_two_lines | apply occurs_later ].

Lemma main_prompt_carries (n a t o i : str) :
  carries n a t o i (Main.prompt_text n a t o i).
Proof.
  unfold Main.prompt_text, Main.nl, carries.
  change (lit "    Name: ") with (lit "    " ++ lit "Name: ").
  change (lit "    Address: ") with (lit "    " ++ lit "Address: ").
  change (lit "    Types: ") with (lit "    " ++ lit "Types: ").
  change (lit "    Description: ") with (lit "    " ++ lit "Description: ").
  change (lit "    Provided list of interests:")
    with (lit "    " ++ lit "Provided list of interests:").
  rewrite <- !app_assoc.
  split; [find_line|]. split; [find_line|]. split; [find_line|].
  split; find_line.
Qed.

Lemma app_prompt_carries (n a t o i : str) :
  carries n a t o i (App.prompt_text n a t o i).
Proof.
  unfold App.prompt_text, App.nl, carries.
  change (lit "    Name: ") with (lit "    " ++ lit "Name: ").
  change (lit "    Address: ") with (lit "    " ++ lit "Address: ").
  change (lit "    Types: ") with (lit "    " ++ lit "Types: ").
  change (lit "    Description: ") with (lit "    " ++ lit "Description: ").
  change (lit "    Provided list of interests:")
    with (lit "    " ++ lit "Provided list of interests:").
  rewrite <- !app_assoc.
  split; [find_line|]. split; [find_line|]. split; [find_line|].
  split; find_line.
Qed.

Section AbsentFields.
Context `{Runtime}.
Variable INTERESTS : list str.

Lemma main_absent_fields (d : dict) :
  (dict_get d (lit "name") = None ->
   Main.render_name (VDict d) = Return (lit "N/A"))
  /\ (dict_get d (lit "formatted_address") = None ->
      Main.render_address (VDict d) = Return (lit "N/A"))
  /\ (dict_get d (lit "editorial_summary") = None ->
      Main.render_description (VDict d) = Return (lit "N/A"))
  /\ (forall e, dict_get d (lit "editorial_summary") = Some (VDict e) ->
      dict_get e (lit "overview") = None ->
      Main.render_description (VDict d) = Return (lit "N/A"))
  /\ (dict_get d (lit "types") = None ->
      Main.render_types (VDict d) = Return []).
Proof.
  unfold Main.render_name, Main.render_address, Main.render_description,
    Main.render_types, obind, py_get, dict_get_default.
  repeat split.
  - now intros ->.
  - now intros ->.
  - now intros ->.
  - intros e -> E. cbv beta iota. now rewrite E.
  - now intros ->.
Qed.

Lemma app_absent_fields (top d : dict) :
  dict_get top (lit "result") = Some (VDict d) ->
  (dict_get d (lit "name") = None ->
   App.render_name (VDict top) = Return (lit "N/A"))
  /\ (dict_get d (lit "formatted_address") = None ->
      App.render_address (VDict top) = Return (lit "N/A"))
  /\ (dict_get d (lit "editorial_summary") = None ->
      App.render_description (VDict top) = Return (lit "N/A"))
  /\ (forall e, dict_get d (lit "editorial_summary") = Some (VDict e) ->
      dict_get e (lit "overview") = None ->
      App.render_description (VDict top) = Return (lit "N/A"))
  /\ (dict_get d (lit "types") = None ->
      App.render_types (VDict top) = Return []).
Proof.
  intros R.
  unfold App.render_name, App.render_address, App.render_description,
    App.render_types, obind, py_getitem. rewrite R.
  unfold py_get, dict_get_default.
  repeat split.
  - now intros ->.
  - now intros ->.
  - now intros ->.
  - intros e -> E. cbv beta iota. now rewrite E.
  - now intros ->.
Qed.

Lemma main_make_prompt_of_fields (place_details : value) (n a t d : str) :
  Main.render_name place_details = Return n ->
  Main.render_address place_details = Return a ->
  Main.render_types place_details = Return t ->
  Main.render_description place_details = Return d ->
  Main.make_prompt INTERESTS place_details
  = Return (Main.prompt_text n a t d (join (lit ", ") INTERESTS)).
Proof. unfold Main.make_prompt. now intros -> -> -> ->. Qed.

Lemma app_make_prompt_of_fields (place_details : value) (n a t d : str) :
  App.render_name place_details = Return n ->
  App.render_address place_details = Return a ->
  App.render_types place_details = Return t ->
  App.render_description place_details = Return d ->
  App.make_prompt INTERESTS place_details
  = Return (App.prompt_text n a t d (join (lit ", ") INTERESTS)).
Proof. unfold App.make_prompt. now intros -> -> -> ->. Qed.

Lemma main_absent_fields_in_prompt (d : dict) (p : str) :
  Main.make_prompt INTERESTS (VDict d) = Return p ->
  (dict_get d (lit "name") = None ->
   occurs_in (lit "Name: N/A" ++ [10%N]) p)
  /\ (dict_get d (lit "formatted_address") = None ->
      occurs_in (lit "Address: N/A" ++ [10%N]) p)
  /\ (dict_get d (lit "editorial_summary") = None ->
      occurs_in (lit "Description: N/A" ++ [10%N]) p)
  /\ (forall e, dict_get d (lit "editorial_summary") = Some (VDict e) ->
      dict_get e (lit "overview") = None ->
      occurs_in (lit "Description: N/A" ++ [10%N]) p)
  /\ (dict_get d (lit "types") = None ->
      occurs_in (lit "Types: " ++ [10%N]) p).
Proof.
  intros P. destruct (main_absent_fields d) as (A & B & C & D & E).
  apply main_make_prompt_text in P as (n & a & t & ds & N & Ad & T & Ds & ->).
  destruct (main_prompt_carries n a t ds (join (lit ", ") INTERESTS))
    as (c1 & c2 & c3 & c4 & _).
  split; [|split; [|split; [|split]]].
  - intros X. rewrite (A X) in N. injection N as <-. exact c1.
  - intros X. rewrite (B X) in Ad. injection Ad as <-. exact c2.
  - intros X. rewrite (C X) in Ds. injection Ds as <-. exact c4.
  - intros e X Y. rewrite (D e X Y) in Ds. injection Ds as <-. exact c4.
  - intros X. rewrite (E X) in T. injection T as <-. exact c3.
Qed.

Lemma app_absent_fields_in_prompt (top d : dict) (p : str) :
  dict_get top (lit "result") = Some (VDict d) ->
  App.make_prompt INTERESTS (VDict top) = Return p ->
  (dict_get d (lit "name") = None ->
   occurs_in (lit "Name: N/A" ++ [10%N]) p)
  /\ (dict_get d (lit "formatted_address") = None ->
      occurs_in (lit "Address: N/A" ++ [10%N]) p)
  /\ (dict_get d (lit "editorial_summary") = None ->
      occurs_in (lit "Description: N/A" ++ [10%N]) p)
  /\ (forall e, dict_get d (lit "editorial_summary") = Some (VDict e) ->
      dict_get e (lit "overview") = None ->
      occurs_in (lit "Description: N/A" ++ [10%N]) p)
  /\ (dict_get d (lit "types") = None ->
      occurs_in (lit "Types: " ++ [10%N]) p).
Proof.
  intros R P. destruct (app_absent_fields top d R) as (A & B & C & D & E).
  apply app_make_prompt_text in P as (n & a & t & ds & N & Ad & T & Ds & ->).
  destruct (app_prompt_carries n a t ds (join (lit ", ") INTERESTS))
    as (c1 & c2 & c3 & c4 & _).
  split; [|split; [|split; [|split]]].
  - intros X. rewrite (A X) in N. injection N as <-. exact c1.
  - intros X. rewrite (B X) in Ad. injection Ad as <-. exact c2.
  - intros X. rewrite (C X) in Ds. injection Ds as <-. exact c4.
  - intros e X Y. rewrite (D e X Y) in Ds. injection Ds as <-. exact c4.
  - intros X. rewrite (E X) in T. injection T as <-. exact c3.
Qed.

(** C4, as the code has it: in a place record (the event's
    [place_details] in the handler shell, the [result] of the response
    in the interactive shell) an absent [name], an absent
    [formatted_address] and an absent description (no
    [editorial_summary], or one without [overview]) are each rendered
    as ["N/A"], and the prompt that is built has the lines
    [Name: N/A], [Address: N/A] and [Description: N/A] for them;
    absent [types] are rendered as the empty text, and the prompt has
    nothing after [Types: ] on that line. The prompt is the template
    filled with the four rendered texts and the taxonomy. *)
Theorem absent_place_fields_in_prompt (top d : dict) :
  ((dict_get d (lit "name") = None ->
    Main.render_name (VDict d) = Return (lit "N/A"))
   /\ (dict_get d (lit "formatted_address") = None ->
       Main.render_address (VDict d) = Return (lit "N/A"))
   /\ (dict_get d (lit "editorial_summary") = None ->
       Main.render_description (VDict d) = Return (lit "N/A"))
   /\ (forall e, dict_get d (lit "editorial_summary") = Some (VDict e) ->
       dict_get e (lit "overview") = None ->
       Main.render_description (VDict d) = Return (lit "N/A"))
   /\ (dict_get d (lit "types") = None ->
       Main.render_types (VDict d) = Return [])
   /\ (forall p, Main.make_prompt INTERESTS (VDict d) = Return p ->
       (exists n a t ds,
          Main.render_name (VDict d) = Return n
          /\ Main.render_address (VDict d) = Return a
          /\ Main.render_types (VDict d) = Return t
          /\ Main.render_description (VDict d) = Return ds
          /\ p = Main.prompt_text n a t ds (join (lit ", ") INTERESTS))
       /\ (dict_get d (lit "name") = None ->
           occurs_in (lit "Name: N/A" ++ [10%N]) p)
       /\ (dict_get d (lit "formatted_address") = None ->
           occurs_in (lit "Address: N/A" ++ [10%N]) p)
       /\ (dict_get d (lit "editorial_summary") = None ->
           occurs_in (lit "Description: N/A" ++ [10%N]) p)
       /\ (forall e, dict_get d (lit "editorial_summary") = Some (VDict e) ->
           dict_get e (lit "overview") = None ->
           occurs_in (lit "Description: N/A" ++ [10%N]) p)
       /\ (dict_get d (lit "types") = None ->
           occurs_in (lit "Types: " ++ [10%N]) p)))
  /\
  (dict_get top (lit "result") = Some (VDict d) ->
   (dict_get d (lit "name") = None ->
    App.render_name (VDict top) = Return (lit "N/A"))
   /\ (dict_get d (lit "formatted_address") = None ->
       App.render_address (VDict top) = Return (lit "N/A"))
   /\ (dict_get d (lit "editorial_summary") = None ->
       App.render_description (VDict top) = Return (lit "N/A"))
   /\ (forall e, dict_get d (lit "editorial_summary") = Some (VDict e) ->
       dict_get e (lit "overview") = None ->
       App.render_description (VDict top) = Return (lit "N/A"))
   /\ (dict_get d (lit "types") = None ->
       App.render_types (VDict top) = Return [])
   /\ (forall p, App.make_prompt INTERESTS (VDict top) = Return p ->
       (exists n a t ds,
          App.render_name (VDict top) = Return n
          /\ App.render_address (VDict top) = Return a
          /\ App.render_types (VDict top) = Return t
          /\ App.render_description (VDict top) = Return ds
          /\ p = App.prompt_text n a t ds (join (lit ", ") INTERESTS))
       /\ (dict_get d (lit "name") = None ->
           occurs_in (lit "Name: N/A" ++ [10%N]) p)
       /\ (dict_get d (lit "formatted_address") = None ->
           occurs_in (lit "Address: N/A" ++ [10%N]) p)
       /\ (dict_get d (lit "editorial_summary") = None ->
           occurs_in (lit "Description: N/A" ++ [10%N]) p)
       /\ (forall e, dict_get d (lit "editorial_summary") = Some (VDict e) ->
           dict_get e (lit "overview") = None ->
           occurs_in (lit "Description: N/A" ++ [10%N]) p)
       /\ (dict_get d (lit "types") = None ->
           occurs_in (lit "Types: " ++ [10%N]) p))).
Proof.
  split.
  - destruct (main_absent_fields d) as (A & B & C & D & E).
    repeat (split; [assumption|]).
    intros p P. split; [now apply main_make_prompt_text|].
    now apply main_absent_fields_in_prompt.
  - intros R. destruct (app_absent_fields top d R) as (A & B & C & D & E).
    repeat (split; [assumption|]).
    intros p P. split; [now apply app_make_prompt_text|].
    now apply (app_absent_fields_in_prompt top d).
Qed.

End AbsentFields.

(** The empty place record, in both shells: every field is absent, the
    prompt is built, its four lines read [N/A], [N/A], nothing and
    [N/A], and each of these lines occurs in it. *)
Lemma absent_place_fields_in_prompt_witness :
  exists p q,
    Main.make_prompt (H := example_runtime) [lit "Food"] (VDict []) = Return p
    /\ p = Main.prompt_text (lit "N/A") (lit "N/A") [] (lit "N/A") (lit "Food")
    /\ occurs_in (lit "Name: N/A" ++ [10%N]) p
    /\ occurs_in (lit "Address: N/A" ++ [10%N]) p
    /\ occurs_in (lit "Description: N/A" ++ [10%N]) p
    /\ occurs_in (lit "Types: " ++ [10%N]) p
    /\ App.make_prompt (H := example_runtime) [lit "Food"]
         (VDict [(lit "result", VDict [])]) = Return q
    /\ q = App.prompt_text (lit "N/A") (lit "N/A") [] (lit "N/A") (lit "Food")
    /\ occurs_in (lit "Name: N/A" ++ [10%N]) q
    /\ occurs_in (lit "Address: N/A" ++ [10%N]) q
    /\ occurs_in (lit "Description: N/A" ++ [10%N]) q
    /\ occurs_in (lit "Types: " ++ [10%N]) q.
Proof.
  destruct (@absent_place_fields_in_prompt example_runtime [lit "Food"]
              [(lit "result", VDict [])] [])
    as ((_ & _ & _ & _ & _ & F) & G).
  destruct (G eq_refl) as (_ & _ & _ & _ & _ & F').
  destruct (F _ eq_refl) as (_ & A & B & C & _ & E).
  destruct (F' _ eq_refl) as (_ & A' & B' & C' & _ & E').
  eexists. eexists.
  split; [reflexivity|]. split; [reflexivity|].
  split; [exact (A eq_refl)|]. split; [exact (B eq_refl)|].
  split; [exact (C eq_refl)|]. split; [exact (E eq_refl)|].
  split; [reflexivity|]. split; [reflexivity|].
  split; [exact (A' eq_refl)|]. split; [exact (B' eq_refl)|].
  split; [exact (C' eq_refl)|]. exact (E' eq_refl).
Defined.

(** C4, as stated, fails for [types]: in the empty place record the
    field is absent, and it is rendered as the empty text, not as
    ["N/A"]; the prompt has nothing after [Types:]. *)
Lemma absent_types_render_empty :
  dict_get [] (lit "types") = None
  /\ Main.render_types (VDict []) = Return []
  /\ App.render_types (VDict [(lit "result", VDict [])]) = Return []
  /\ exists p,
       Main.make_prompt (H := example_runtime) [lit "Food"] (VDict []) = Return p
       /\ contains (lit "Types: N/A") p = false
       /\ contains (lit "    Types: " ++ [10%N] ++ lit "    Description: N/A") p
          = true.
Proof.
  split; [reflexivity|]. split; [reflexivity|]. split; [reflexivity|].
  eexists. split; [reflexivity|]. split; vm_compute; reflexivity.
Qed.

(** ** Taxonomy loading (C7) *)

(** In the words of the specification: the first field of every
    non-empty row, in row order. *)
Definition is_empty_row (row : list str) : bool :=
  match row with
  | [] => true
  | _ :: _ => false
  end.

Definition first_field_of_each_nonempty_row (rows : list (list str)) : list str :=
  map (hd []) (filter (fun row => negb (is_empty_row row)) rows).




(** The comprehension of both loaders. *)
Definition first_column (rows : list (list str)) : list str :=
  flat_map (fun row => match row with [] => [] | f :: _ => [f] end) rows.

Lemma first_column_spec (rows : list (list str)) :
  first_column rows = first_field_of_each_nonempty_row rows.
Proof.
  unfold first_column, first_field_of_each_nonempty_row.
  induction rows as [|[|f fs] rows IH]; simpl; [reflexivity|exact IH|].
  now rewrite IH.
Qed.


Lemma first_column_length (rows : list (list str)) :
  List.length (first_column rows)
  = List.length (filter (fun row => negb (is_empty_row row)) rows).
Proof.
  rewrite first_column_spec. unfold first_field_of_each_nonempty_row.
  apply length_map.
Qed.










(** *** Sources without quotes *)

(** A line with no quote and no line break of any kind. *)
Definition unquoted (l : str) : bool :=
  forallb (fun c => negb (is_linebreak c) && negb (c =? 34)%N) l.


(** The fields of an unquoted line: its text between the commas. *)
Fixpoint split_commas (cur : str) (l : str) : list str :=
  match l with
  | [] => [cur]
  | c :: t =>
      if (c =? 44)%N then cur :: split_commas [] t
      else split_commas (cur ++ [c]) t
  end.

Definition row_of (l : str) : list str :=
  match l with
  | [] => []
  | _ :: _ => split_commas [] l
  end.

(** The text of a line up to its first comma. *)
Fixpoint before_comma (l : str) : str :=
  match l with
  | [] => []
  | c :: t => if (c =? 44)%N then [] else c :: before_comma t
  end.

(** A field the reader takes: at most [field_size_limit] characters. *)
Definition fits (f : str) : bool :=
  (N.of_nat (List.length f) <=? field_size_limit)%N.

(** Every field of every line fits. *)
Definition fields_fit (lines : list str) : bool :=
  forallb (fun l => forallb fits (split_commas [] l)) lines.

Lemma no_crnl_linebreak (c : char) : is_linebreak c = false -> is_crnl c = false.
Proof.
  unfold is_linebreak, is_crnl.
  destruct (c =? 10)%N; [discriminate|]. now destruct (c =? 13)%N.
Qed.

Lemma unquoted_cons (c : char) (l : str) :
  unquoted (c :: l) = true ->
  is_linebreak c = false /\ (c =? 34)%N = false /\ unquoted l = true.
Proof.
  cbn. intros E. apply andb_prop in E as [E U].
  apply andb_prop in E as [B Q].
  apply negb_true_iff in B. apply negb_true_iff in Q. auto.
Qed.


Lemma linebreak_cr (c : char) : is_linebreak c = false -> (c =? 13)%N = false.
Proof.
  unfold is_linebreak. destruct (c =? 10)%N; [discriminate|].
  now destruct (c =? 13)%N.
Qed.

Lemma linebreak_lf (c : char) : is_linebreak c = false -> (c =? 10)%N = false.
Proof. unfold is_linebreak. now destruct (c =? 10)%N. Qed.

Lemma hd_split_commas (l : str) :
  forall cur, exists rest, split_commas cur l = (cur ++ before_comma l) :: rest.
Proof.
  induction l as [|c l IH]; intros cur; cbn [split_commas before_comma].
  - exists []. now rewrite app_nil_r.
  - destruct (c =? 44)%N.
    + eexists. now rewrite app_nil_r.
    + destruct (IH (cur ++ [c])) as (rest & ->). exists rest.
      now rewrite <- app_assoc.
Qed.

(** The ends a line can have. *)
Definition line_end (tail : str) : Prop :=
  tail = [] \/ tail = [10%N] \/ tail = [13%N] \/ tail = [13%N; 10%N].

Lemma fits_add (cur : str) (c : char) (l : str) :
  forallb fits (split_commas (cur ++ [c]) l) = true ->
  (field_size_limit <=? N.of_nat (List.length cur))%N = false.
Proof.
  destruct (hd_split_commas l (cur ++ [c])) as (rest & ->).
  cbn [forallb]. intros E. apply andb_prop in E as [E _].
  unfold fits in E. apply N.leb_le in E. apply N.leb_gt.
  rewrite !length_app in E. cbn [List.length] in E. lia.
Qed.

(** The reader on an unquoted line, once a field has begun. *)
Lemma parse_unquoted (l : str) :
  forall p tail,
    unquoted l = true ->
    forallb fits (split_commas (field p) l) = true ->
    state p = START_FIELD \/ state p = IN_FIELD ->
    line_end tail ->
    parse_line p (l ++ tail)
    = inl {| state := START_RECORD;
             fields := fields p ++ split_commas (field p) l;
             field := [] |}.
Proof.
  induction l as [|c l IH]; intros p tail U F S T.
  - cbn [List.app split_commas].
    destruct T as [->|[->|[->| ->]]]; cbn; unfold parse_process_char;
      destruct S as [S|S]; rewrite S; reflexivity.
  - apply unquoted_cons in U as (B & Q & U).
    cbn [split_commas] in F.
    cbn [List.app parse_line split_commas].
    assert (parse_process_char p (Some c)
            = if (c =? 44)%N then inl (parse_save_field p START_FIELD)
              else parse_add_char p c IN_FIELD) as ->.
    { unfold parse_process_char. rewrite (no_crnl_linebreak c B), Q.
      destruct S as [S|S]; rewrite S; now destruct (c =? 44)%N. }
    destruct (c =? 44)%N.
    + cbn [forallb] in F. apply andb_prop in F as [_ F].
      rewrite IH by (cbn; auto). cbn [fields field parse_save_field].
      now rewrite <- app_assoc.
    + unfold parse_add_char. rewrite (fits_add _ _ _ F).
      rewrite IH by (cbn; auto). reflexivity.
Qed.

Lemma parse_line_unquoted (l tail : str) :
  unquoted l = true ->
  forallb fits (split_commas [] l) = true ->
  line_end tail ->
  parse_line parse_reset (l ++ tail)
  = inl {| state := START_RECORD; fields := row_of l; field := [] |}.
Proof.
  intros U F T. destruct l as [|c l].
  - destruct T as [->|[->|[->| ->]]]; reflexivity.
  - pose proof (unquoted_cons c l U) as (B & Q & U').
    cbn [split_commas] in F.
    cbn [List.app parse_line row_of split_commas].
    assert (parse_process_char parse_reset (Some c)
            = if (c =? 44)%N then inl (parse_save_field parse_reset START_FIELD)
              else parse_add_char parse_reset c IN_FIELD) as ->.
    { unfold parse_process_char. cbn [state parse_reset].
      rewrite (no_crnl_linebreak c B), Q. now destruct (c =? 44)%N. }
    destruct (c =? 44)%N.
    + cbn [forallb] in F. apply andb_prop in F as [_ F].
      rewrite parse_unquoted by (cbn; auto). reflexivity.
    + unfold parse_add_char. cbn [field parse_reset].
      rewrite (fits_add [] c l F).
      rewrite parse_unquoted by (cbn; auto). reflexivity.
Qed.

Lemma reader_rows_unquoted_line (l tail : str) (rest : list str)
  (rows : list (list str)) :
  unquoted l = true ->
  forallb fits (split_commas [] l) = true ->
  line_end tail ->
  reader_rows parse_reset rest = inl rows ->
  reader_rows parse_reset ((l ++ tail) :: rest) = inl (row_of l :: rows).
Proof.
  intros U F T R. cbn [reader_rows].
  rewrite (parse_line_unquoted l tail U F T).
  cbn [state csv_state_eqb fields]. now rewrite R.
Qed.





(** The rows of the example: [Food,x], a blank row, [Outdoors,y]. *)
Definition example_rows_text : str :=
  lit "Food,x" ++ [10%N] ++ [10%N] ++ lit "Outdoors,y" ++ [10%N].

Section TaxonomyLoading.
Context `{Runtime}.
Variable svc : services.

Lemma load_from_s3_rows (bucket file text : str) (rows : list (list str)) (w : world) :
  s3_object_text svc bucket file = Return text ->
  csv_reader (splitlines text) = inl rows ->
  Main.load_interests_from_s3 svc bucket file w
  = (Return (first_column rows),
     {| calls := calls w ++ [S3GetObject bucket file]; page := page w |}).
Proof.
  intros T R.
  unfold Main.load_interests_from_s3, try_except, bind, lift, call_out, ret,
    Main.csv_rows.
  now rewrite T, R.
Qed.

Lemma load_from_csv_rows (path text : str) (rows : list (list str)) (w : world) :
  file_text svc path = Return text ->
  csv_reader (file_lines text) = inl rows ->
  App.load_interests_from_csv svc path w = (Return (first_column rows), w).
Proof.
  intros T R.
  unfold App.load_interests_from_csv, bind, lift, ret, App.csv_rows.
  now rewrite T, R.
Qed.


End TaxonomyLoading.





(** ** The limits around the readers

    The readers above follow the grammar and have no limit of their
    own. The interpreter and the libraries have some: [json.loads]
    raises [RecursionError] when the nesting of the text uses up the
    recursion limit of the interpreter (1000 frames unless it was
    changed), and [ValueError] for an integer with more digits than
    [sys.get_int_max_str_digits()] (4300 unless it was changed, and
    never less than 640 when it is set); the reader of pydantic 2
    refuses text nested deeper than its own limit (128 or 200 levels,
    by version). Neither failure is a [JSONDecodeError].

    [within_limits] holds of a text that stays clear of all of them:
    outside its strings no bracket or brace is open inside more than
    100 others, and it has no run of more than 640 digits. What the
    code does with a text it reads is stated for such texts. *)

Fixpoint deepest (depth : nat) (in_string escaped : bool) (s : str) : nat :=
  match s with
  | [] => depth
  | c :: t =>
      if in_string then
        if escaped then deepest depth true false t
        else if (c =? 92)%N then deepest depth true true t
        else if (c =? 34)%N then deepest depth false false t
        else deepest depth true false t
      else if (c =? 34)%N then deepest depth true false t
      else if ((c =? 91) || (c =? 123))%N
      then Nat.max depth (deepest (S depth) false false t)
      else if ((c =? 93) || (c =? 125))%N
      then Nat.max depth (deepest (Nat.pred depth) false false t)
      else deepest depth false false t
  end.

Definition nesting (text : str) : nat := deepest 0 false false text.

Fixpoint digit_run (run : nat) (s : str) : nat :=
  match s with
  | [] => run
  | c :: t =>
      if is_digit c then digit_run (S run) t
      else Nat.max run (digit_run 0 t)
  end.

Definition within_limits (text : str) : bool :=
  (nesting text <=? 100) && (digit_run 0 text <=? 640).



(** ** Reading the model's answer (C1, C2, C3) *)

Definition invalid_json_prefix : str := lit "Invalid JSON returned by API: ".
Definition structure_prefix : str :=
  lit "API response doesn't match expected structure: ".

(** The two failures [generate_interests] raises itself. *)
Definition InvalidResponseFormat `{Runtime} (doc : str) : exn :=
  ValueError (invalid_json_prefix ++ str_of_exn (JSONDecodeError doc)).

Definition SchemaValidationError `{Runtime} (issues : list issue) : exn :=
  ValueError (structure_prefix ++ str_of_exn (ValidationError issues)).

Section Answer.
Context `{Runtime}.
Variables (PYDANTIC_V2 : bool) (svc : services) (INTERESTS : list str).

Lemma checked_raises (A : Type) (r : validation A) (e : exn) :
  checked r = Raise e -> exists es, e = ValidationError es.
Proof. destruct r; simpl; [discriminate|]. intros [= <-]. eauto. Qed.

Lemma checked_returns (A : Type) (r : validation A) (a : A) :
  checked r = Return a -> r = Valid a.
Proof. destruct r; simpl; [|discriminate]. now intros [= <-]. Qed.

Lemma validate_list_min (A : Type) (item : value -> validation A)
  (n : nat) (v : value) (l : list A) :
  validate_list A item n v = Valid l -> n <= List.length l.
Proof.
  unfold validate_list. destruct v; try discriminate.
  destruct (validate_items A item 0 items) as [l'|]; [|discriminate].
  destruct (List.length l' <? n) eqn:E; [discriminate|].
  intros [= <-]. now apply Nat.ltb_ge in E.
Qed.

Lemma required_valid (A : Type) (d : dict) (name : str)
  (check : value -> validation A) (a : A) :
  required d name check = Valid a ->
  exists v, dict_get d name = Some v /\ check v = Valid a.
Proof.
  unfold required. destruct (dict_get d name) as [v|]; [|discriminate].
  destruct (check v) eqn:E; [|discriminate]. intros [= <-]. eauto.
Qed.

(** What [validate_json] raises is a [ValidationError], or the
    [TypeError] of pydantic 1 for keyword data that the call of the
    model refuses. *)
Lemma main_validate_json_raises (text : str) (e : exn) :
  Main.validate_json PYDANTIC_V2 text Main.PlaceInterests = Raise e ->
  (exists es, e = ValidationError es) \/ e = TypeError.
Proof.
  unfold Main.validate_json, model_validate_json, parse_raw, parse_obj.
  destruct PYDANTIC_V2.
  - destruct (json_decode true text) as [[]|];
      try (intros [= <-]; eauto); intros E; left; eapply checked_raises; eauto.
  - destruct (json_loads text) as [v|]; [|intros [= <-]; eauto].
    destruct (dict_of_iterable v) as [d| |]; [destruct (names_self d)| |];
      try (intros [= <-]; eauto); intros E; left; eapply checked_raises; eauto.
Qed.

Lemma app_validate_json_raises (text : str) (e : exn) :
  App.validate_json PYDANTIC_V2 text App.PlaceInterests = Raise e ->
  (exists es, e = ValidationError es) \/ e = TypeError.
Proof.
  unfold App.validate_json, model_validate_json, parse_raw, parse_obj.
  destruct PYDANTIC_V2.
  - destruct (json_decode true text) as [[]|];
      try (intros [= <-]; eauto); intros E; left; eapply checked_raises; eauto.
  - destruct (json_loads text) as [v|]; [|intros [= <-]; eauto].
    destruct (dict_of_iterable v) as [d| |]; [destruct (names_self d)| |];
      try (intros [= <-]; eauto); intros E; left; eapply checked_raises; eauto.
Qed.

(** A validated [PlaceInterests] has at least one interest. *)
Lemma main_validate_json_nonempty (text : str) (r : Main.PlaceInterests) :
  Main.validate_json PYDANTIC_V2 text Main.PlaceInterests = Return r ->
  Main.interests r <> [].
Proof.
  assert (I : forall v2 d, checked (model_init v2 d) = Return r ->
                           Main.interests r <> []).
  { intros v2 d E. apply checked_returns in E.
    unfold model_init, Main.PlaceInterests_model in E.
    destruct (required d (lit "interests")
                (validate_list Main.Interest (validate_model v2) 1))
      as [l|] eqn:R; [|discriminate].
    injection E as <-. cbn.
    apply required_valid in R as (v & _ & V).
    apply validate_list_min in V. destruct l; [inversion V|discriminate]. }
  unfold Main.validate_json, model_validate_json, parse_raw, parse_obj.
  destruct PYDANTIC_V2.
  - destruct (json_decode true text) as [[]|]; try discriminate. apply I.
  - destruct (json_loads text) as [v|]; [|discriminate].
    destruct (dict_of_iterable v) as [d| |]; try discriminate.
    destruct (names_self d); [discriminate|]. apply I.
Qed.

Lemma app_validate_json_nonempty (text : str) (r : App.PlaceInterests) :
  App.validate_json PYDANTIC_V2 text App.PlaceInterests = Return r ->
  App.interests r <> [].
Proof.
  assert (I : forall v2 d, checked (model_init v2 d) = Return r ->
                           App.interests r <> []).
  { intros v2 d E. apply checked_returns in E.
    unfold model_init, App.PlaceInterests_model in E.
    destruct (required d (lit "interests")
                (validate_list App.Interest (validate_model v2) 1))
      as [l|] eqn:R; [|discriminate].
    injection E as <-. cbn.
    apply required_valid in R as (v & _ & V).
    apply validate_list_min in V. destruct l; [inversion V|discriminate]. }
  unfold App.validate_json, model_validate_json, parse_raw, parse_obj.
  destruct PYDANTIC_V2.
  - destruct (json_decode true text) as [[]|]; try discriminate. apply I.
  - destruct (json_loads text) as [v|]; [|discriminate].
    destruct (dict_of_iterable v) as [d| |]; try discriminate.
    destruct (names_self d); [discriminate|]. apply I.
Qed.

(** The three ways [parse_response] ends on a text. *)
Lemma main_parse_response_text (text : str) :
  match json_loads text with
  | None =>
      Main.parse_response PYDANTIC_V2 (Some text) = Raise (InvalidResponseFormat text)
  | Some v =>
      match Main.validate_json PYDANTIC_V2 (json_dumps v) Main.PlaceInterests with
      | Return r => Main.parse_response PYDANTIC_V2 (Some text) = Return r
      | Raise (ValidationError es) =>
          Main.parse_response PYDANTIC_V2 (Some text)
          = Raise (SchemaValidationError es)
      | Raise _ => Main.parse_response PYDANTIC_V2 (Some text) = Raise TypeError
      end
  end.
Proof.
  unfold Main.parse_response, Main.loads, obind.
  destruct (json_loads text) as [v|]; [|reflexivity].
  destruct (Main.validate_json PYDANTIC_V2 (json_dumps v) Main.PlaceInterests)
    as [r|e] eqn:E; [reflexivity|].
  apply main_validate_json_raises in E as [(es & ->) | ->]; reflexivity.
Qed.

Lemma app_parse_response_text (text : str) :
  match json_loads text with
  | None =>
      App.parse_response PYDANTIC_V2 (Some text) = Raise (InvalidResponseFormat text)
  | Some v =>
      match App.validate_json PYDANTIC_V2 (json_dumps v) App.PlaceInterests with
      | Return r => App.parse_response PYDANTIC_V2 (Some text) = Return r
      | Raise (ValidationError es) =>
          App.parse_response PYDANTIC_V2 (Some text)
          = Raise (SchemaValidationError es)
      | Raise _ => App.parse_response PYDANTIC_V2 (Some text) = Raise TypeError
      end
  end.
Proof.
  unfold App.parse_response, App.loads, obind.
  destruct (json_loads text) as [v|]; [|reflexivity].
  destruct (App.validate_json PYDANTIC_V2 (json_dumps v) App.PlaceInterests)
    as [r|e] eqn:E; [reflexivity|].
  apply app_validate_json_raises in E as [(es & ->) | ->]; reflexivity.
Qed.

(** A run that reaches the model: the prompt is built, the call
    returns, and its first choice has the content [c]. *)
Definition main_model_answers (place_details : value) (key : str)
  (c : option str) : Prop :=
  exists p r,
    Main.make_prompt INTERESTS place_details = Return p
    /\ chat_completions_create svc key (Main.make_request p) = Return r
    /\ Main.first_content r = Return c.

Definition app_model_answers (place_details : value) (key : str)
  (c : option str) : Prop :=
  exists p r,
    App.make_prompt INTERESTS place_details = Return p
    /\ chat_completions_create svc key (App.make_request p) = Return r
    /\ App.first_content r = Return c.

Lemma main_generate_interests_answer
  [place_details : value] [key : str] [c : option str] (w : world) :
  main_model_answers place_details key c ->
  fst (Main.generate_interests PYDANTIC_V2 svc INTERESTS place_details key w)
  = Main.parse_response PYDANTIC_V2 c.
Proof.
  intros (p & r & P & R & C).
  unfold Main.generate_interests, bind, lift, call_out.
  now rewrite P, R, C.
Qed.

Lemma app_generate_interests_answer
  [place_details : value] [key : str] [c : option str] (w : world) :
  app_model_answers place_details key c ->
  fst (App.generate_interests PYDANTIC_V2 svc INTERESTS place_details key w)
  = App.parse_response PYDANTIC_V2 c.
Proof.
  intros (p & r & P & R & C).
  unfold App.generate_interests, bind, lift, call_out, show.
  now rewrite P, R, C.
Qed.





(** C2: when the model answers [{"interests": []}], [generate_interests]
    raises the [ValueError] that wraps pydantic's [ValidationError]: the
    list [interests] is too short. This holds in both shells and for
    both pydantic versions. *)
Theorem empty_interests_raises_schema_validation_error
  (place_details : value) (key : str) (w : world) :
  (main_model_answers place_details key
     (Some (jlit "{'interests': []}")) ->
   fst (Main.generate_interests PYDANTIC_V2 svc INTERESTS place_details key w)
   = Raise (SchemaValidationError [([Field (lit "interests")], TooShort)]))
  /\ (app_model_answers place_details key
        (Some (jlit "{'interests': []}")) ->
      fst (App.generate_interests PYDANTIC_V2 svc INTERESTS place_details key w)
      = Raise (SchemaValidationError [([Field (lit "interests")], TooShort)])).
Proof.
  split; intros A.
  - rewrite (main_generate_interests_answer w A).
    destruct PYDANTIC_V2; reflexivity.
  - rewrite (app_generate_interests_answer w A).
    destruct PYDANTIC_V2; reflexivity.
Qed.

Lemma main_parse_response_nonempty (c : option str) (r : Main.PlaceInterests) :
  Main.parse_response PYDANTIC_V2 c = Return r -> Main.interests r <> [].
Proof.
  destruct c as [text|]; [|discriminate].
  pose proof (main_parse_response_text text) as C.
  destruct (json_loads text) as [v|]; [|rewrite C; discriminate].
  destruct (Main.validate_json PYDANTIC_V2 (json_dumps v) Main.PlaceInterests)
    as [r'|[]] eqn:V; rewrite C; try discriminate.
  intros [= <-]. eapply main_validate_json_nonempty; eauto.
Qed.

Lemma app_parse_response_nonempty (c : option str) (r : App.PlaceInterests) :
  App.parse_response PYDANTIC_V2 c = Return r -> App.interests r <> [].
Proof.
  destruct c as [text|]; [|discriminate].
  pose proof (app_parse_response_text text) as C.
  destruct (json_loads text) as [v|]; [|rewrite C; discriminate].
  destruct (App.validate_json PYDANTIC_V2 (json_dumps v) App.PlaceInterests)
    as [r'|[]] eqn:V; rewrite C; try discriminate.
  intros [= <-]. eapply app_validate_json_nonempty; eauto.
Qed.

Lemma main_generate_interests_returns
  (place_details : value) (key : str) (w : world) (r : Main.PlaceInterests) :
  fst (Main.generate_interests PYDANTIC_V2 svc INTERESTS place_details key w)
  = Return r ->
  exists c, Main.parse_response PYDANTIC_V2 c = Return r.
Proof.
  unfold Main.generate_interests, bind, lift, call_out.
  destruct (Main.make_prompt INTERESTS place_details) as [p|]; [|discriminate].
  destruct (chat_completions_create svc key (Main.make_request p)) as [a|];
    [|discriminate].
  destruct (Main.first_content a) as [c|]; [|discriminate].
  cbn. eauto.
Qed.

Lemma app_generate_interests_returns
  (place_details : value) (key : str) (w : world) (r : App.PlaceInterests) :
  fst (App.generate_interests PYDANTIC_V2 svc INTERESTS place_details key w)
  = Return r ->
  exists c, App.parse_response PYDANTIC_V2 c = Return r.
Proof.
  unfold App.generate_interests, bind, lift, call_out, show.
  destruct (App.make_prompt INTERESTS place_details) as [p|]; [|discriminate].
  destruct (chat_completions_create svc key (App.make_request p)) as [a|];
    [|discriminate].
  destruct (App.first_content a) as [c|]; [|discriminate].
  cbn. eauto.
Qed.

(** C1, as the code has it: whatever the place record and the taxonomy,
    a result that [generate_interests] returns has a non-empty list of
    interests. (No minimum is set on [sub_interests].) *)
Theorem returned_interests_nonempty
  (place_details : value) (key : str) (w : world) :
  (forall r,
     fst (Main.generate_interests PYDANTIC_V2 svc INTERESTS place_details key w)
     = Return r ->
     Main.interests r <> [])
  /\ (forall r,
        fst (App.generate_interests PYDANTIC_V2 svc INTERESTS place_details key w)
        = Return r ->
        App.interests r <> []).
Proof.
  split; intros r E.
  - apply main_generate_interests_returns in E as (c & E).
    now apply main_parse_response_nonempty in E.
  - apply app_generate_interests_returns in E as (c & E).
    now apply app_parse_response_nonempty in E.
Qed.

End Answer.

(** The example place record, read by both shells: no known field. *)
Definition example_place : value := VDict [(lit "result", VDict [])].

Lemma example_main_model_answers (text : str) :
  main_model_answers (H := example_runtime) (example_services text VNone)
    [lit "Food"] example_place (lit "sk-test") (Some text).
Proof. eexists. eexists. repeat split. Qed.

Lemma example_app_model_answers (text : str) :
  app_model_answers (H := example_runtime) (example_services text VNone)
    [lit "Food"] example_place (lit "sk-test") (Some text).
Proof. eexists. eexists. repeat split. Qed.



Lemma empty_interests_raises_schema_validation_error_witness :
  fst (Main.generate_interests (H := example_runtime) false
         (example_services (jlit "{'interests': []}") VNone) [lit "Food"]
         example_place (lit "sk-test") fresh_world)
  = Raise (SchemaValidationError (H := example_runtime)
             [([Field (lit "interests")], TooShort)])
  /\ fst (App.generate_interests (H := example_runtime) false
            (example_services (jlit "{'interests': []}") VNone) [lit "Food"]
            example_place (lit "sk-test") fresh_world)
     = Raise (SchemaValidationError (H := example_runtime)
                [([Field (lit "interests")], TooShort)]).
Proof.
  destruct (@empty_interests_raises_schema_validation_error example_runtime false
              (example_services (jlit "{'interests': []}") VNone) [lit "Food"]
              example_place (lit "sk-test") fresh_world)
    as (A & B).
  split.
  - apply A, example_main_model_answers.
  - apply B, example_app_model_answers.
Defined.

Definition food_answer : str :=
  jlit "{'interests': [{'main_interest': 'Food', 'sub_interests': ['Cafes', 'Bakeries']}]}".

Lemma returned_interests_nonempty_witness :
  fst (Main.generate_interests (H := example_runtime) true
         (example_services food_answer VNone) [lit "Food"]
         example_place (lit "sk-test") fresh_world)
  = Return {| Main.interests :=
                [{| Main.main_interest := lit "Food";
                    Main.sub_interests := [lit "Cafes"; lit "Bakeries"] |}] |}
  /\ Main.interests
       {| Main.interests :=
            [{| Main.main_interest := lit "Food";
                Main.sub_interests := [lit "Cafes"; lit "Bakeries"] |}] |} <> [].
Proof.
  assert (E : fst (Main.generate_interests (H := example_runtime) true
                     (example_services food_answer VNone) [lit "Food"]
                     example_place (lit "sk-test") fresh_world)
              = Return {| Main.interests :=
                            [{| Main.main_interest := lit "Food";
                                Main.sub_interests := [lit "Cafes"; lit "Bakeries"] |}] |})
    by (vm_compute; reflexivity).
  split; [exact E|].
  exact (proj1 (@returned_interests_nonempty example_runtime true
                  (example_services food_answer VNone) [lit "Food"]
                  example_place (lit "sk-test") fresh_world) _ E).
Defined.

(** C1, as stated, fails: an answer whose one interest has an empty
    list of sub-interests is returned as it is, by both shells and for
    both pydantic versions. *)
Definition bare_answer : str :=
  jlit "{'interests': [{'main_interest': 'Food', 'sub_interests': []}]}".

Lemma empty_sub_interests_returned :
  (forall v2,
     fst (Main.generate_interests (H := example_runtime) v2
            (example_services bare_answer VNone) [lit "Food"]
            example_place (lit "sk-test") fresh_world)
     = Return {| Main.interests :=
                   [{| Main.main_interest := lit "Food";
                       Main.sub_interests := [] |}] |})
  /\ (forall v2,
        fst (App.generate_interests (H := example_runtime) v2
               (example_services bare_answer VNone) [lit "Food"]
               example_place (lit "sk-test") fresh_world)
        = Return {| App.interests :=
                      [{| App.main_interest := lit "Food";
                          App.sub_interests := [] |}] |}).
Proof. split; intros []; vm_compute; reflexivity. Qed.

(** * The answer is written and read again

    [generate_interests] reads the model's text with [json.loads],
    writes the value with [json.dumps] and has pydantic read that text
    again.  The lemmas below show that the second reading gives back
    the value of the first, for the reader of pydantic 1 always and
    for the reader of pydantic 2 when no string holds a surrogate. *)

(** A Unicode scalar value: a code point that is no surrogate. *)
Definition scalar (c : char) : bool :=
  ((c <? 55296) || ((57343 <? c) && (c <? 1114112)))%N.

Lemma hexval_hexchar (d : N) : (d < 16)%N -> hexval (hexchar d) = Some d.
Proof.
  intros L.
  assert (C : (d = 0 \/ d = 1 \/ d = 2 \/ d = 3 \/ d = 4 \/ d = 5 \/ d = 6
               \/ d = 7 \/ d = 8 \/ d = 9 \/ d = 10 \/ d = 11 \/ d = 12
               \/ d = 13 \/ d = 14 \/ d = 15)%N) by lia.
  repeat (destruct C as [->|C]; [reflexivity|]). now subst.
Qed.

Lemma hex4_hex4_of (n : N) a b c d :
  (n < 65536)%N -> hex4_of n = [a; b; c; d] -> hex4 a b c d = Some n.
Proof.
  intros L [= <- <- <- <-]. unfold hex4.
  rewrite !hexval_hexchar;
    try (apply N.mod_upper_bound; discriminate).
  - f_equal.
    pose proof (N.div_mod n 16). pose proof (N.div_mod (n / 16) 16).
    pose proof (N.div_mod (n / 256) 16).
    replace (n / 256)%N with (n / 16 / 16)%N in * by (rewrite N.Div0.div_div; reflexivity).
    replace (n / 4096)%N with (n / 16 / 16 / 16)%N
      by (rewrite !N.Div0.div_div; reflexivity).
    lia.
  - apply N.Div0.div_lt_upper_bound. lia.
Qed.

Lemma scanstring_eq (strict : bool) (s : str) :
  scanstring strict s =
  let keep c t :=
    match scanstring strict t with
    | Some (r, rest) => Some (c :: r, rest)
    | None => None
    end in
  match s with
  | [] => None
  | c :: t =>
      if (c =? 34)%N then Some ([], t)
      else if (c =? 92)%N then
        match t with
        | [] => None
        | e :: t1 =>
            if (e =? 117)%N then
              match t1 with
              | h1 :: h2 :: h3 :: h4 :: t2 =>
                  match hex4 h1 h2 h3 h4 with
                  | None => None
                  | Some u =>
                      let lone := if strict then None else keep u t2 in
                      if is_high_surrogate u then
                        match t2 with
                        | b :: l :: g1 :: g2 :: g3 :: g4 :: t3 =>
                            if ((b =? 92) && (l =? 117))%N then
                              match hex4 g1 g2 g3 g4 with
                              | None => None
                              | Some u2 =>
                                  if is_low_surrogate u2
                                  then keep (join_surrogates u u2) t3
                                  else lone
                              end
                            else lone
                        | _ => lone
                        end
                      else if is_low_surrogate u then lone
                      else keep u t2
                  end
              | _ => None
              end
            else
              match simple_escape e with
              | Some c' => keep c' t1
              | None => None
              end
        end
      else if (c <? 32)%N then None
      else keep c t
  end.
Proof. destruct s; reflexivity. Qed.

Definition kept (strict : bool) (c : char) (s : str) : option (str * str) :=
  match scanstring strict s with
  | Some (r, rest) => Some (c :: r, rest)
  | None => None
  end.

Lemma scan_short_escape (strict : bool) (e c : char) (s : str) :
  (e =? 117)%N = false -> simple_escape e = Some c ->
  scanstring strict (92%N :: e :: s) = kept strict c s.
Proof.
  intros U E. rewrite scanstring_eq. cbv zeta. cbn [N.eqb Pos.eqb].
  now rewrite U, E.
Qed.

Lemma scan_u_escape_scalar (strict : bool) (c : char) (s : str) :
  (c < 65536)%N -> is_surrogate c = false ->
  scanstring strict (u_escape c ++ s) = kept strict c s.
Proof.
  intros L S. unfold u_escape.
  destruct (hex4_of c) as [|h1 [|h2 [|h3 [|h4 [|]]]]] eqn:E; try discriminate.
  change ((92 :: 117 :: [h1; h2; h3; h4])%N ++ s)
    with (92 :: 117 :: h1 :: h2 :: h3 :: h4 :: s)%N.
  rewrite scanstring_eq. cbv zeta. cbn [N.eqb Pos.eqb].
  rewrite (@hex4_hex4_of c h1 h2 h3 h4 L E).
  unfold is_surrogate, is_high_surrogate, is_low_surrogate in *.
  destruct (55296 <=? c)%N eqn:A; cbn [andb] in *.
  - destruct (c <=? 57343)%N eqn:B; [discriminate|].
    assert ((c <=? 56319)%N = false) as ->.
    { apply N.leb_gt. apply N.leb_gt in B. lia. }
    rewrite andb_false_r. reflexivity.
  - assert ((56320 <=? c)%N = false) as ->.
    { apply N.leb_gt. apply N.leb_gt in A. lia. }
    reflexivity.
Qed.

Lemma scan_u_escape_pair (strict : bool) (c : char) (s : str) :
  (65536 <= c)%N -> (c < 1114112)%N ->
  scanstring strict
    (u_escape (55296 + (c - 65536) / 1024)
     ++ u_escape (56320 + (c - 65536) mod 1024) ++ s)
  = kept strict c s.
Proof.
  intros L U.
  assert (Q : ((c - 65536) / 1024 < 1024)%N)
    by (apply N.Div0.div_lt_upper_bound; lia).
  assert (R : ((c - 65536) mod 1024 < 1024)%N)
    by (apply N.mod_upper_bound; discriminate).
  pose proof (N.div_mod (c - 65536) 1024 ltac:(discriminate)) as DM.
  set (q := ((c - 65536) / 1024)%N) in *.
  set (r := ((c - 65536) mod 1024)%N) in *.
  clearbody q r.
  assert (Hhi : (55296 + q < 65536)%N) by lia.
  assert (Hlo : (56320 + r < 65536)%N) by lia.
  unfold u_escape.
  destruct (hex4_of (55296 + q)) as [|h1 [|h2 [|h3 [|h4 [|]]]]] eqn:E;
    try discriminate.
  destruct (hex4_of (56320 + r)) as [|g1 [|g2 [|g3 [|g4 [|]]]]] eqn:F;
    try discriminate.
  change ((92 :: 117 :: [h1; h2; h3; h4])%N
          ++ (92 :: 117 :: [g1; g2; g3; g4])%N ++ s)
    with (92 :: 117 :: h1 :: h2 :: h3 :: h4
          :: 92 :: 117 :: g1 :: g2 :: g3 :: g4 :: s)%N.
  rewrite scanstring_eq. cbv zeta. cbn [N.eqb Pos.eqb andb].
  rewrite (@hex4_hex4_of _ h1 h2 h3 h4 Hhi E).
  rewrite (@hex4_hex4_of _ g1 g2 g3 g4 Hlo F).
  assert (is_high_surrogate (55296 + q) = true) as ->.
  { unfold is_high_surrogate. apply andb_true_intro.
    split; apply N.leb_le; lia. }
  assert (is_low_surrogate (56320 + r) = true) as ->.
  { unfold is_low_surrogate. apply andb_true_intro.
    split; apply N.leb_le; lia. }
  assert (join_surrogates (55296 + q) (56320 + r) = c) as ->.
  { unfold join_surrogates. lia. }
  reflexivity.
Qed.

Lemma scan_escape_char (strict : bool) (c : char) (s : str) :
  scalar c = true ->
  scanstring strict (escape_char c ++ s) = kept strict c s.
Proof.
  intros S. unfold escape_char.
  destruct (c =? 34)%N eqn:E1;
    [apply N.eqb_eq in E1; subst; now apply scan_short_escape|].
  destruct (c =? 92)%N eqn:E2;
    [apply N.eqb_eq in E2; subst; now apply scan_short_escape|].
  destruct (c =? 10)%N eqn:E3;
    [apply N.eqb_eq in E3; subst; now apply scan_short_escape|].
  destruct (c =? 13)%N eqn:E4;
    [apply N.eqb_eq in E4; subst; now apply scan_short_escape|].
  destruct (c =? 9)%N eqn:E5;
    [apply N.eqb_eq in E5; subst; now apply scan_short_escape|].
  destruct (c =? 8)%N eqn:E6;
    [apply N.eqb_eq in E6; subst; now apply scan_short_escape|].
  destruct (c =? 12)%N eqn:E7;
    [apply N.eqb_eq in E7; subst; now apply scan_short_escape|].
  destruct ((32 <=? c) && (c <=? 126))%N eqn:P.
  - apply andb_prop in P as [P1 P2]. apply N.leb_le in P1.
    change ([c] ++ s) with (c :: s).
    rewrite scanstring_eq. cbv beta iota zeta. rewrite E1, E2.
    assert ((c <? 32)%N = false) as -> by (apply N.ltb_ge; lia).
    reflexivity.
  - unfold scalar in S.
    destruct (c <? 65536)%N eqn:L.
    + apply N.ltb_lt in L. apply scan_u_escape_scalar; [exact L|].
      unfold is_surrogate.
      destruct (c <? 55296)%N eqn:A.
      * apply N.ltb_lt in A.
        assert ((55296 <=? c)%N = false) as -> by (apply N.leb_gt; lia).
        reflexivity.
      * cbn [orb] in S. apply andb_prop in S as [S1 S2].
        apply N.ltb_lt in S1.
        assert ((c <=? 57343)%N = false) as -> by (apply N.leb_gt; lia).
        apply andb_false_r.
    + apply N.ltb_ge in L.
      rewrite <- app_assoc. apply scan_u_escape_pair; [exact L|].
      destruct (c <? 55296)%N eqn:A; [apply N.ltb_lt in A; lia|].
      cbn [orb] in S. apply andb_prop in S as [_ S2]. now apply N.ltb_lt in S2.
Qed.

Lemma scan_encoded (strict : bool) (s rest : str) :
  forallb scalar s = true ->
  scanstring strict (flat_map escape_char s ++ 34%N :: rest) = Some (s, rest).
Proof.
  induction s as [|c s IH]; intros F.
  - reflexivity.
  - simpl in F. apply andb_prop in F as [F1 F2].
    cbn [flat_map]. rewrite <- app_assoc, scan_escape_char by exact F1.
    unfold kept. now rewrite IH.
Qed.


(** ** Number tokens *)

Definition nondigit_head (x : str) : bool :=
  match x with
  | [] => true
  | c :: _ => negb (is_digit c)
  end.

(** What may follow a number token without changing it. *)
Definition stops (x : str) : bool :=
  match x with
  | [] => true
  | c :: _ => negb (is_digit c || (c =? 46) || (c =? 101) || (c =? 69))%N
  end.

Definition sign_text (neg : bool) : str := if neg then [45%N] else [].

Definition int_shape (ip : str) : Prop :=
  ip = [48%N]
  \/ exists c ds, ip = c :: ds /\ is_digit c = true /\ (c =? 48)%N = false
                  /\ forallb is_digit ds = true.

Definition frac_shape (f : str) : Prop :=
  f = []
  \/ exists d ds, f = 46%N :: d :: ds /\ is_digit d = true
                  /\ forallb is_digit ds = true.

Definition exp_shape (e : str) : Prop :=
  e = []
  \/ exists c sign d ds,
       e = c :: sign ++ d :: ds
       /\ ((c =? 101) || (c =? 69))%N = true
       /\ (sign = [] \/ sign = [43%N] \/ sign = [45%N])
       /\ is_digit d = true /\ forallb is_digit ds = true.

Lemma span_digits_inv (s ds r : str) :
  span_digits s = (ds, r) ->
  s = ds ++ r /\ forallb is_digit ds = true /\ nondigit_head r = true.
Proof.
  revert ds r; induction s as [|c s IH]; intros ds r; simpl.
  - intros [= <- <-]. auto.
  - destruct (is_digit c) eqn:D.
    + destruct (span_digits s) as [ds' r'] eqn:E. intros [= <- <-].
      destruct (IH _ _ eq_refl) as (-> & F & N). simpl. rewrite D. auto.
    + intros [= <- <-]. simpl. rewrite D. auto.
Qed.

Lemma span_digits_app (ds x : str) :
  forallb is_digit ds = true -> nondigit_head x = true ->
  span_digits (ds ++ x) = (ds, x).
Proof.
  intros F N. induction ds as [|c ds IH]; simpl.
  - destruct x as [|c x]; [reflexivity|]. simpl in N.
    simpl. now destruct (is_digit c).
  - simpl in F. apply andb_prop in F as [F1 F2]. now rewrite F1, IH.
Qed.

Lemma scan_int_inv (s ip r : str) :
  scan_int s = Some (ip, r) -> s = ip ++ r /\ int_shape ip.
Proof.
  unfold scan_int. destruct s as [|c t]; [discriminate|].
  destruct (c =? 48)%N eqn:Z.
  - intros [= <- <-]. apply N.eqb_eq in Z. subst. split; [reflexivity|now left].
  - destruct (is_digit c) eqn:D; [|discriminate].
    destruct (span_digits t) as [ds rest] eqn:E. intros [= <- <-].
    apply span_digits_inv in E as (-> & F & _).
    split; [reflexivity|]. right. now exists c, ds.
Qed.

Lemma scan_int_shape (ip x : str) :
  int_shape ip -> nondigit_head x = true -> scan_int (ip ++ x) = Some (ip, x).
Proof.
  intros [->|(c & ds & -> & D & Z & F)] N; [reflexivity|].
  unfold scan_int. cbn [List.app]. now rewrite Z, D, span_digits_app.
Qed.

Lemma scan_frac_inv (s f r : str) :
  scan_frac s = (f, r) -> s = f ++ r /\ frac_shape f.
Proof.
  unfold scan_frac.
  destruct s as [|p [|d t]]; try (intros [= <- <-]; split; [reflexivity|now left]).
  destruct ((p =? 46)%N && is_digit d) eqn:C;
    [|intros [= <- <-]; split; [reflexivity|now left]].
  apply andb_prop in C as [C1 C2]. apply N.eqb_eq in C1. subst p.
  destruct (span_digits t) as [ds rest] eqn:E. intros [= <- <-].
  apply span_digits_inv in E as (-> & F & _).
  split; [reflexivity|]. right. now exists d, ds.
Qed.

Definition no_point (x : str) : bool :=
  match x with
  | [] => true
  | c :: _ => negb (is_digit c || (c =? 46))%N
  end.

Lemma no_point_nondigit (x : str) : no_point x = true -> nondigit_head x = true.
Proof.
  destruct x as [|c x]; [reflexivity|]. simpl.
  now destruct (is_digit c).
Qed.

Lemma scan_frac_shape (f x : str) :
  frac_shape f -> no_point x = true -> scan_frac (f ++ x) = (f, x).
Proof.
  intros [->|(d & ds & -> & D & F)] N.
  - cbn [List.app]. unfold scan_frac. destruct x as [|p [|d t]]; try reflexivity.
    simpl in N. destruct (p =? 46)%N; [|reflexivity].
    now rewrite orb_true_r in N.
  - unfold scan_frac. cbn [List.app]. rewrite D. cbn.
    now rewrite span_digits_app by auto using no_point_nondigit.
Qed.

Lemma scan_exp_inv (s e r : str) :
  scan_exp s = (e, r) -> s = e ++ r /\ exp_shape e.
Proof.
  unfold scan_exp.
  destruct s as [|c t]; [intros [= <- <-]; split; [reflexivity|now left]|].
  destruct ((c =? 101) || (c =? 69))%N eqn:C;
    [|intros [= <- <-]; split; [reflexivity|now left]].
  assert (G : forall sign t',
             (sign = [] \/ sign = [43%N] \/ sign = [45%N]) -> t = sign ++ t' ->
             (let (ds, rest) := span_digits t' in
              match ds with
              | [] => ([], c :: t)
              | _ :: _ => (c :: sign ++ ds, rest)
              end) = (e, r) ->
             c :: t = e ++ r /\ exp_shape e).
  { intros sign t' S -> . destruct (span_digits t') as [ds rest] eqn:E.
    apply span_digits_inv in E as (-> & F & _).
    destruct ds as [|d ds]; intros [= <- <-].
    - split; [reflexivity|now left].
    - simpl in F. apply andb_prop in F as [F1 F2]. split.
      + cbn [List.app]. now rewrite <- !app_assoc.
      + right. now exists c, sign, d, ds. }
  destruct t as [|g t2]; [apply (G [] []); auto|].
  destruct ((g =? 43) || (g =? 45))%N eqn:S.
  - apply (G [g] t2); [|reflexivity].
    apply orb_prop in S as [S|S]; apply N.eqb_eq in S; subst; auto.
  - apply (G [] (g :: t2)); auto.
Qed.

Lemma scan_exp_shape (e x : str) :
  exp_shape e -> stops x = true -> scan_exp (e ++ x) = (e, x).
Proof.
  intros [->|(c & sign & d & ds & -> & C & S & D & F)] N.
  - cbn [List.app]. unfold scan_exp. destruct x as [|c t]; [reflexivity|].
    simpl in N. destruct ((c =? 101) || (c =? 69))%N eqn:C; [|reflexivity].
    rewrite <- orb_assoc, C, orb_true_r in N. discriminate.
  - assert (N' : nondigit_head x = true).
    { destruct x as [|y x]; [reflexivity|]. simpl in *.
      destruct (is_digit y); [discriminate|reflexivity]. }
    assert (P : span_digits ((d :: ds) ++ x) = (d :: ds, x)).
    { apply span_digits_app; [|exact N']. simpl. now rewrite D, F. }
    unfold scan_exp. cbn [List.app]. rewrite C.
    destruct S as [->|[->| ->]]; cbn [List.app].
    + assert (((d =? 43) || (d =? 45))%N = false) as ->.
      { unfold is_digit in D. apply andb_prop in D as [D1 D2].
        apply N.leb_le in D1.
        apply orb_false_intro; apply N.eqb_neq; lia. }
      change (d :: ds ++ x) with ((d :: ds) ++ x). now rewrite P.
    + cbn [N.eqb Pos.eqb orb].
      change (d :: ds ++ x) with ((d :: ds) ++ x). now rewrite P.
    + cbn [N.eqb Pos.eqb orb].
      change (d :: ds ++ x) with ((d :: ds) ++ x). now rewrite P.
Qed.

Lemma stops_no_point (x : str) : stops x = true -> no_point x = true.
Proof.
  destruct x as [|c x]; [reflexivity|]. simpl.
  destruct (is_digit c); [discriminate|]. now destruct (c =? 46)%N.
Qed.

Lemma exp_stops_no_point (e x : str) :
  exp_shape e -> stops x = true -> no_point (e ++ x) = true.
Proof.
  intros [->|(c & sign & d & ds & -> & C & _)] N.
  - now apply stops_no_point.
  - simpl. apply orb_prop in C as [C|C]; apply N.eqb_eq in C; subst; reflexivity.
Qed.

Lemma frac_exp_nondigit (f e x : str) :
  frac_shape f -> exp_shape e -> stops x = true ->
  nondigit_head (f ++ e ++ x) = true.
Proof.
  intros [->|(d & ds & -> & _)] E N; [|reflexivity].
  cbn [List.app]. apply no_point_nondigit. now apply exp_stops_no_point.
Qed.

Lemma scan_number_shape (neg : bool) (ip f e x : str) :
  int_shape ip -> frac_shape f -> exp_shape e -> stops x = true ->
  scan_number (sign_text neg ++ ip ++ f ++ e ++ x) = Some (neg, ip, f ++ e, x).
Proof.
  intros I F E N. unfold scan_number.
  assert (S : scan_sign (sign_text neg ++ ip ++ f ++ e ++ x)
              = (neg, ip ++ f ++ e ++ x)).
  { destruct neg; [reflexivity|]. cbn [sign_text List.app]. unfold scan_sign.
    destruct I as [->|(c & ds & -> & D & _)]; [reflexivity|].
    cbn [List.app].
    assert ((c =? 45)%N = false) as ->; [|reflexivity].
    unfold is_digit in D. apply andb_prop in D as [D1 D2].
    apply N.leb_le in D1. apply N.eqb_neq. lia. }
  rewrite S, scan_int_shape by auto using frac_exp_nondigit.
  rewrite scan_frac_shape by auto using exp_stops_no_point.
  now rewrite scan_exp_shape.
Qed.

Lemma scan_number_inv (s : str) (neg : bool) (ip fe r : str) :
  scan_number s = Some (neg, ip, fe, r) ->
  exists f e, fe = f ++ e /\ int_shape ip /\ frac_shape f /\ exp_shape e
              /\ s = sign_text neg ++ ip ++ f ++ e ++ r.
Proof.
  unfold scan_number.
  destruct (scan_sign s) as [n s1] eqn:S.
  destruct (scan_int s1) as [[ip' r1]|] eqn:I; [|discriminate].
  destruct (scan_frac r1) as [f r2] eqn:F.
  destruct (scan_exp r2) as [e r3] eqn:E.
  intros [= <- <- <- <-].
  apply scan_int_inv in I as (-> & I).
  apply scan_frac_inv in F as (-> & F).
  apply scan_exp_inv in E as (-> & E).
  exists f, e. repeat split; auto.
  unfold scan_sign in S. destruct s as [|c t].
  - injection S as <- <-. reflexivity.
  - destruct (c =? 45)%N eqn:C; injection S as <- <-; [|reflexivity].
    apply N.eqb_eq in C. now subst.
Qed.

Lemma scan_number_restrict (s : str) (neg : bool) (ip fe r : str) :
  scan_number s = Some (neg, ip, fe, r) ->
  scan_number (sign_text neg ++ ip ++ fe) = Some (neg, ip, fe, []).
Proof.
  intros E. apply scan_number_inv in E as (f & e & -> & I & F & X & _).
  pose proof (@scan_number_shape neg ip f e [] I F X eq_refl) as P.
  now rewrite app_nil_r in P.
Qed.

Lemma scan_number_extend (s : str) (neg : bool) (ip fe x : str) :
  scan_number s = Some (neg, ip, fe, []) -> stops x = true ->
  scan_number (s ++ x) = Some (neg, ip, fe, x)
  /\ s = sign_text neg ++ ip ++ fe.
Proof.
  intros E N. apply scan_number_inv in E as (f & e & -> & I & F & X & ->).
  rewrite !app_nil_r. split; [|reflexivity].
  rewrite <- !app_assoc. now apply scan_number_shape.
Qed.

(** ** Integers *)

Lemma digits_of_uint_digits (u : uint) : forallb is_digit (digits_of_uint u) = true.
Proof. induction u; simpl; auto. Qed.

Lemma uint_of_digits_of_uint (u : uint) : uint_of_digits (digits_of_uint u) = u.
Proof. induction u; simpl; try rewrite IHu; reflexivity. Qed.

Lemma to_uint_normal (n : N) : unorm (N.to_uint n) = N.to_uint n.
Proof.
  rewrite <- (DecimalN.Unsigned.to_of (N.to_uint n)).
  now rewrite DecimalN.Unsigned.of_to.
Qed.

Lemma str_of_N_shape (n : N) : int_shape (str_of_N n).
Proof.
  unfold str_of_N. pose proof (to_uint_normal n) as U.
  set (u := N.to_uint n) in *. clearbody u. unfold unorm in U.
  destruct (nzhead u) eqn:Z; subst u;
    try (now left);
    try (right; eexists; eexists; split; [reflexivity|];
         repeat split; auto using digits_of_uint_digits).
  now apply DecimalFacts.nzhead_nonzero in Z.
Qed.

Lemma str_of_N_value (n : N) : N.of_uint (uint_of_digits (str_of_N n)) = n.
Proof.
  unfold str_of_N. rewrite uint_of_digits_of_uint.
  apply DecimalN.Unsigned.of_to.
Qed.

Definition is_negative (z : Z) : bool :=
  match z with
  | Zneg _ => true
  | _ => false
  end.

Lemma str_of_Z_text (z : Z) :
  str_of_Z z = sign_text (is_negative z) ++ str_of_N (Z.abs_N z).
Proof. destruct z; reflexivity. Qed.

Lemma signed_abs (z : Z) : signed (is_negative z) (Z.abs_N z) = z.
Proof. destruct z; reflexivity. Qed.

(** ** Where a value starts *)

Definition starts_number (s : str) : bool :=
  match s with
  | c :: t =>
      is_digit c
      || ((c =? 45)%N && match t with d :: _ => is_digit d | [] => false end)
  | [] => false
  end.

Lemma number_text_starts (neg : bool) (ip x : str) :
  int_shape ip -> starts_number (sign_text neg ++ ip ++ x) = true.
Proof.
  intros I. assert (D : exists c t, ip = c :: t /\ is_digit c = true).
  { destruct I as [->|(c & ds & -> & D & _)]; eauto. }
  destruct D as (c & t & -> & D).
  destruct neg; cbn [sign_text List.app starts_number]; rewrite D;
    [cbn|]; reflexivity.
Qed.

Section ReaderFacts.
Context `{Runtime}.
Variable strict : bool.

Lemma constant_or_number_number (s : str) :
  starts_number s = true -> constant_or_number s = number_token s.
Proof.
  destruct s as [|c t]; [discriminate|]. unfold starts_number.
  intros S. unfold constant_or_number.
  assert (A : forall k w, (k <> 45)%N -> (k < 48 \/ 57 < k)%N ->
                strip_prefix (k :: w) (c :: t) = None).
  { intros k w K1 K2. cbn [strip_prefix].
    destruct (N.eqb_spec k c) as [->|]; [|reflexivity].
    exfalso. apply orb_prop in S as [S|S].
    - unfold is_digit in S. apply andb_prop in S as [S1 S2].
      apply N.leb_le in S1, S2. lia.
    - apply andb_prop in S as [S _]. apply N.eqb_eq in S. congruence. }
  change (lit "null") with (110 :: lit "ull")%N.
  change (lit "true") with (116 :: lit "rue")%N.
  change (lit "false") with (102 :: lit "alse")%N.
  change (lit "NaN") with (78 :: lit "aN")%N.
  change (lit "Infinity") with (73 :: lit "nfinity")%N.
  rewrite !A by lia.
  assert (strip_prefix (lit "-Infinity") (c :: t) = None) as ->; [|reflexivity].
  change (lit "-Infinity") with (45 :: 73 :: lit "nfinity")%N.
  cbn [strip_prefix]. destruct (N.eqb_spec 45 c) as [<-|]; [|reflexivity].
  destruct t as [|d t]; [reflexivity|].
  destruct (N.eqb_spec 73 d) as [<-|]; [|reflexivity].
  now cbn in S.
Qed.

Lemma parse_value_number (fuel : nat) (s : str) :
  starts_number s = true ->
  parse_value strict (S fuel) s = number_token s.
Proof.
  intros S. rewrite <- constant_or_number_number by exact S.
  destruct s as [|c t]; [discriminate|]. cbn [parse_value].
  assert (A : forall k, (k <> 45)%N -> (k < 48 \/ 57 < k)%N -> (c =? k)%N = false).
  { intros k K1 K2. apply N.eqb_neq. intros ->. unfold starts_number in S.
    apply orb_prop in S as [S|S].
    - unfold is_digit in S. apply andb_prop in S as [S1 S2].
      apply N.leb_le in S1, S2. lia.
    - apply andb_prop in S as [S _]. apply N.eqb_eq in S. congruence. }
  now rewrite !A by lia.
Qed.

Lemma parse_int (fuel : nat) (z : Z) (x : str) :
  stops x = true ->
  parse_value strict (S fuel) (str_of_Z z ++ x) = Parsed (VInt z) x.
Proof.
  intros N. rewrite str_of_Z_text, <- app_assoc.
  rewrite parse_value_number by apply number_text_starts, str_of_N_shape.
  unfold number_token.
  pose proof (@scan_number_shape (is_negative z) (str_of_N (Z.abs_N z)) [] [] x
                (str_of_N_shape _) (or_introl eq_refl) (or_introl eq_refl) N) as P.
  cbn [List.app] in P. rewrite P. now rewrite str_of_N_value, signed_abs.
Qed.

(** A float that [json.loads] can have built. *)
Definition canonical_float (r : str) : bool :=
  special_float r || (is_float_lexeme r && str_eqb (float_repr r) r).

Lemma parse_float (fuel : nat) (r x : str) :
  canonical_float r = true -> stops x = true ->
  parse_value strict (S fuel) (floatstr r ++ x) = Parsed (VFloat r) x.
Proof.
  intros C N. unfold floatstr.
  destruct (str_eqb r (lit "nan")) eqn:E1;
    [apply str_eqb_eq in E1; subst; reflexivity|].
  destruct (str_eqb r (lit "inf")) eqn:E2;
    [apply str_eqb_eq in E2; subst; reflexivity|].
  destruct (str_eqb r (lit "-inf")) eqn:E3;
    [apply str_eqb_eq in E3; subst; reflexivity|].
  unfold canonical_float, special_float in C. rewrite E1, E2, E3 in C.
  cbn [orb] in C. apply andb_prop in C as [L R]. apply str_eqb_eq in R.
  unfold is_float_lexeme in L.
  destruct (scan_number r) as [[[[neg ip] fe] [|]]|] eqn:S; try discriminate.
  destruct (@scan_number_extend r neg ip fe x S N) as (P & T).
  pose proof S as I. apply scan_number_inv in I as (f & e & _ & I & _).
  rewrite parse_value_number.
  - unfold number_token. rewrite P.
    destruct fe as [|c fe]; [discriminate|].
    change (if neg then [45%N] else []) with (sign_text neg).
    f_equal. f_equal. transitivity (float_repr r); [|exact R].
    f_equal. symmetry. exact T.
  - rewrite T, <- !app_assoc. now apply number_text_starts.
Qed.

End ReaderFacts.

(** ** Values that [json.loads] can have built *)

Lemma value_ind2 (P : value -> Prop) :
  P VNone -> (forall b, P (VBool b)) -> (forall z, P (VInt z)) ->
  (forall r, P (VFloat r)) -> (forall s, P (VStr s)) ->
  (forall items, Forall P items -> P (VList items)) ->
  (forall members, Forall (fun kv => P (snd kv)) members -> P (VDict members)) ->
  forall v, P v.
Proof.
  intros HN HB HI HF HS HL HD.
  fix IH 1. intros [| b | z | r | s | items | members].
  - exact HN.
  - apply HB.
  - apply HI.
  - apply HF.
  - apply HS.
  - apply HL. induction items as [|x items IHitems]; constructor;
      [apply IH | exact IHitems].
  - apply HD. induction members as [|[k x] members IHm]; constructor;
      [apply IH | exact IHm].
Qed.

Inductive well_formed `{Runtime} : value -> Prop :=
| wf_none : well_formed VNone
| wf_bool b : well_formed (VBool b)
| wf_int z : well_formed (VInt z)
| wf_float r : canonical_float r = true -> well_formed (VFloat r)
| wf_str s : well_formed (VStr s)
| wf_list items : Forall well_formed items -> well_formed (VList items)
| wf_dict members :
    NoDup (map fst members) ->
    Forall (fun kv => well_formed (snd kv)) members ->
    well_formed (VDict members).

(** Every string of the value, keys too, is made of scalar values. *)
Fixpoint scalar_strings (v : value) : bool :=
  match v with
  | VStr s => forallb scalar s
  | VList items => forallb scalar_strings items
  | VDict members =>
      forallb (fun kv => forallb scalar (fst kv) && scalar_strings (snd kv))
        members
  | _ => true
  end.

(** The first character of a value's text: no blank, no closing
    bracket or brace. *)
Definition value_start (s : str) : bool :=
  match s with
  | c :: _ => negb (is_ws c) && negb (c =? 93)%N && negb (c =? 125)%N
  | [] => false
  end.

Lemma starts_number_value_start (s : str) :
  starts_number s = true -> value_start s = true.
Proof.
  destruct s as [|c t]; [discriminate|]. unfold starts_number, value_start.
  intros S.
  assert (A : (48 <= c <= 57 \/ c = 45)%N).
  { apply orb_prop in S as [S|S].
    - unfold is_digit in S. apply andb_prop in S as [S1 S2].
      apply N.leb_le in S1, S2. lia.
    - apply andb_prop in S as [S _]. apply N.eqb_eq in S. auto. }
  unfold is_ws.
  repeat match goal with
         | |- context [(c =? ?k)%N] =>
             destruct (N.eqb_spec c k); [exfalso; lia|]
         end.
  reflexivity.
Qed.

Lemma value_start_app (a b : str) :
  value_start a = true -> value_start (a ++ b) = true.
Proof. destruct a; [discriminate|auto]. Qed.

Lemma value_start_skip_ws (s : str) :
  value_start s = true -> skip_ws s = s.
Proof.
  destruct s as [|c t]; [discriminate|]. simpl.
  destruct (is_ws c); [discriminate|reflexivity].
Qed.

Lemma json_dumps_list (items : list value) :
  json_dumps (VList items)
  = 91%N :: join [44; 32]%N (map json_dumps items) ++ [93%N].
Proof. reflexivity. Qed.

Definition member_text (kv : str * value) : str :=
  encode_str (fst kv) ++ [58; 32]%N ++ json_dumps (snd kv).

Lemma json_dumps_dict (members : list (str * value)) :
  json_dumps (VDict members)
  = 123%N :: join [44; 32]%N (map member_text members) ++ [125%N].
Proof. reflexivity. Qed.

Lemma json_dumps_start `{Runtime} [v : value] :
  well_formed v -> value_start (json_dumps v) = true.
Proof.
  intros [| [] | z | r C | s | items _ | members _ _]; try reflexivity.
  - cbn [json_dumps]. rewrite str_of_Z_text.
    rewrite <- (app_nil_r (str_of_N _)).
    apply starts_number_value_start, number_text_starts, str_of_N_shape.
  - cbn [json_dumps]. unfold floatstr.
    destruct (str_eqb r (lit "nan")) eqn:E1; [reflexivity|].
    destruct (str_eqb r (lit "inf")) eqn:E2; [reflexivity|].
    destruct (str_eqb r (lit "-inf")) eqn:E3; [reflexivity|].
    unfold canonical_float, special_float in C. rewrite E1, E2, E3 in C.
    cbn [orb] in C. apply andb_prop in C as [L _].
    unfold is_float_lexeme in L.
    destruct (scan_number r) as [[[[neg ip] fe] rest]|] eqn:S; [|discriminate].
    apply scan_number_inv in S as (f & e & _ & I & _ & _ & ->).
    apply starts_number_value_start. now apply number_text_starts.
Qed.

Definition delimited (x : str) : bool :=
  match x with
  | [] => true
  | c :: _ => ((c =? 44) || (c =? 93) || (c =? 125))%N
  end.

Lemma delimited_stops (x : str) : delimited x = true -> stops x = true.
Proof.
  destruct x as [|c x]; [reflexivity|]. unfold delimited, stops, is_digit.
  intros D.
  assert (A : (c = 44 \/ c = 93 \/ c = 125)%N).
  { apply orb_prop in D as [D|D]; [apply orb_prop in D as [D|D]|];
      apply N.eqb_eq in D; auto. }
  destruct A as [->|[->| ->]]; reflexivity.
Qed.

(** ** [dict_of_pairs] on distinct keys *)

Lemma dict_set_fresh (d : dict) (k : str) (v : value) :
  ~ In k (map fst d) -> dict_set d k v = d ++ [(k, v)].
Proof.
  induction d as [|[k' v'] d IH]; intros N; [reflexivity|].
  simpl in *. destruct (str_eqb k' k) eqn:E.
  - apply str_eqb_eq in E. tauto.
  - rewrite IH by tauto. reflexivity.
Qed.

Lemma dict_of_pairs_from (acc pairs : list (str * value)) :
  NoDup (map fst (acc ++ pairs)) ->
  fold_left (fun d kv => dict_set d (fst kv) (snd kv)) pairs acc = acc ++ pairs.
Proof.
  revert acc; induction pairs as [|[k v] pairs IH]; intros acc N.
  - now rewrite app_nil_r.
  - cbn [fold_left fst snd]. rewrite dict_set_fresh.
    + rewrite IH; rewrite <- app_assoc; [reflexivity|exact N].
    + rewrite map_app in N. cbn in N.
      apply NoDup_remove_2 in N. intros I. apply N, in_or_app. now left.
Qed.

Lemma dict_of_pairs_distinct (pairs : list (str * value)) :
  NoDup (map fst pairs) -> dict_of_pairs pairs = pairs.
Proof. intros N. unfold dict_of_pairs. now rewrite dict_of_pairs_from. Qed.

(** ** Reading back what [json.dumps] wrote *)

Section ReadBack.
Context `{Runtime}.
Variable strict : bool.

Definition reads_back (v : value) : Prop :=
  forall fuel rest,
    delimited rest = true ->
    2 * List.length (json_dumps v) + 2 <= fuel ->
    parse_value strict fuel (json_dumps v ++ rest) = Parsed v rest.

Lemma parse_elems_eq (n : nat) (s : str) :
  parse_elems strict (S n) s =
  match parse_value strict n s with
  | Parsed v r =>
      match skip_ws r with
      | c :: t =>
          if (c =? 93)%N then Parsed [v] t
          else if (c =? 44)%N then
            match parse_elems strict n (skip_ws t) with
            | Parsed vs rest => Parsed (v :: vs) rest
            | Invalid => Invalid
            | OutOfFuel => OutOfFuel
            end
          else Invalid
      | [] => Invalid
      end
  | Invalid => Invalid
  | OutOfFuel => OutOfFuel
  end.
Proof. reflexivity. Qed.

Lemma parse_members_eq (n : nat) (s : str) :
  parse_members strict (S n) s =
  match s with
  | [] => Invalid
  | q :: t =>
      if negb (q =? 34)%N then Invalid
      else
        match scanstring strict t with
        | None => Invalid
        | Some (k, r) =>
            match skip_ws r with
            | [] => Invalid
            | c :: t1 =>
                if negb (c =? 58)%N then Invalid
                else
                  match parse_value strict n (skip_ws t1) with
                  | Parsed v r2 =>
                      match skip_ws r2 with
                      | c2 :: t2 =>
                          if (c2 =? 125)%N then Parsed [(k, v)] t2
                          else if (c2 =? 44)%N then
                            match parse_members strict n (skip_ws t2) with
                            | Parsed kvs rest => Parsed ((k, v) :: kvs) rest
                            | Invalid => Invalid
                            | OutOfFuel => OutOfFuel
                            end
                          else Invalid
                      | [] => Invalid
                      end
                  | Invalid => Invalid
                  | OutOfFuel => OutOfFuel
                  end
            end
        end
  end.
Proof. reflexivity. Qed.

Lemma parse_elems_dumps (items : list value) :
  items <> [] ->
  Forall well_formed items ->
  Forall reads_back items ->
  forall fuel rest,
    2 * List.length (join [44; 32]%N (map json_dumps items)) + 3 <= fuel ->
    parse_elems strict fuel
      (join [44; 32]%N (map json_dumps items) ++ 93%N :: rest)
    = Parsed items rest.
Proof.
  induction items as [|x l IH]; [congruence|]. intros _ W R fuel rest F.
  inversion W as [|? ? Wx Wl]; subst. inversion R as [|? ? Rx Rl]; subst.
  destruct fuel as [|m]; [lia|]. rewrite parse_elems_eq.
  destruct l as [|y l'].
  - cbn [map join] in *. rewrite Rx by (auto; lia). reflexivity.
  - assert (J : join [44; 32]%N (map json_dumps (x :: y :: l'))
                = json_dumps x
                  ++ 44%N :: 32%N :: join [44; 32]%N (map json_dumps (y :: l')))
      by reflexivity.
    rewrite J in *. rewrite length_app in F. cbn [List.length] in F.
    rewrite <- app_assoc. cbn [List.app].
    rewrite Rx by (auto; lia). cbn [skip_ws is_ws N.eqb Pos.eqb orb].
    rewrite value_start_skip_ws.
    + rewrite IH; auto; [congruence|lia].
    + apply value_start_app. inversion Wl; subst.
      cbn [map]. destruct l'; cbn [join map];
        [|apply value_start_app]; now apply json_dumps_start.
Qed.

Lemma member_text_length (kv : str * value) :
  List.length (json_dumps (snd kv)) + 4 <= List.length (member_text kv).
Proof.
  unfold member_text, encode_str. cbn [List.length List.app].
  rewrite !length_app. cbn [List.length]. lia.
Qed.

Lemma parse_members_dumps (members : list (str * value)) :
  members <> [] ->
  Forall (fun kv => well_formed (snd kv)) members ->
  Forall (fun kv => forallb scalar (fst kv) = true) members ->
  Forall (fun kv => reads_back (snd kv)) members ->
  forall fuel rest,
    2 * List.length (join [44; 32]%N (map member_text members)) + 3 <= fuel ->
    parse_members strict fuel
      (join [44; 32]%N (map member_text members) ++ 125%N :: rest)
    = Parsed members rest.
Proof.
  induction members as [|[k x] l IH]; [congruence|]. intros _ W S R fuel rest F.
  inversion W as [|? ? Wx Wl]; subst. inversion S as [|? ? Sx Sl]; subst.
  inversion R as [|? ? Rx Rl]; subst. cbn [fst snd] in *.
  destruct fuel as [|m]; [lia|]. rewrite parse_members_eq.
  pose proof (member_text_length (k, x)) as ML. cbn [snd] in ML.
  assert (K : forall tail,
             member_text (k, x) ++ tail
             = 34%N :: flat_map escape_char k
               ++ 34%N :: 58%N :: 32%N :: json_dumps x ++ tail).
  { intros tail. unfold member_text, encode_str. cbn [fst snd List.app].
    now rewrite <- !app_assoc. }
  destruct l as [|y l'].
  - cbn [map join] in *. rewrite K. cbn [negb N.eqb Pos.eqb].
    rewrite scan_encoded by exact Sx.
    cbn [skip_ws is_ws N.eqb Pos.eqb orb negb].
    rewrite value_start_skip_ws
      by (apply value_start_app; now apply json_dumps_start).
    rewrite Rx by (auto; lia). reflexivity.
  - assert (J : join [44; 32]%N (map member_text ((k, x) :: y :: l'))
                = member_text (k, x)
                  ++ 44%N :: 32%N :: join [44; 32]%N (map member_text (y :: l')))
      by reflexivity.
    rewrite J in *. rewrite length_app in F. cbn [List.length] in F.
    rewrite <- app_assoc, K. cbn [List.app negb N.eqb Pos.eqb].
    rewrite scan_encoded by exact Sx.
    cbn [skip_ws is_ws N.eqb Pos.eqb orb negb].
    rewrite value_start_skip_ws
      by (apply value_start_app; now apply json_dumps_start).
    rewrite Rx by (auto; lia).
    cbn [skip_ws is_ws N.eqb Pos.eqb orb].
    assert (V : value_start
                  (join [44; 32]%N (map member_text (y :: l')) ++ 125%N :: rest)
                = true).
    { cbn [map]. destruct l'; reflexivity. }
    rewrite value_start_skip_ws by exact V.
    rewrite IH; auto; [congruence|lia].
Qed.

Lemma scalar_strings_members (members : list (str * value)) :
  scalar_strings (VDict members) = true ->
  Forall (fun kv => forallb scalar (fst kv) = true) members
  /\ Forall (fun kv => scalar_strings (snd kv) = true) members.
Proof.
  cbn [scalar_strings]. rewrite forallb_forall. intros A.
  split; apply Forall_forall; intros kv I; apply A in I;
    now apply andb_prop in I.
Qed.

Lemma parse_array_nonempty (n : nat) (s : str) :
  value_start s = true ->
  parse_value strict (S n) (91%N :: s) =
  match parse_elems strict n s with
  | Parsed items rest => Parsed (VList items) rest
  | Invalid => Invalid
  | OutOfFuel => OutOfFuel
  end.
Proof.
  intros V. change (parse_value strict (S n) (91%N :: s))
    with (match skip_ws s with
          | c' :: t' =>
              if (c' =? 93)%N then Parsed (VList []) t'
              else
                match parse_elems strict n (c' :: t') with
                | Parsed items rest => Parsed (VList items) rest
                | Invalid => Invalid
                | OutOfFuel => OutOfFuel
                end
          | [] => Invalid
          end).
  rewrite value_start_skip_ws by exact V.
  destruct s as [|c t]; [discriminate|]. cbn [value_start] in V.
  destruct (c =? 93)%N; [|reflexivity]. now rewrite andb_false_r in V.
Qed.

Lemma parse_object_nonempty (n : nat) (s : str) :
  value_start s = true ->
  parse_value strict (S n) (123%N :: s) =
  match parse_members strict n s with
  | Parsed pairs rest => Parsed (VDict (dict_of_pairs pairs)) rest
  | Invalid => Invalid
  | OutOfFuel => OutOfFuel
  end.
Proof.
  intros V. change (parse_value strict (S n) (123%N :: s))
    with (match skip_ws s with
          | c' :: t' =>
              if (c' =? 125)%N then Parsed (VDict []) t'
              else
                match parse_members strict n (c' :: t') with
                | Parsed pairs rest => Parsed (VDict (dict_of_pairs pairs)) rest
                | Invalid => Invalid
                | OutOfFuel => OutOfFuel
                end
          | [] => Invalid
          end).
  rewrite value_start_skip_ws by exact V.
  destruct s as [|c t]; [discriminate|]. cbn [value_start] in V.
  destruct (c =? 125)%N; [|reflexivity]. now rewrite andb_false_r in V.
Qed.

Lemma parse_string (n : nat) (s : str) :
  parse_value strict (S n) (34%N :: s) =
  match scanstring strict s with
  | Some (r, rest) => Parsed (VStr r) rest
  | None => Invalid
  end.
Proof. reflexivity. Qed.

Lemma join_dumps_start (x : value) (l : list value) (tail : str) :
  well_formed x ->
  value_start (join [44; 32]%N (map json_dumps (x :: l)) ++ tail) = true.
Proof.
  intros W. apply value_start_app. cbn [map].
  destruct l; cbn [join map]; [|apply value_start_app];
    now apply json_dumps_start.
Qed.

Theorem parse_dumps (v : value) :
  well_formed v -> scalar_strings v = true -> reads_back v.
Proof.
  induction v as [| b | z | r | s | items IH | members IH] using value_ind2;
    intros W S fuel rest D F.
  - destruct fuel; [lia|]. reflexivity.
  - destruct fuel; [lia|]. now destruct b.
  - destruct fuel; [lia|]. apply parse_int. now apply delimited_stops.
  - destruct fuel; [lia|]. inversion W; subst.
    apply parse_float; [assumption|now apply delimited_stops].
  - destruct fuel; [lia|]. cbn [json_dumps]. unfold encode_str.
    cbn [List.app]. rewrite parse_string, <- app_assoc.
    cbn [List.app]. now rewrite scan_encoded.
  - destruct fuel as [|m]; [lia|]. rewrite json_dumps_list in *.
    inversion W as [| | | | | ? Wi |]; subst.
    cbn [scalar_strings] in S.
    assert (R : Forall reads_back items).
    { apply Forall_forall. intros x I.
      rewrite Forall_forall in IH, Wi. rewrite forallb_forall in S. auto. }
    cbn [List.app]. rewrite <- app_assoc. cbn [List.app].
    destruct items as [|x l]; [reflexivity|].
    rewrite parse_array_nonempty
      by (inversion Wi; subst; now apply join_dumps_start).
    rewrite parse_elems_dumps; auto; [congruence|].
    cbn [List.length] in F. rewrite length_app in F. cbn [List.length] in F. lia.
  - destruct fuel as [|m]; [lia|]. rewrite json_dumps_dict in *.
    inversion W as [| | | | | | ? Nd Wi]; subst.
    destruct (scalar_strings_members members S) as (Sk & Sv).
    assert (R : Forall (fun kv => reads_back (snd kv)) members).
    { apply Forall_forall. intros x I.
      rewrite Forall_forall in IH, Wi, Sv. auto. }
    cbn [List.app]. rewrite <- app_assoc. cbn [List.app].
    destruct members as [|[k x] l]; [reflexivity|].
    rewrite parse_object_nonempty by (cbn [map]; destruct l; reflexivity).
    rewrite parse_members_dumps; auto; [|congruence|].
    + now rewrite dict_of_pairs_distinct.
    + cbn [List.length] in F. rewrite length_app in F. cbn [List.length] in F. lia.
Qed.

(** A whole document. *)
Theorem json_decode_dumps (v : value) :
  well_formed v -> scalar_strings v = true ->
  json_decode strict (json_dumps v) = Some v.
Proof.
  intros W S. unfold json_decode.
  rewrite value_start_skip_ws by now apply json_dumps_start.
  pose proof (@parse_dumps v W S (2 * List.length (json_dumps v) + 2) []
                eq_refl (Nat.le_refl _)) as P.
  rewrite app_nil_r in P. now rewrite P.
Qed.

End ReadBack.

(** ** What [json.loads] builds is well formed *)

Lemma dict_set_nodup (d : dict) (k : str) (v : value) :
  NoDup (map fst d) -> NoDup (map fst (dict_set d k v)).
Proof.
  induction d as [|[k' v'] d IH]; intros N; simpl.
  - constructor; [intros []|constructor].
  - destruct (str_eqb k' k) eqn:E; [exact N|].
    simpl in *. inversion N as [|? ? N1 N2]; subst. constructor; auto.
    intros I. apply N1. clear - I E.
    induction d as [|[k2 v2] d IH]; simpl in *.
    + destruct I as [<-|[]]. now rewrite str_eqb_refl in E.
    + destruct (str_eqb k2 k); simpl in I; tauto.
Qed.

Lemma dict_set_values (P : value -> Prop) (d : dict) (k : str) (v : value) :
  Forall (fun kv => P (snd kv)) d -> P v ->
  Forall (fun kv => P (snd kv)) (dict_set d k v).
Proof.
  induction d as [|[k' v'] d IH]; intros F Pv; simpl.
  - now repeat constructor.
  - inversion F; subst. destruct (str_eqb k' k); constructor; auto.
Qed.

Lemma dict_of_pairs_well_formed `{Runtime} (pairs : list (str * value)) :
  Forall (fun kv => well_formed (snd kv)) pairs ->
  well_formed (VDict (dict_of_pairs pairs)).
Proof.
  intros F. unfold dict_of_pairs.
  assert (G : forall acc,
             NoDup (map fst acc) -> Forall (fun kv => well_formed (snd kv)) acc ->
             let d := fold_left (fun d kv => dict_set d (fst kv) (snd kv)) pairs acc in
             NoDup (map fst d) /\ Forall (fun kv => well_formed (snd kv)) d).
  { induction F as [|[k v] l Fx Fl IH]; intros acc N A; [now split|].
    cbn [fold_left]. apply IH.
    - now apply dict_set_nodup.
    - now apply dict_set_values. }
  destruct (G [] (NoDup_nil _) (Forall_nil _)). now constructor.
Qed.

Section Built.
Context `{Runtime}.
Variable strict : bool.

Lemma parse_value_eq (n : nat) (s : str) :
  parse_value strict (S n) s =
  match s with
  | [] => Invalid
  | c :: t =>
      if (c =? 34)%N then
        match scanstring strict t with
        | Some (r, rest) => Parsed (VStr r) rest
        | None => Invalid
        end
      else if (c =? 123)%N then
        match skip_ws t with
        | c' :: t' =>
            if (c' =? 125)%N then Parsed (VDict []) t'
            else
              match parse_members strict n (c' :: t') with
              | Parsed pairs rest => Parsed (VDict (dict_of_pairs pairs)) rest
              | Invalid => Invalid
              | OutOfFuel => OutOfFuel
              end
        | [] => Invalid
        end
      else if (c =? 91)%N then
        match skip_ws t with
        | c' :: t' =>
            if (c' =? 93)%N then Parsed (VList []) t'
            else
              match parse_elems strict n (c' :: t') with
              | Parsed items rest => Parsed (VList items) rest
              | Invalid => Invalid
              | OutOfFuel => OutOfFuel
              end
        | [] => Invalid
        end
      else constant_or_number s
  end.
Proof. reflexivity. Qed.

Lemma float_lexeme_intro (s : str) (neg : bool) (ip : str) (c : char) (fe : str) :
  scan_number s = Some (neg, ip, c :: fe, []) -> is_float_lexeme s = true.
Proof. unfold is_float_lexeme. now intros ->. Qed.

Lemma number_token_well_formed (s : str) (v : value) (r : str) :
  number_token s = Parsed v r -> well_formed v.
Proof.
  unfold number_token.
  destruct (scan_number s) as [[[[neg ip] fe] rest]|] eqn:S; [|discriminate].
  destruct fe as [|c fe]; intros [= <- <-]; constructor.
  apply scan_number_restrict in S.
  unfold canonical_float.
  change (if neg then [45%N] else []) with (sign_text neg).
  apply float_repr_canonical. eapply float_lexeme_intro. exact S.
Qed.

Lemma constant_or_number_well_formed (s : str) (v : value) (r : str) :
  constant_or_number s = Parsed v r -> well_formed v.
Proof.
  unfold constant_or_number.
  repeat match goal with
         | |- context [strip_prefix ?p s] =>
             destruct (strip_prefix p s);
             [intros [= <- <-]; now constructor|]
         end.
  apply number_token_well_formed.
Qed.

Lemma parse_well_formed (fuel : nat) :
  (forall s v r, parse_value strict fuel s = Parsed v r -> well_formed v)
  /\ (forall s vs r, parse_elems strict fuel s = Parsed vs r ->
                     Forall well_formed vs)
  /\ (forall s kvs r, parse_members strict fuel s = Parsed kvs r ->
                      Forall (fun kv => well_formed (snd kv)) kvs).
Proof.
  induction fuel as [|n (IHv & IHe & IHm)]; [repeat split; discriminate|].
  repeat split.
  - intros s v r. rewrite parse_value_eq.
    destruct s as [|c t]; [discriminate|].
    destruct (c =? 34)%N.
    { destruct (scanstring strict t) as [[k rest]|]; [|discriminate].
      intros [= <- <-]. constructor. }
    destruct (c =? 123)%N.
    { destruct (skip_ws t) as [|c' t']; [discriminate|].
      destruct (c' =? 125)%N.
      - intros [= <- <-]. constructor; constructor.
      - destruct (parse_members strict n (c' :: t')) as [pairs rest| |] eqn:P;
          try discriminate.
        intros [= <- <-]. apply dict_of_pairs_well_formed. eapply IHm; eauto. }
    destruct (c =? 91)%N.
    { destruct (skip_ws t) as [|c' t']; [discriminate|].
      destruct (c' =? 93)%N.
      - intros [= <- <-]. constructor; constructor.
      - destruct (parse_elems strict n (c' :: t')) as [items rest| |] eqn:P;
          try discriminate.
        intros [= <- <-]. constructor. eapply IHe; eauto. }
    apply constant_or_number_well_formed.
  - intros s vs r. rewrite parse_elems_eq.
    destruct (parse_value strict n s) as [v r1| |] eqn:V; try discriminate.
    destruct (skip_ws r1) as [|c t]; [discriminate|].
    destruct (c =? 93)%N.
    { intros [= <- <-]. constructor; [eapply IHv; eauto|constructor]. }
    destruct (c =? 44)%N; [|discriminate].
    destruct (parse_elems strict n (skip_ws t)) as [vs' rest| |] eqn:E;
      try discriminate.
    intros [= <- <-]. constructor; [eapply IHv|eapply IHe]; eauto.
  - intros s kvs r. rewrite parse_members_eq.
    destruct s as [|q t]; [discriminate|].
    destruct (negb (q =? 34)%N); [discriminate|].
    destruct (scanstring strict t) as [[k r0]|]; [|discriminate].
    destruct (skip_ws r0) as [|c t1]; [discriminate|].
    destruct (negb (c =? 58)%N); [discriminate|].
    destruct (parse_value strict n (skip_ws t1)) as [v r2| |] eqn:V;
      try discriminate.
    destruct (skip_ws r2) as [|c2 t2]; [discriminate|].
    destruct (c2 =? 125)%N.
    { intros [= <- <-]. constructor; [eapply IHv; eauto|constructor]. }
    destruct (c2 =? 44)%N; [|discriminate].
    destruct (parse_members strict n (skip_ws t2)) as [kvs' rest| |] eqn:E;
      try discriminate.
    intros [= <- <-]. constructor; [eapply IHv|eapply IHm]; eauto.
Qed.

Lemma json_decode_well_formed (s : str) (v : value) :
  json_decode strict s = Some v -> well_formed v.
Proof.
  unfold json_decode.
  destruct (parse_value strict (2 * List.length s + 2) (skip_ws s))
    as [v' rest| |] eqn:P; try discriminate.
  destruct (skip_ws rest); [|discriminate]. intros [= <-].
  eapply (proj1 (parse_well_formed _)); eauto.
Qed.

End Built.

(** * The reader never runs out of fuel

    Each call of the reader leaves a text that is no longer than the
    one it was given, and each nested call is given a shorter text or
    one unit of fuel less for the same text; so twice the length of
    the document, and two, is fuel enough. *)

Lemma skip_ws_length (s : str) : List.length (skip_ws s) <= List.length s.
Proof.
  induction s as [|c t IH]; [reflexivity|].
  cbn [skip_ws]. destruct (is_ws c); cbn [List.length]; lia.
Qed.

Lemma strip_prefix_length (p s r : str) :
  strip_prefix p s = Some r -> List.length r <= List.length s.
Proof.
  intros E. apply strip_prefix_spec in E as ->. rewrite length_app. lia.
Qed.

Ltac scan_cases E IH :=
  repeat match type of E with
    | context [match scanstring ?b ?t with _ => _ end] =>
        let X := fresh "X" in
        destruct (scanstring b t) as [[? ?]|] eqn:X;
        [apply IH in X; [|cbn [List.length] in *; lia]|]
    | context [if ?c then _ else _] => destruct c
    | context [match ?x with _ => _ end] => destruct x
    end.

Lemma scanstring_length (strict : bool) (n : nat) :
  forall s r rest,
    List.length s <= n -> scanstring strict s = Some (r, rest) ->
    List.length rest < List.length s.
Proof.
  induction n as [|n IH]; intros s r rest L E.
  - destruct s; [discriminate|cbn [List.length] in L; lia].
  - destruct s as [|c t]; [discriminate|].
    rewrite scanstring_eq in E. cbv zeta in E. cbn [List.length] in L.
    scan_cases E IH; try discriminate;
      injection E as <- <-; cbn [List.length] in *; lia.
Qed.

Section Adequacy.
Context `{Runtime}.
Variable strict : bool.

Lemma number_token_length (s : str) (v : value) (r : str) :
  number_token s = Parsed v r -> List.length r <= List.length s.
Proof.
  unfold number_token.
  destruct (scan_number s) as [[[[neg ip] fe] rest]|] eqn:S; [|discriminate].
  apply scan_number_inv in S as (f & e & _ & _ & _ & _ & ->).
  intros E. assert (r = rest) as -> by (destruct fe; now injection E).
  rewrite !length_app. lia.
Qed.

Lemma constant_or_number_length (s : str) (v : value) (r : str) :
  constant_or_number s = Parsed v r -> List.length r <= List.length s.
Proof.
  unfold constant_or_number.
  repeat match goal with
    | |- context [strip_prefix ?p s] =>
        let P := fresh "P" in
        destruct (strip_prefix p s) eqn:P;
        [apply strip_prefix_length in P; now intros [= <- <-]|]
    end.
  apply number_token_length.
Qed.

(** What a call leaves is no longer than what it was given. *)
Lemma parse_length (fuel : nat) :
  (forall s v r,
     parse_value strict fuel s = Parsed v r -> List.length r <= List.length s)
  /\ (forall s vs r,
        parse_elems strict fuel s = Parsed vs r ->
        List.length r <= List.length s)
  /\ (forall s kvs r,
        parse_members strict fuel s = Parsed kvs r ->
        List.length r <= List.length s).
Proof.
  induction fuel as [|n (IHv & IHe & IHm)];
    [repeat split; intros; discriminate|].
  split; [|split].
  - intros s v r. rewrite parse_value_eq.
    destruct s as [|c t]; [discriminate|]. cbn [List.length].
    destruct (c =? 34)%N.
    { destruct (scanstring strict t) as [[x rest]|] eqn:X; [|discriminate].
      apply scanstring_length with (n := List.length t) in X; [|lia].
      intros [= _ <-]. lia. }
    destruct (c =? 123)%N.
    { pose proof (skip_ws_length t) as W.
      destruct (skip_ws t) as [|c' t']; [discriminate|].
      cbn [List.length] in W.
      destruct (c' =? 125)%N; [intros [= _ <-]; lia|].
      destruct (parse_members strict n (c' :: t')) as [kvs rest| |] eqn:M;
        try discriminate.
      apply IHm in M. cbn [List.length] in M. intros [= _ <-]. lia. }
    destruct (c =? 91)%N.
    { pose proof (skip_ws_length t) as W.
      destruct (skip_ws t) as [|c' t']; [discriminate|].
      cbn [List.length] in W.
      destruct (c' =? 93)%N; [intros [= _ <-]; lia|].
      destruct (parse_elems strict n (c' :: t')) as [vs rest| |] eqn:M;
        try discriminate.
      apply IHe in M. cbn [List.length] in M. intros [= _ <-]. lia. }
    intros E. apply constant_or_number_length in E. exact E.
  - intros s vs r. rewrite parse_elems_eq.
    destruct (parse_value strict n s) as [v r1| |] eqn:V; try discriminate.
    apply IHv in V. pose proof (skip_ws_length r1) as W.
    destruct (skip_ws r1) as [|c t]; [discriminate|].
    cbn [List.length] in W.
    destruct (c =? 93)%N; [intros [= _ <-]; lia|].
    destruct (c =? 44)%N; [|discriminate].
    pose proof (skip_ws_length t) as W2.
    destruct (parse_elems strict n (skip_ws t)) as [vs' rest| |] eqn:E;
      try discriminate.
    apply IHe in E. intros [= _ <-]. lia.
  - intros s kvs r. rewrite parse_members_eq.
    destruct s as [|q t]; [discriminate|]. cbn [List.length].
    destruct (negb (q =? 34)%N); [discriminate|].
    destruct (scanstring strict t) as [[k r0]|] eqn:X; [|discriminate].
    apply scanstring_length with (n := List.length t) in X; [|lia].
    pose proof (skip_ws_length r0) as W0.
    destruct (skip_ws r0) as [|c t1]; [discriminate|].
    cbn [List.length] in W0.
    destruct (negb (c =? 58)%N); [discriminate|].
    pose proof (skip_ws_length t1) as W1.
    destruct (parse_value strict n (skip_ws t1)) as [v r2| |] eqn:V;
      try discriminate.
    apply IHv in V. pose proof (skip_ws_length r2) as W2.
    destruct (skip_ws r2) as [|c2 t2]; [discriminate|].
    cbn [List.length] in W2.
    destruct (c2 =? 125)%N; [intros [= _ <-]; lia|].
    destruct (c2 =? 44)%N; [|discriminate].
    pose proof (skip_ws_length t2) as W3.
    destruct (parse_members strict n (skip_ws t2)) as [kvs' rest| |] eqn:M;
      try discriminate.
    apply IHm in M. intros [= _ <-]. lia.
Qed.

(** With fuel for twice its text, no call runs out. *)
Lemma parse_fuel (fuel : nat) :
  (forall s, 2 * List.length s + 1 <= fuel ->
             parse_value strict fuel s <> OutOfFuel)
  /\ (forall s, 2 * List.length s + 2 <= fuel ->
                parse_elems strict fuel s <> OutOfFuel)
  /\ (forall s, 2 * List.length s + 2 <= fuel ->
                parse_members strict fuel s <> OutOfFuel).
Proof.
  induction fuel as [|n (IHv & IHe & IHm)]; [repeat split; intros; lia|].
  split; [|split].
  - intros s F. rewrite parse_value_eq.
    destruct s as [|c t]; [discriminate|]. cbn [List.length] in F.
    destruct (c =? 34)%N.
    { destruct (scanstring strict t) as [[x rest]|]; discriminate. }
    destruct (c =? 123)%N.
    { pose proof (skip_ws_length t) as W.
      destruct (skip_ws t) as [|c' t']; [discriminate|].
      destruct (c' =? 125)%N; [discriminate|].
      destruct (parse_members strict n (c' :: t')) eqn:M;
        try discriminate.
      exfalso. apply (IHm (c' :: t')); [cbn [List.length] in *; lia|exact M]. }
    destruct (c =? 91)%N.
    { pose proof (skip_ws_length t) as W.
      destruct (skip_ws t) as [|c' t']; [discriminate|].
      destruct (c' =? 93)%N; [discriminate|].
      destruct (parse_elems strict n (c' :: t')) eqn:M;
        try discriminate.
      exfalso. apply (IHe (c' :: t')); [cbn [List.length] in *; lia|exact M]. }
    unfold constant_or_number, number_token.
    repeat match goal with
      | |- context [strip_prefix ?p ?x] =>
          destruct (strip_prefix p x); [discriminate|]
      end.
    destruct (scan_number (c :: t)) as [[[[neg ip] [|]] rest]|]; discriminate.
  - intros s F. rewrite parse_elems_eq.
    destruct (parse_value strict n s) as [v r1| |] eqn:V;
      [|discriminate|exfalso; apply (IHv s); [lia|exact V]].
    apply (proj1 (parse_length n)) in V.
    pose proof (skip_ws_length r1) as W.
    destruct (skip_ws r1) as [|c t]; [discriminate|].
    cbn [List.length] in W.
    destruct (c =? 93)%N; [discriminate|].
    destruct (c =? 44)%N; [|discriminate].
    pose proof (skip_ws_length t) as W2.
    destruct (parse_elems strict n (skip_ws t)) eqn:M; try discriminate.
    exfalso. apply (IHe (skip_ws t)); [lia|exact M].
  - intros s F. rewrite parse_members_eq.
    destruct s as [|q t]; [discriminate|]. cbn [List.length] in F.
    destruct (negb (q =? 34)%N); [discriminate|].
    destruct (scanstring strict t) as [[k r0]|] eqn:X; [|discriminate].
    apply scanstring_length with (n := List.length t) in X; [|lia].
    pose proof (skip_ws_length r0) as W0.
    destruct (skip_ws r0) as [|c t1]; [discriminate|].
    cbn [List.length] in W0.
    destruct (negb (c =? 58)%N); [discriminate|].
    pose proof (skip_ws_length t1) as W1.
    destruct (parse_value strict n (skip_ws t1)) as [v r2| |] eqn:V;
      [|discriminate|exfalso; apply (IHv (skip_ws t1)); [lia|exact V]].
    apply (proj1 (parse_length n)) in V.
    pose proof (skip_ws_length r2) as W2.
    destruct (skip_ws r2) as [|c2 t2]; [discriminate|].
    cbn [List.length] in W2.
    destruct (c2 =? 125)%N; [discriminate|].
    destruct (c2 =? 44)%N; [|discriminate].
    pose proof (skip_ws_length t2) as W3.
    destruct (parse_members strict n (skip_ws t2)) eqn:M; try discriminate.
    exfalso. apply (IHm (skip_ws t2)); [lia|exact M].
Qed.

Lemma parse_value_fuel (s : str) :
  parse_value strict (2 * List.length s + 2) (skip_ws s) <> OutOfFuel.
Proof.
  apply (proj1 (parse_fuel _)). pose proof (skip_ws_length s). lia.
Qed.

(** So a document is refused for what it says only: either no value
    can be read at its start, or something follows the value. *)
Lemma json_decode_refuses (s : str) :
  json_decode strict s = None ->
  parse_value strict (2 * List.length s + 2) (skip_ws s) = Invalid
  \/ exists v rest c t,
       parse_value strict (2 * List.length s + 2) (skip_ws s)
       = Parsed v rest
       /\ skip_ws rest = c :: t.
Proof.
  unfold json_decode. pose proof (parse_value_fuel s) as F.
  destruct (parse_value strict (2 * List.length s + 2) (skip_ws s))
    as [v rest| |]; [|now left|congruence].
  destruct (skip_ws rest) as [|c t] eqn:R; [discriminate|].
  intros _. right. now exists v, rest, c, t.
Qed.

End Adequacy.

Lemma json_loads_decode `{Runtime} (s : str) (v : value) :
  json_loads s = Some v -> json_decode false s = Some v.
Proof.
  unfold json_loads. destruct s as [|c t]; [auto|].
  now destruct (c =? 65279)%N.
Qed.

Lemma json_loads_well_formed `{Runtime} [s : str] [v : value] :
  json_loads s = Some v -> well_formed v.
Proof. intros E. eapply json_decode_well_formed, json_loads_decode, E. Qed.

(** ** Unknown keys (C9) *)

(** A parsed answer that has the structure of [PlaceInterests], with the
    data [r]; any other key may be present, at the top or in an interest. *)
Definition main_conforms_interest (v : value) (i : Main.Interest) : Prop :=
  exists d,
    v = VDict d
    /\ dict_get d (lit "main_interest") = Some (VStr (Main.main_interest i))
    /\ dict_get d (lit "sub_interests")
       = Some (VList (map VStr (Main.sub_interests i))).

Definition main_conforms (v : value) (r : Main.PlaceInterests) : Prop :=
  exists d items,
    v = VDict d
    /\ dict_get d (lit "interests") = Some (VList items)
    /\ Forall2 main_conforms_interest items (Main.interests r)
    /\ Main.interests r <> [].

Definition app_conforms_interest (v : value) (i : App.Interest) : Prop :=
  exists d,
    v = VDict d
    /\ dict_get d (lit "main_interest") = Some (VStr (App.main_interest i))
    /\ dict_get d (lit "sub_interests")
       = Some (VList (map VStr (App.sub_interests i))).

Definition app_conforms (v : value) (r : App.PlaceInterests) : Prop :=
  exists d items,
    v = VDict d
    /\ dict_get d (lit "interests") = Some (VList items)
    /\ Forall2 app_conforms_interest items (App.interests r)
    /\ App.interests r <> [].

(** The answer, or one of its interests, is a dict with the key that
    the call of a model refuses in pydantic 1. *)
Definition names_self_value (v : value) : bool :=
  match v with
  | VDict d => names_self d
  | _ => false
  end.

Definition calls_refused (v : value) : bool :=
  match v with
  | VDict d =>
      names_self d
      || match dict_get d (lit "interests") with
         | Some (VList items) => existsb names_self_value items
         | _ => false
         end
  | _ => false
  end.

Section UnknownKeys.
Context `{Runtime}.
Variables (PYDANTIC_V2 : bool) (svc : services) (INTERESTS : list str).

Lemma validate_items_strs (v2 : bool) (l : list str) (i : nat) :
  validate_items str (validate_str v2) i (map VStr l) = Valid l.
Proof.
  revert i; induction l as [|s l IH]; intros i; [reflexivity|].
  cbn [map validate_items validate_str]. now rewrite IH.
Qed.

Lemma main_validate_interest (v2 : bool) [v : value] [i : Main.Interest] :
  main_conforms_interest v i ->
  v2 = true \/ names_self_value v = false ->
  validate_model v2 v = Valid i.
Proof.
  intros (d & -> & M & S) F. destruct i as [m subs].
  cbn [Main.main_interest Main.sub_interests] in *.
  assert (I : model_init v2 d = Valid (Main.Build_Interest m subs)).
  { cbn [model_init Main.Interest_model].
    unfold required. rewrite M, S. cbn [validate_str validate_list].
    now rewrite validate_items_strs. }
  cbn [validate_model names_self_value] in *.
  destruct v2; [exact I|]. destruct F as [F|F]; [discriminate|].
  now rewrite F.
Qed.

Lemma app_validate_interest (v2 : bool) [v : value] [i : App.Interest] :
  app_conforms_interest v i ->
  v2 = true \/ names_self_value v = false ->
  validate_model v2 v = Valid i.
Proof.
  intros (d & -> & M & S) F. destruct i as [m subs].
  cbn [App.main_interest App.sub_interests] in *.
  assert (I : model_init v2 d = Valid (App.Build_Interest m subs)).
  { cbn [model_init App.Interest_model].
    unfold required. rewrite M, S. cbn [validate_str validate_list].
    now rewrite validate_items_strs. }
  cbn [validate_model names_self_value] in *.
  destruct v2; [exact I|]. destruct F as [F|F]; [discriminate|].
  now rewrite F.
Qed.

Lemma main_validate_interests (v2 : bool) [items : list value]
  [l : list Main.Interest] (n : nat) :
  Forall2 main_conforms_interest items l ->
  v2 = true \/ existsb names_self_value items = false ->
  validate_items Main.Interest (validate_model v2) n items = Valid l.
Proof.
  intros F. revert n. induction F as [|v i items l C _ IH]; intros n S;
    [reflexivity|].
  cbn [validate_items existsb] in *.
  rewrite (main_validate_interest v2 C), IH; [reflexivity| |];
    (destruct S as [S|S]; [now left|right]);
    apply orb_false_iff in S; tauto.
Qed.

Lemma app_validate_interests (v2 : bool) [items : list value]
  [l : list App.Interest] (n : nat) :
  Forall2 app_conforms_interest items l ->
  v2 = true \/ existsb names_self_value items = false ->
  validate_items App.Interest (validate_model v2) n items = Valid l.
Proof.
  intros F. revert n. induction F as [|v i items l C _ IH]; intros n S;
    [reflexivity|].
  cbn [validate_items existsb] in *.
  rewrite (app_validate_interest v2 C), IH; [reflexivity| |];
    (destruct S as [S|S]; [now left|right]);
    apply orb_false_iff in S; tauto.
Qed.

Lemma calls_refused_items (d : dict) (items : list value) :
  calls_refused (VDict d) = false ->
  dict_get d (lit "interests") = Some (VList items) ->
  names_self d = false /\ existsb names_self_value items = false.
Proof.
  cbn [calls_refused]. intros C I. rewrite I in C.
  now apply orb_false_iff in C.
Qed.

Lemma main_model_init_conforms (v2 : bool) [d : dict] [r : Main.PlaceInterests] :
  main_conforms (VDict d) r ->
  v2 = true \/ calls_refused (VDict d) = false ->
  model_init v2 d = Valid r.
Proof.
  intros (d' & items & [= <-] & I & F & N) S. destruct r as [l].
  cbn [Main.interests] in *. cbn [model_init Main.PlaceInterests_model].
  unfold required. rewrite I. cbn [validate_list].
  rewrite (main_validate_interests v2 0 F).
  - destruct l; [congruence|reflexivity].
  - destruct S as [S|S]; [now left|right].
    now apply (calls_refused_items d items S I).
Qed.

Lemma app_model_init_conforms (v2 : bool) [d : dict] [r : App.PlaceInterests] :
  app_conforms (VDict d) r ->
  v2 = true \/ calls_refused (VDict d) = false ->
  model_init v2 d = Valid r.
Proof.
  intros (d' & items & [= <-] & I & F & N) S. destruct r as [l].
  cbn [App.interests] in *. cbn [model_init App.PlaceInterests_model].
  unfold required. rewrite I. cbn [validate_list].
  rewrite (app_validate_interests v2 0 F).
  - destruct l; [congruence|reflexivity].
  - destruct S as [S|S]; [now left|right].
    now apply (calls_refused_items d items S I).
Qed.

Lemma starts_number_ascii (s : str) :
  starts_number s = true -> exists c t, s = c :: t /\ (c < 128)%N.
Proof.
  destruct s as [|c t]; [discriminate|]. intros S. exists c, t.
  split; [reflexivity|]. unfold starts_number in S.
  apply orb_prop in S as [S|S].
  - unfold is_digit in S. apply andb_prop in S as [_ S].
    apply N.leb_le in S. lia.
  - apply andb_prop in S as [S _]. apply N.eqb_eq in S. lia.
Qed.

Lemma json_dumps_ascii_start [v : value] :
  well_formed v -> exists c t, json_dumps v = c :: t /\ (c < 128)%N.
Proof.
  intros [| [] | z | r C | s | items _ | members _ _];
    try (eexists; eexists; split; [reflexivity|reflexivity]).
  - cbn [json_dumps]. rewrite str_of_Z_text.
    rewrite <- (app_nil_r (str_of_N _)).
    apply starts_number_ascii, number_text_starts, str_of_N_shape.
  - cbn [json_dumps]. unfold floatstr.
    destruct (str_eqb r (lit "nan")) eqn:E1;
      [eexists; eexists; split; reflexivity|].
    destruct (str_eqb r (lit "inf")) eqn:E2;
      [eexists; eexists; split; reflexivity|].
    destruct (str_eqb r (lit "-inf")) eqn:E3;
      [eexists; eexists; split; reflexivity|].
    unfold canonical_float, special_float in C. rewrite E1, E2, E3 in C.
    cbn [orb] in C. apply andb_prop in C as [L _].
    unfold is_float_lexeme in L.
    destruct (scan_number r) as [[[[neg ip] fe] rest]|] eqn:S; [|discriminate].
    apply scan_number_inv in S as (f & e & _ & I & _ & _ & ->).
    apply starts_number_ascii. now apply number_text_starts.
Qed.

Lemma json_loads_dumps (v : value) :
  well_formed v -> scalar_strings v = true ->
  json_loads (json_dumps v) = Some v.
Proof.
  intros W S. unfold json_loads.
  destruct (json_dumps_ascii_start W) as (c & t & E & A).
  rewrite E.
  assert ((c =? 65279)%N = false) as -> by (apply N.eqb_neq; lia).
  rewrite <- E. now apply json_decode_dumps.
Qed.

Lemma main_validate_json_conforms [v : value] [r : Main.PlaceInterests] :
  well_formed v -> scalar_strings v = true -> main_conforms v r ->
  PYDANTIC_V2 = true \/ calls_refused v = false ->
  Main.validate_json PYDANTIC_V2 (json_dumps v) Main.PlaceInterests = Return r.
Proof.
  intros W S C F. pose proof C as (d & items & -> & I & _).
  unfold Main.validate_json, model_validate_json, parse_raw, parse_obj.
  destruct PYDANTIC_V2.
  - rewrite json_decode_dumps by assumption.
    now rewrite (main_model_init_conforms true C (or_introl eq_refl)).
  - destruct F as [F|F]; [discriminate|].
    rewrite json_loads_dumps by assumption. cbn [dict_of_iterable].
    destruct (calls_refused_items d items F I) as (N & _). rewrite N.
    now rewrite (main_model_init_conforms false C (or_intror F)).
Qed.

Lemma app_validate_json_conforms [v : value] [r : App.PlaceInterests] :
  well_formed v -> scalar_strings v = true -> app_conforms v r ->
  PYDANTIC_V2 = true \/ calls_refused v = false ->
  App.validate_json PYDANTIC_V2 (json_dumps v) App.PlaceInterests = Return r.
Proof.
  intros W S C F. pose proof C as (d & items & -> & I & _).
  unfold App.validate_json, model_validate_json, parse_raw, parse_obj.
  destruct PYDANTIC_V2.
  - rewrite json_decode_dumps by assumption.
    now rewrite (app_model_init_conforms true C (or_introl eq_refl)).
  - destruct F as [F|F]; [discriminate|].
    rewrite json_loads_dumps by assumption. cbn [dict_of_iterable].
    destruct (calls_refused_items d items F I) as (N & _). rewrite N.
    now rewrite (app_model_init_conforms false C (or_intror F)).
Qed.


End UnknownKeys.







(* ================================================================== *)
(** * The handler beyond its guard *)
(* ================================================================== *)

(** The text of a failure response. *)
Definition error_body `{Runtime} (e : exn) : str :=
  json_dumps (VDict [(lit "error", VStr (str_of_exn e))]).

Section HandlerOutcomes.
Context `{Runtime}.
Variables (PYDANTIC_V2 : bool) (svc : services)
          (environ_get : str -> option str) (INTERESTS : list str).

(** Past the guard, the handler is [generate_interests] with its
    result or its failure turned into a response. *)
Lemma handler_past_guard [d : dict] [pd : value] (context : value) [key : str]
  (w : world) :
  dict_get d (lit "place_details") = Some pd ->
  truthy pd = true ->
  environ_get (lit "OPENAI_API_KEY") = Some key ->
  key <> [] ->
  Main.lambda_handler PYDANTIC_V2 svc environ_get INTERESTS (VDict d) context w
  = match Main.generate_interests PYDANTIC_V2 svc INTERESTS pd key w with
    | (Return r, w') =>
        (Return {| Main.statusCode := 200;
                   Main.body := model_json PYDANTIC_V2 r |}, w')
    | (Raise e, w') =>
        (Return {| Main.statusCode := 500; Main.body := error_body e |}, w')
    end.
Proof.
  intros P T K N.
  unfold Main.lambda_handler, bind, lift, py_get, dict_get_default.
  cbn beta iota. rewrite P, T, K.
  destruct key as [|c k]; [congruence|].
  unfold try_except, ret.
  destruct (Main.generate_interests PYDANTIC_V2 svc INTERESTS pd (c :: k) w)
    as [[r|e] w']; reflexivity.
Qed.

Lemma handler_without_key (d : dict) (context : value) (w : world) :
  environ_get (lit "OPENAI_API_KEY") = None
  \/ environ_get (lit "OPENAI_API_KEY") = Some [] ->
  Main.lambda_handler PYDANTIC_V2 svc environ_get INTERESTS (VDict d) context w
  = (Return Main.missing_parameters, w).
Proof.
  intros K. unfold Main.lambda_handler, bind, lift, py_get. cbn beta iota.
  destruct K as [K|K]; rewrite K;
    destruct (truthy (dict_get_default d (lit "place_details") VNone));
    reflexivity.
Qed.

(** Without a key in the environment, or with an empty one, the answer
    is the 400 response whatever the event holds, a valid place record
    too, and nothing is called. *)
Theorem lambda_handler_without_api_key (d : dict) (context : value) (w : world) :
  environ_get (lit "OPENAI_API_KEY") = None
  \/ environ_get (lit "OPENAI_API_KEY") = Some [] ->
  exists r,
    Main.lambda_handler PYDANTIC_V2 svc environ_get INTERESTS (VDict d) context w
    = (Return r, w)
    /\ Main.statusCode r = 400%Z
    /\ json_loads (Main.body r)
       = Some (VDict [(lit "error", VStr (lit "Missing required parameters"))]).
Proof.
  intros K. exists Main.missing_parameters.
  rewrite (handler_without_key d context w K).
  split; [reflexivity|]. split; [reflexivity|].
  apply missing_parameters_body.
Qed.

(** Whatever [generate_interests] raises becomes a 500 response whose
    body is the JSON object with the one key [error] and the text of
    the exception; the handler itself returns. *)
Theorem lambda_handler_reports_failure
  (d : dict) (pd context : value) (key : str) (e : exn) (w : world) :
  dict_get d (lit "place_details") = Some pd ->
  truthy pd = true ->
  environ_get (lit "OPENAI_API_KEY") = Some key ->
  key <> [] ->
  fst (Main.generate_interests PYDANTIC_V2 svc INTERESTS pd key w) = Raise e ->
  Main.lambda_handler PYDANTIC_V2 svc environ_get INTERESTS (VDict d) context w
  = (Return {| Main.statusCode := 500; Main.body := error_body e |},
     snd (Main.generate_interests PYDANTIC_V2 svc INTERESTS pd key w))
  /\ (forallb scalar (str_of_exn e) = true ->
      json_loads (error_body e)
      = Some (VDict [(lit "error", VStr (str_of_exn e))])).
Proof.
  intros P T K N G. split.
  - rewrite (handler_past_guard context w P T K N).
    destruct (Main.generate_interests PYDANTIC_V2 svc INTERESTS pd key w)
      as [[r|e'] w']; cbn [fst snd] in *; [discriminate|].
    now injection G as ->.
  - intros S. apply json_loads_dumps.
    + constructor.
      * repeat constructor. intros [].
      * repeat constructor.
    + cbn [scalar_strings forallb fst snd]. rewrite S. reflexivity.
Qed.

End HandlerOutcomes.

(** ** When the prompt can be built *)

Section PromptBuilding.
Context `{Runtime}.
Variables (PYDANTIC_V2 : bool) (svc : services)
          (environ_get : str -> option str) (INTERESTS : list str).

(** For a place record that is a dict, only two fields can make the
    prompt fail: [types], when [join] does not accept it, and
    [editorial_summary], when it is no dict. The name, the address and
    the overview are printed whatever they are. The interactive shell
    needs, besides, a [result] that is a dict, where it reads the
    fields. *)
Theorem make_prompt_succeeds_iff (d : dict) :
  ((exists p, Main.make_prompt INTERESTS (VDict d) = Return p)
   <-> (exists t, py_join (lit ", ") (dict_get_default d (lit "types") (VList []))
                  = Return t)
       /\ (exists e, dict_get_default d (lit "editorial_summary") (VDict [])
                     = VDict e))
  /\ ((exists p, App.make_prompt INTERESTS (VDict d) = Return p)
      <-> exists result,
            dict_get d (lit "result") = Some (VDict result)
            /\ (exists t, py_join (lit ", ")
                            (dict_get_default result (lit "types") (VList []))
                          = Return t)
            /\ (exists e, dict_get_default result (lit "editorial_summary")
                            (VDict [])
                          = VDict e)).
Proof.
  split.
  - unfold Main.make_prompt, Main.render_name, Main.render_address,
      Main.render_types, Main.render_description, obind, py_get.
    split.
    + intros (p & P).
      destruct (py_join (lit ", ") (dict_get_default d (lit "types") (VList [])))
        as [t|]; [|discriminate].
      split; [now exists t|].
      destruct (dict_get_default d (lit "editorial_summary") (VDict []));
        try discriminate.
      now eexists.
    + intros ((t & ->) & (e & ->)). now eexists.
  - unfold App.make_prompt, App.render_name, App.render_address,
      App.render_types, App.render_description, obind, py_getitem.
    split.
    + intros (p & P).
      destruct (dict_get d (lit "result")) as [result|]; [|discriminate].
      destruct result as [| | | | | |result]; try discriminate.
      exists result. split; [reflexivity|]. unfold py_get in P.
      destruct (py_join (lit ", ")
                  (dict_get_default result (lit "types") (VList [])))
        as [t|]; [|discriminate].
      split; [now exists t|].
      destruct (dict_get_default result (lit "editorial_summary") (VDict []));
        try discriminate.
      now eexists.
    + intros (result & -> & (t & T) & (e & E)). unfold py_get.
      rewrite T, E. now eexists.
Qed.

Lemma all_str_strs (ts : list str) : all_str (map VStr ts) = Some ts.
Proof. induction ts as [|t ts IH]; [reflexivity|]. cbn. now rewrite IH. Qed.

(** A place record with a name, an address, a list of types and an
    overview, all of them strings, gives a prompt with one line for
    each, holding the text as it is, the types joined by a comma and a
    blank; and the taxonomy, joined in the same way, fills the line
    under its heading. The interactive shell reads the record under
    [result]. *)
Theorem prompt_carries_place_and_taxonomy
  (d e : dict) (n a o : str) (ts : list str) :
  dict_get d (lit "name") = Some (VStr n) ->
  dict_get d (lit "formatted_address") = Some (VStr a) ->
  dict_get d (lit "types") = Some (VList (map VStr ts)) ->
  dict_get d (lit "editorial_summary") = Some (VDict e) ->
  dict_get e (lit "overview") = Some (VStr o) ->
  (exists p,
     Main.make_prompt INTERESTS (VDict d) = Return p
     /\ carries n a (join (lit ", ") ts) o (join (lit ", ") INTERESTS) p)
  /\ (forall top,
        dict_get top (lit "result") = Some (VDict d) ->
        exists p,
          App.make_prompt INTERESTS (VDict top) = Return p
          /\ carries n a (join (lit ", ") ts) o (join (lit ", ") INTERESTS) p).
Proof.
  intros N A T S O. split.
  - eexists. split.
    + unfold Main.make_prompt, Main.render_name, Main.render_address,
        Main.render_types, Main.render_description, obind, py_get,
        dict_get_default.
      rewrite N, A, T, S. cbn [py_join]. rewrite all_str_strs, O.
      reflexivity.
    + apply main_prompt_carries.
  - intros top R. eexists. split.
    + unfold App.make_prompt, App.render_name, App.render_address,
        App.render_types, App.render_description, obind, py_getitem.
      rewrite R. unfold py_get, dict_get_default.
      rewrite N, A, T, S. cbn [py_join]. rewrite all_str_strs, O.
      reflexivity.
    + apply app_prompt_carries.
Qed.

(** A [types] list with an item that is no string stops
    [generate_interests] with [TypeError], and an [editorial_summary]
    that is no dict with [AttributeError], before anything is sent. *)
Theorem main_generate_interests_bad_place
  (d : dict) (key : str) (w : world) :
  (forall items,
     dict_get d (lit "types") = Some (VList items) ->
     all_str items = None ->
     Main.generate_interests PYDANTIC_V2 svc INTERESTS (VDict d) key w
     = (Raise TypeError, w))
  /\ (forall t s,
        py_join (lit ", ") (dict_get_default d (lit "types") (VList []))
        = Return t ->
        dict_get d (lit "editorial_summary") = Some s ->
        (forall e, s <> VDict e) ->
        Main.generate_interests PYDANTIC_V2 svc INTERESTS (VDict d) key w
        = (Raise AttributeError, w)).
Proof.
  split.
  - intros items T A.
    unfold Main.generate_interests, bind, lift, Main.make_prompt,
      Main.render_name, Main.render_address, Main.render_types, obind, py_get,
      dict_get_default.
    rewrite T. cbn [py_join]. now rewrite A.
  - intros t s T S N.
    unfold Main.generate_interests, bind, lift, Main.make_prompt,
      Main.render_name, Main.render_address, Main.render_types,
      Main.render_description, obind, py_get.
    assert (S' : dict_get_default d (lit "editorial_summary") (VDict []) = s)
      by (unfold dict_get_default; now rewrite S).
    rewrite T, S'.
    destruct s; try reflexivity. now destruct (N members).
Qed.

(** When the prompt cannot be built, the handler answers 500 with the
    text of the failure and sends nothing. A place record that is no
    dict is such a case: it has no [get]. *)
Theorem lambda_handler_prompt_failure
  (d : dict) (pd context : value) (key : str) (e : exn) (w : world) :
  dict_get d (lit "place_details") = Some pd ->
  truthy pd = true ->
  environ_get (lit "OPENAI_API_KEY") = Some key ->
  key <> [] ->
  Main.make_prompt INTERESTS pd = Raise e ->
  Main.lambda_handler PYDANTIC_V2 svc environ_get INTERESTS (VDict d) context w
  = (Return {| Main.statusCode := 500; Main.body := error_body e |}, w).
Proof.
  intros P T K N F.
  rewrite (handler_past_guard PYDANTIC_V2 svc environ_get INTERESTS
             context w P T K N).
  unfold Main.generate_interests, bind, lift. now rewrite F.
Qed.

Lemma main_make_prompt_not_dict (pd : value) :
  (forall d, pd <> VDict d) ->
  Main.make_prompt INTERESTS pd = Raise AttributeError.
Proof.
  intros N. destruct pd; try reflexivity. now destruct (N members).
Qed.

(** Failures outside the [try] block are not turned into [ValueError]:
    a failure of the call itself, a completion without choices
    ([IndexError]) and a first choice without content ([TypeError],
    from [json.loads(None)]) leave [generate_interests] as they are. *)
Theorem main_generate_interests_unwrapped
  (place_details : value) (key p : str) (w : world) :
  Main.make_prompt INTERESTS place_details = Return p ->
  (forall e,
     chat_completions_create svc key (Main.make_request p) = Raise e ->
     fst (Main.generate_interests PYDANTIC_V2 svc INTERESTS place_details key w)
     = Raise e)
  /\ (chat_completions_create svc key (Main.make_request p)
      = Return {| choices := [] |} ->
      fst (Main.generate_interests PYDANTIC_V2 svc INTERESTS place_details key w)
      = Raise IndexError)
  /\ (forall more,
        chat_completions_create svc key (Main.make_request p)
        = Return {| choices := None :: more |} ->
        fst (Main.generate_interests PYDANTIC_V2 svc INTERESTS place_details key w)
        = Raise TypeError).
Proof.
  intros P. unfold Main.generate_interests, bind, lift, call_out.
  rewrite P. split; [|split].
  - now intros e ->.
  - now intros ->.
  - now intros more ->.
Qed.

End PromptBuilding.

Section HandlerTotal.
Context `{Runtime}.
Variables (PYDANTIC_V2 : bool) (svc : services)
          (environ_get : str -> option str) (INTERESTS : list str).

(** What a run of [generate_interests] leaves behind: nothing, or the
    one request. *)
Lemma main_generate_interests_world (place_details : value) (key : str) (w : world) :
  snd (Main.generate_interests PYDANTIC_V2 svc INTERESTS place_details key w) = w
  \/ exists p,
       snd (Main.generate_interests PYDANTIC_V2 svc INTERESTS place_details key w)
       = {| calls := calls w ++ [ChatCompletionsCreate key (Main.make_request p)];
            page := page w |}.
Proof.
  unfold Main.generate_interests, bind, lift, call_out.
  destruct (Main.make_prompt INTERESTS place_details) as [p|e]; [|now left].
  right. exists p.
  destruct (chat_completions_create svc key (Main.make_request p)) as [r|e];
    [|reflexivity].
  destruct (Main.first_content r) as [c|e]; [|reflexivity].
  destruct (Main.parse_response PYDANTIC_V2 c); reflexivity.
Qed.

(** For every event that is a dict the handler returns a response and
    raises nothing, whatever the services do; the status is 200, 400
    or 500; and the run makes no outbound call but, at most, the one
    chat completion. *)
Theorem lambda_handler_always_responds (d : dict) (context : value) (w : world) :
  exists r w',
    Main.lambda_handler PYDANTIC_V2 svc environ_get INTERESTS (VDict d) context w
    = (Return r, w')
    /\ (Main.statusCode r = 200 \/ Main.statusCode r = 400
        \/ Main.statusCode r = 500)%Z
    /\ page w' = page w
    /\ (calls w' = calls w
        \/ exists key p,
             calls w' = calls w ++ [ChatCompletionsCreate key (Main.make_request p)]).
Proof.
  destruct (environ_get (lit "OPENAI_API_KEY")) as [[|c k]|] eqn:K.
  - exists Main.missing_parameters, w.
    rewrite handler_without_key by now right.
    cbn. intuition.
  - destruct (truthy (dict_get_default d (lit "place_details") VNone)) eqn:T.
    + unfold dict_get_default in T.
      destruct (dict_get d (lit "place_details")) as [pd|] eqn:P;
        [|discriminate].
      assert (N : c :: k <> []) by discriminate.
      rewrite (handler_past_guard PYDANTIC_V2 svc environ_get INTERESTS
                 context w P T K N).
      pose proof (main_generate_interests_world pd (c :: k) w) as W.
      destruct (Main.generate_interests PYDANTIC_V2 svc INTERESTS pd (c :: k) w)
        as [[r|e] w']; cbn [snd] in W;
        (eexists; exists w'; split; [reflexivity|]; cbn [Main.statusCode];
         split; [intuition|];
         destruct W as [->|(p & ->)]; cbn [calls page];
         split; [reflexivity|now left|reflexivity|right; now exists (c :: k), p]).
    + exists Main.missing_parameters, w.
      rewrite (handler_falsy_place_details PYDANTIC_V2 svc environ_get INTERESTS
                 d context w T).
      cbn. intuition.
  - exists Main.missing_parameters, w.
    rewrite handler_without_key by now left.
    cbn. intuition.
Qed.

End HandlerTotal.

(* ================================================================== *)
(** * The taxonomy loaders beyond their rows *)
(* ================================================================== *)

(** A line as both loaders hand it to the reader: no line end inside
    it, and at most a line feed as its last character. *)
Definition no_crnl (l : str) : bool := forallb (fun c => negb (is_crnl c)) l.

Definition reader_line (l : str) : Prop :=
  exists body, no_crnl body = true /\ (l = body \/ l = body ++ [10%N]).

Lemma no_crnl_app (a b : str) :
  no_crnl (a ++ b) = no_crnl a && no_crnl b.
Proof. apply forallb_app. Qed.

(** The characters of a list of lines. *)
Definition chars (lines : list str) : nat := List.length (List.concat lines).

Lemma chars_cons (l : str) (lines : list str) :
  chars (l :: lines) = List.length l + chars lines.
Proof. unfold chars. cbn [List.concat]. apply length_app. Qed.

Lemma chars_last (cur : str) :
  chars (match cur with [] => [] | _ => [cur] end) <= List.length cur.
Proof.
  destruct cur as [|c cur]; [cbn; lia|].
  rewrite chars_cons. cbn. lia.
Qed.

Lemma splitlines_from_lines (n : nat) :
  forall s cur, List.length s <= n -> no_crnl cur = true ->
                Forall reader_line (splitlines_from cur s)
                /\ chars (splitlines_from cur s)
                   <= List.length cur + List.length s.
Proof.
  induction n as [|n IH]; intros s cur L C.
  - destruct s; [|cbn in L; lia]. cbn [splitlines_from]. split.
    + destruct cur; constructor; [|constructor]. exists (c :: cur). auto.
    + pose proof (chars_last cur). cbn [List.length]. lia.
  - destruct s as [|c t].
    { cbn [splitlines_from]. split.
      - destruct cur; constructor; [|constructor]. exists (c :: cur). auto.
      - pose proof (chars_last cur). cbn [List.length]. lia. }
    cbn [List.length] in L. cbn [splitlines_from].
    assert (Here : reader_line cur) by (exists cur; auto).
    destruct (c =? 13)%N eqn:R.
    { destruct t as [|c' t'].
      - destruct (IH [] []) as (I1 & I2); [cbn; lia|reflexivity|].
        split; [constructor; assumption|].
        rewrite chars_cons. cbn [List.length] in *. lia.
      - destruct (c' =? 10)%N.
        + destruct (IH t' []) as (I1 & I2);
            [cbn [List.length] in L; lia|reflexivity|].
          split; [constructor; assumption|].
          rewrite chars_cons. cbn [List.length] in *. lia.
        + destruct (IH (c' :: t') []) as (I1 & I2); [lia|reflexivity|].
          split; [constructor; assumption|].
          rewrite chars_cons. cbn [List.length] in *. lia. }
    destruct (is_linebreak c) eqn:B.
    { destruct (IH t []) as (I1 & I2); [lia|reflexivity|].
      split; [constructor; assumption|].
      rewrite chars_cons. cbn [List.length] in *. lia. }
    destruct (IH t (cur ++ [c])) as (I1 & I2); [lia| |].
    { rewrite no_crnl_app, C. cbn. now rewrite (no_crnl_linebreak c B). }
    split; [exact I1|]. rewrite length_app in I2. cbn [List.length] in *. lia.
Qed.

Lemma file_lines_from_lines (n : nat) :
  forall s cur, List.length s <= n -> no_crnl cur = true ->
                Forall reader_line (file_lines_from cur s)
                /\ chars (file_lines_from cur s)
                   <= List.length cur + List.length s.
Proof.
  induction n as [|n IH]; intros s cur L C.
  - destruct s; [|cbn in L; lia]. cbn [file_lines_from]. split.
    + destruct cur; constructor; [|constructor]. exists (c :: cur). auto.
    + pose proof (chars_last cur). cbn [List.length]. lia.
  - destruct s as [|c t].
    { cbn [file_lines_from]. split.
      - destruct cur; constructor; [|constructor]. exists (c :: cur). auto.
      - pose proof (chars_last cur). cbn [List.length]. lia. }
    cbn [List.length] in L. cbn [file_lines_from].
    assert (Here : reader_line (cur ++ [10%N])) by (exists cur; auto).
    destruct (c =? 13)%N eqn:R.
    { destruct t as [|c' t'].
      - destruct (IH [] []) as (I1 & I2); [cbn; lia|reflexivity|].
        split; [constructor; assumption|].
        rewrite chars_cons, length_app. cbn [List.length] in *. lia.
      - destruct (c' =? 10)%N.
        + destruct (IH t' []) as (I1 & I2);
            [cbn [List.length] in L; lia|reflexivity|].
          split; [constructor; assumption|].
          rewrite chars_cons, length_app. cbn [List.length] in *. lia.
        + destruct (IH (c' :: t') []) as (I1 & I2); [lia|reflexivity|].
          split; [constructor; assumption|].
          rewrite chars_cons, length_app. cbn [List.length] in *. lia. }
    destruct (c =? 10)%N eqn:F.
    { destruct (IH t []) as (I1 & I2); [lia|reflexivity|].
      split; [constructor; assumption|].
      rewrite chars_cons, length_app. cbn [List.length] in *. lia. }
    destruct (IH t (cur ++ [c])) as (I1 & I2); [lia| |].
    { rewrite no_crnl_app, C. cbn. unfold is_crnl. now rewrite F, R. }
    split; [exact I1|]. rewrite length_app in I2. cbn [List.length] in *. lia.
Qed.

(** What a run of the reader over some characters comes to: it goes
    on, with a field that has grown by no more than it has read, or it
    refuses a field that has outgrown the limit. *)
Definition reads_on (p : csv_parser) (read : nat) (r : csv_parser + csv_error)
  (k : csv_parser -> Prop) : Prop :=
  (exists p', r = inl p' /\ k p'
              /\ List.length (field p') <= List.length (field p) + read)
  \/ (r = inr FieldTooLarge
      /\ (field_size_limit < N.of_nat (List.length (field p) + read))%N).

Lemma add_char_reads_on (p : csv_parser) (c : char) (next : csv_state)
  (k : csv_parser -> Prop) :
  (forall p', state p' = next -> k p') ->
  reads_on p 1 (parse_add_char p c next) k.
Proof.
  intros K. unfold parse_add_char.
  destruct (field_size_limit <=? N.of_nat (List.length (field p)))%N eqn:E.
  - right. split; [reflexivity|]. apply N.leb_le in E. lia.
  - left. eexists. split; [reflexivity|]. split; [now apply K|].
    cbn [field]. rewrite length_app. cbn. lia.
Qed.

Lemma goes_on (p q : csv_parser) (read : nat) (k : csv_parser -> Prop) :
  k q -> List.length (field q) <= List.length (field p) + read ->
  reads_on p read (inl q) k.
Proof. intros K L. left. now exists q. Qed.

(** Inside a line the reader never waits for the end of the line. *)
Lemma process_char_reads_on (p : csv_parser) (c : char) :
  is_crnl c = false -> state p <> EAT_CRNL ->
  reads_on p 1 (parse_process_char p (Some c))
    (fun p' => state p' <> EAT_CRNL).
Proof.
  intros C S. unfold parse_process_char. rewrite C.
  destruct (state p) eqn:T; try congruence; cbv zeta;
    destruct (c =? 34)%N; try destruct (c =? 44)%N;
    first [ apply add_char_reads_on; intros p' ->; discriminate
          | apply goes_on; cbn; [try rewrite T; discriminate|lia] ].
Qed.

Lemma parse_chars_no_crnl (body : str) :
  forall p, no_crnl body = true -> state p <> EAT_CRNL ->
            forall rest,
              (exists p',
                 parse_line p (body ++ rest) = parse_line p' rest
                 /\ state p' <> EAT_CRNL
                 /\ List.length (field p')
                    <= List.length (field p) + List.length body)
              \/ (parse_line p (body ++ rest) = inr FieldTooLarge
                  /\ (field_size_limit
                      < N.of_nat (List.length (field p) + List.length body))%N).
Proof.
  induction body as [|c body IH]; intros p C S rest.
  - left. exists p. cbn. repeat split; auto. lia.
  - cbn in C. apply andb_prop in C as [C1 C2]. apply negb_true_iff in C1.
    cbn [List.app parse_line List.length].
    destruct (process_char_reads_on p c C1 S) as [(q & -> & Q & L)|(-> & L)].
    + destruct (IH q C2 Q rest) as [(p' & E & S' & L')|(E & L')].
      * left. exists p'. repeat split; auto. lia.
      * right. split; [exact E|]. lia.
    + right. split; [reflexivity|]. lia.
Qed.

Lemma end_of_line_reads_on (q : csv_parser) :
  exists p', parse_process_char q None = inl p'
             /\ state p' <> EAT_CRNL
             /\ List.length (field p') <= List.length (field q).
Proof.
  unfold parse_process_char.
  destruct (state q) eqn:T; eexists; (split; [reflexivity|]); cbn;
    try rewrite T; (split; [discriminate|lia]).
Qed.

Lemma parse_line_reader_line (l : str) (p : csv_parser) :
  reader_line l -> state p <> EAT_CRNL ->
  reads_on p (List.length l) (parse_line p l)
    (fun p' => state p' <> EAT_CRNL).
Proof.
  intros (body & C & L) S.
  destruct L as [->| ->].
  - destruct (parse_chars_no_crnl body p C S []) as [(q & P & Q & L)|(P & L)];
      rewrite app_nil_r in P; rewrite P.
    + destruct (end_of_line_reads_on q) as (p' & E & S' & L').
      cbn [parse_line]. rewrite E. apply goes_on; [exact S'|lia].
    + right. now split.
  - destruct (parse_chars_no_crnl body p C S [10%N])
      as [(q & P & Q & L)|(P & L)]; rewrite P, length_app; cbn [List.length].
    + cbn [parse_line].
      match goal with
      | |- context [parse_process_char q ?c] =>
          assert (E : reads_on q 1 (parse_process_char q c)
                        (fun p' => state p' = EAT_CRNL
                                   \/ state p' = IN_QUOTED_FIELD))
      end.
      { unfold parse_process_char.
        change (is_crnl 10%N) with true. change (10 =? 34)%N with false.
        cbv iota zeta.
        destruct (state q) eqn:T; try congruence;
          first [ apply add_char_reads_on; intros p' ->; now right
                | apply goes_on; cbn; [now left|lia] ]. }
      destruct E as [(q' & E & S' & L')|(E & L')]; rewrite E.
      * destruct (end_of_line_reads_on q') as (p' & E' & S'' & L'').
        rewrite E'. apply goes_on; [exact S''|lia].
      * right. split; [reflexivity|]. lia.
    + right. split; [reflexivity|]. lia.
Qed.

(** Over lines a loader cuts the reader gives rows, unless a field
    outgrows the limit, which takes more characters than the limit. *)
Lemma reader_rows_outcome (lines : list str) :
  Forall reader_line lines ->
  forall p, state p <> EAT_CRNL ->
    (exists rows, reader_rows p lines = inl rows)
    \/ (reader_rows p lines = inr FieldTooLarge
        /\ (field_size_limit
            < N.of_nat (List.length (field p) + chars lines))%N).
Proof.
  induction 1 as [|l lines L _ IH]; intros p S.
  - left. cbn.
    destruct (field p), (csv_state_eqb (state p) IN_QUOTED_FIELD); eauto.
  - cbn [reader_rows]. rewrite chars_cons.
    destruct (parse_line_reader_line l p L S) as [(p' & -> & S' & B)|(-> & B)].
    + destruct (csv_state_eqb (state p') START_RECORD).
      * destruct (IH parse_reset) as [(rows & ->)|(-> & B')];
          [discriminate|eauto|].
        right. split; [reflexivity|]. cbn [field parse_reset List.length] in B'.
        lia.
      * destruct (IH p' S') as [(rows & ->)|(-> & B')]; [eauto|].
        right. split; [reflexivity|]. lia.
    + right. split; [reflexivity|]. lia.
Qed.

Lemma csv_reader_splitlines (text : str) :
  (exists rows, csv_reader (splitlines text) = inl rows)
  \/ (csv_reader (splitlines text) = inr FieldTooLarge
      /\ (field_size_limit < N.of_nat (List.length text))%N).
Proof.
  destruct (splitlines_from_lines (List.length text) text [] (le_n _) eq_refl)
    as (F & C).
  destruct (reader_rows_outcome (splitlines text) F parse_reset)
    as [R|(R & B)]; [discriminate|now left|].
  right. split; [exact R|].
  cbn [field parse_reset List.length] in *. unfold splitlines in B. lia.
Qed.

Lemma csv_reader_file_lines (text : str) :
  (exists rows, csv_reader (file_lines text) = inl rows)
  \/ (csv_reader (file_lines text) = inr FieldTooLarge
      /\ (field_size_limit < N.of_nat (List.length text))%N).
Proof.
  destruct (file_lines_from_lines (List.length text) text [] (le_n _) eq_refl)
    as (F & C).
  destruct (reader_rows_outcome (file_lines text) F parse_reset)
    as [R|(R & B)]; [discriminate|now left|].
  right. split; [exact R|].
  cbn [field parse_reset List.length] in *. unfold file_lines in B. lia.
Qed.

(** A line of one letter, written more often than a field has room. *)
Definition letters (k : nat) : str := repeat 97%N k.

Lemma splitlines_letters (k : nat) :
  forall cur, splitlines_from cur (letters (S k)) = [cur ++ letters (S k)].
Proof.
  induction k as [|k IH]; intros cur.
  - cbn. now destruct cur.
  - change (letters (S (S k))) with (97%N :: letters (S k)).
    cbn [splitlines_from].
    change (97 =? 13)%N with false. change (is_linebreak 97%N) with false.
    cbv iota. rewrite IH, <- app_assoc. reflexivity.
Qed.

Lemma file_lines_letters (k : nat) :
  forall cur, file_lines_from cur (letters (S k)) = [cur ++ letters (S k)].
Proof.
  induction k as [|k IH]; intros cur.
  - cbn. now destruct cur.
  - change (letters (S (S k))) with (97%N :: letters (S k)).
    cbn [file_lines_from].
    change (97 =? 13)%N with false. change (97 =? 10)%N with false.
    cbv iota. rewrite IH, <- app_assoc. reflexivity.
Qed.

Lemma parse_letter (p : csv_parser) (rest : str) :
  state p = START_RECORD \/ state p = START_FIELD \/ state p = IN_FIELD ->
  parse_line p (97%N :: rest)
  = match parse_add_char p 97%N IN_FIELD with
    | inl p' => parse_line p' rest
    | inr e => inr e
    end.
Proof.
  intros S. cbn [parse_line]. unfold parse_process_char.
  destruct S as [S|[S|S]]; rewrite S; reflexivity.
Qed.

Lemma parse_letters (k : nat) :
  forall p rest,
    state p = START_RECORD \/ state p = START_FIELD \/ state p = IN_FIELD ->
    (field_size_limit < N.of_nat (List.length (field p) + S k))%N ->
    parse_line p (letters (S k) ++ rest) = inr FieldTooLarge.
Proof.
  induction k as [|k IH]; intros p rest St L.
  - change (letters 1 ++ rest) with (97%N :: rest).
    rewrite (parse_letter p rest St). unfold parse_add_char.
    destruct (field_size_limit <=? N.of_nat (List.length (field p)))%N eqn:E;
      [reflexivity|].
    apply N.leb_gt in E. lia.
  - change (letters (S (S k)) ++ rest) with (97%N :: (letters (S k) ++ rest)).
    rewrite (parse_letter p _ St). unfold parse_add_char.
    destruct (field_size_limit <=? N.of_nat (List.length (field p)))%N eqn:E;
      [reflexivity|].
    apply IH; [cbn; auto|].
    cbn [field]. rewrite length_app. cbn [List.length]. lia.
Qed.

Lemma csv_reader_letters (k : nat) :
  (field_size_limit < N.of_nat k)%N ->
  csv_reader [letters k] = inr FieldTooLarge.
Proof.
  intros L. destruct k as [|k]; [cbn in L; lia|].
  unfold csv_reader. cbn [reader_rows].
  rewrite <- (app_nil_r (letters (S k))).
  rewrite parse_letters; [reflexivity|now left|exact L].
Qed.

Section LoaderOutcomes.
Context `{Runtime}.
Variable svc : services.

(** The S3 loader, once the object is fetched, returns a list unless
    the reader refuses a field of more than 131072 characters; it
    returns a list for every text of at most that many characters (the
    lines [splitlines] gives hold no line end, so the reader refuses
    nothing else; the reader is the one of CPython 3.11 and later,
    which takes a NUL as any other character), and it does not for a
    text that is one longer line of letters. A failure, of the reader
    or of the fetch, is raised again as [ValueError] with the text of
    the first failure after a fixed prefix. Either way the one call
    made is the fetch. *)
Theorem load_interests_from_s3_outcome (bucket file : str) (w : world) :
  let fetched :=
    {| calls := calls w ++ [S3GetObject bucket file]; page := page w |} in
  let refused :=
    Raise (ValueError (lit "Error loading interests from S3: "
                       ++ str_of_exn (csv_error_exn FieldTooLarge))) in
  (forall text,
     s3_object_text svc bucket file = Return text ->
     ((exists l,
         Main.load_interests_from_s3 svc bucket file w = (Return l, fetched))
      \/ Main.load_interests_from_s3 svc bucket file w = (refused, fetched))
     /\ ((N.of_nat (List.length text) <=? field_size_limit)%N = true ->
         exists l,
           Main.load_interests_from_s3 svc bucket file w = (Return l, fetched)))
  /\ (forall k,
        (field_size_limit <? N.of_nat k)%N = true ->
        s3_object_text svc bucket file = Return (letters k) ->
        Main.load_interests_from_s3 svc bucket file w = (refused, fetched))
  /\ (forall e,
        s3_object_text svc bucket file = Raise e ->
        Main.load_interests_from_s3 svc bucket file w
        = (Raise (ValueError (lit "Error loading interests from S3: "
                              ++ str_of_exn e)),
           fetched)).
Proof.
  intros fetched refused.
  assert (Refused : forall text,
            s3_object_text svc bucket file = Return text ->
            csv_reader (splitlines text) = inr FieldTooLarge ->
            Main.load_interests_from_s3 svc bucket file w = (refused, fetched)).
  { intros text T R.
    unfold Main.load_interests_from_s3, try_except, bind, lift, call_out, raise,
      Main.csv_rows.
    now rewrite T, R. }
  split; [|split].
  - intros text T.
    destruct (csv_reader_splitlines text) as [(rows & R)|(R & B)].
    + assert (exists l, Main.load_interests_from_s3 svc bucket file w
                        = (Return l, fetched)) as E.
      { exists (first_column rows). now apply load_from_s3_rows with text. }
      split; [now left|]. intros _. exact E.
    + split; [right; now apply Refused with text|].
      intros L. apply N.leb_le in L. lia.
  - intros k L T. apply N.ltb_lt in L. apply Refused with (letters k); [exact T|].
    destruct k as [|k]; [cbn in L; lia|].
    unfold splitlines. rewrite splitlines_letters.
    now apply csv_reader_letters.
  - intros e T.
    unfold Main.load_interests_from_s3, try_except, bind, lift, call_out, raise.
    now rewrite T.
Qed.

(** The local loader has no [try]: once the file is read it returns a
    list, unless the reader refuses a field of more than 131072
    characters, and then the failure of the reader leaves the loader
    as it is; it returns a list for every text of at most that many
    characters (with the reader of CPython 3.11 and later, as above),
    and it does not for a text that is one longer line of letters. A
    failure to read the file leaves the loader as it is, too. It calls
    nothing. *)
Theorem load_interests_from_csv_outcome (path : str) (w : world) :
  (forall text,
     file_text svc path = Return text ->
     ((exists l, App.load_interests_from_csv svc path w = (Return l, w))
      \/ App.load_interests_from_csv svc path w
         = (Raise (csv_error_exn FieldTooLarge), w))
     /\ ((N.of_nat (List.length text) <=? field_size_limit)%N = true ->
         exists l, App.load_interests_from_csv svc path w = (Return l, w)))
  /\ (forall k,
        (field_size_limit <? N.of_nat k)%N = true ->
        file_text svc path = Return (letters k) ->
        App.load_interests_from_csv svc path w
        = (Raise (csv_error_exn FieldTooLarge), w))
  /\ (forall e,
        file_text svc path = Raise e ->
        App.load_interests_from_csv svc path w = (Raise e, w)).
Proof.
  assert (Refused : forall text,
            file_text svc path = Return text ->
            csv_reader (file_lines text) = inr FieldTooLarge ->
            App.load_interests_from_csv svc path w
            = (Raise (csv_error_exn FieldTooLarge), w)).
  { intros text T R.
    unfold App.load_interests_from_csv, bind, lift, App.csv_rows.
    now rewrite T, R. }
  split; [|split].
  - intros text T.
    destruct (csv_reader_file_lines text) as [(rows & R)|(R & B)].
    + assert (exists l, App.load_interests_from_csv svc path w = (Return l, w))
        as E.
      { exists (first_column rows). now apply load_from_csv_rows with text. }
      split; [now left|]. intros _. exact E.
    + split; [right; now apply Refused with text|].
      intros L. apply N.leb_le in L. lia.
  - intros k L T. apply N.ltb_lt in L. apply Refused with (letters k); [exact T|].
    destruct k as [|k]; [cbn in L; lia|].
    unfold file_lines. rewrite file_lines_letters.
    now apply csv_reader_letters.
  - intros e T. unfold App.load_interests_from_csv, bind, lift.
    now rewrite T.
Qed.

End LoaderOutcomes.

(** ** A file of unquoted lines *)

(** The file made of the lines, each followed by a line feed. *)
Definition text_of_lines (lines : list str) : str :=
  List.concat (map (fun l => l ++ [10%N]) lines).

Lemma splitlines_from_line (l : str) :
  forall cur rest,
    unquoted l = true ->
    splitlines_from cur (l ++ 10%N :: rest)
    = (cur ++ l) :: splitlines_from [] rest.
Proof.
  induction l as [|c l IH]; intros cur rest U.
  - cbn. now rewrite app_nil_r.
  - apply unquoted_cons in U as (B & _ & U).
    cbn [List.app splitlines_from].
    rewrite (linebreak_cr c B), B, IH by exact U.
    now rewrite <- app_assoc.
Qed.

Lemma file_lines_from_line (l : str) :
  forall cur rest,
    unquoted l = true ->
    file_lines_from cur (l ++ 10%N :: rest)
    = (cur ++ l ++ [10%N]) :: file_lines_from [] rest.
Proof.
  induction l as [|c l IH]; intros cur rest U.
  - reflexivity.
  - apply unquoted_cons in U as (B & _ & U).
    cbn [List.app file_lines_from].
    rewrite (linebreak_cr c B), (linebreak_lf c B), IH by exact U.
    now rewrite <- app_assoc.
Qed.

Lemma splitlines_text_of_lines (lines : list str) :
  forallb unquoted lines = true ->
  splitlines (text_of_lines lines) = lines.
Proof.
  unfold splitlines, text_of_lines.
  induction lines as [|l lines IH]; [reflexivity|].
  cbn [forallb]. intros U. apply andb_prop in U as [U Us].
  cbn [map List.concat]. rewrite <- app_assoc. cbn [List.app].
  now rewrite splitlines_from_line, IH.
Qed.

Lemma file_lines_text_of_lines (lines : list str) :
  forallb unquoted lines = true ->
  file_lines (text_of_lines lines) = map (fun l => l ++ [10%N]) lines.
Proof.
  unfold file_lines, text_of_lines.
  induction lines as [|l lines IH]; [reflexivity|].
  cbn [forallb]. intros U. apply andb_prop in U as [U Us].
  cbn [map List.concat]. rewrite <- app_assoc. cbn [List.app].
  now rewrite file_lines_from_line, IH.
Qed.

Lemma reader_rows_unquoted (lines : list str) (tail : str) :
  forallb unquoted lines = true ->
  fields_fit lines = true ->
  line_end tail ->
  csv_reader (map (fun l => l ++ tail) lines) = inl (map row_of lines).
Proof.
  intros U F T. unfold csv_reader.
  induction lines as [|l lines IH]; [reflexivity|].
  cbn [forallb fields_fit] in U, F.
  apply andb_prop in U as [U Us]. apply andb_prop in F as [F Fs].
  cbn [map]. apply reader_rows_unquoted_line; auto.
Qed.

Lemma first_column_rows_of (lines : list str) :
  first_column (map row_of lines)
  = map before_comma (filter App.nonempty lines).
Proof.
  induction lines as [|l lines IH]; [reflexivity|].
  cbn [map filter]. change (first_column (row_of l :: map row_of lines))
    with (match row_of l with [] => [] | f :: _ => [f] end
          ++ first_column (map row_of lines)).
  rewrite IH. destruct l as [|c l]; [reflexivity|].
  cbn [row_of App.nonempty map].
  destruct (hd_split_commas (c :: l) []) as (rest & ->). reflexivity.
Qed.

Section UnquotedFile.
Context `{Runtime}.
Variable svc : services.

(** For a taxonomy file whose lines hold no quote and no line break of
    any kind (none of the characters at which [str.splitlines] cuts),
    whose fields hold at most 131072 characters, and where each line
    is followed by a line feed, both loaders return the same list: for
    every line that is not empty, in order, its text up to the first
    comma. A line that begins with a comma gives the empty name. *)
Theorem loaders_on_unquoted_lines
  (bucket file path : str) (lines : list str) (w : world) :
  forallb unquoted lines = true ->
  fields_fit lines = true ->
  (s3_object_text svc bucket file = Return (text_of_lines lines) ->
   Main.load_interests_from_s3 svc bucket file w
   = (Return (map before_comma (filter App.nonempty lines)),
      {| calls := calls w ++ [S3GetObject bucket file]; page := page w |}))
  /\ (file_text svc path = Return (text_of_lines lines) ->
      App.load_interests_from_csv svc path w
      = (Return (map before_comma (filter App.nonempty lines)), w)).
Proof.
  intros U F. rewrite <- first_column_rows_of. split; intros T.
  - apply load_from_s3_rows with (text_of_lines lines); [exact T|].
    rewrite splitlines_text_of_lines by exact U.
    rewrite <- (reader_rows_unquoted lines [] U F) by now left.
    f_equal. rewrite <- (map_id lines) at 1. apply map_ext.
    intros l. now rewrite app_nil_r.
  - apply load_from_csv_rows with (text_of_lines lines); [exact T|].
    rewrite file_lines_text_of_lines by exact U.
    apply reader_rows_unquoted; [exact U|exact F|right; now left].
Qed.

End UnquotedFile.

(* ================================================================== *)
(** * The page of the interactive shell *)
(* ================================================================== *)

(** What the page shows of a place, and of a result. *)
Definition place_widgets (name address types description : str) : list widget :=
  [StSubheader (lit "Place Details:");
   StWrite [VStr (lit "Name: " ++ name)];
   StWrite [VStr (lit "Address: " ++ address)];
   StWrite [VStr (lit "Types: " ++ types)];
   StWrite [VStr (lit "Description: " ++ description)]].

Definition interest_widgets (i : App.Interest) : list widget :=
  StWrite [VStr (lit "- " ++ App.main_interest i)]
  :: map (fun s => StWrite [VStr (lit "  - " ++ s)]) (App.sub_interests i).

Definition debug_widget (c : option str) : widget :=
  StWrite [VStr (lit "Debug - API Response:"); App.content_value c].

Definition shown (w : world) (l : list widget) : world :=
  {| calls := calls w; page := page w ++ l |}.

Lemma for_each_show (A : Type) (f : A -> widget) (l : list A) :
  forall w, App.for_each l (fun x => show (f x)) w
            = (Return tt, shown w (map f l)).
Proof.
  induction l as [|x l IH]; intros w.
  - cbn. unfold ret, shown. rewrite app_nil_r. now destruct w.
  - cbn [App.for_each map]. unfold bind at 1. unfold show at 1.
    rewrite IH. unfold shown. cbn [calls page].
    now rewrite <- app_assoc.
Qed.

Lemma for_each_interests (l : list App.Interest) :
  forall w,
    App.for_each l (fun interest =>
      bind (show (StWrite [VStr (lit "- " ++ App.main_interest interest)]))
        (fun _ => App.for_each (App.sub_interests interest) (fun sub_interest =>
           show (StWrite [VStr (lit "  - " ++ sub_interest)])))) w
    = (Return tt, shown w (flat_map interest_widgets l)).
Proof.
  induction l as [|i l IH]; intros w.
  - cbn. unfold ret, shown. rewrite app_nil_r. now destruct w.
  - cbn [App.for_each flat_map]. unfold bind at 1. unfold bind at 1.
    unfold show at 1.
    rewrite (for_each_show str (fun s => StWrite [VStr (lit "  - " ++ s)])).
    rewrite IH. unfold shown, interest_widgets. cbn [calls page].
    f_equal. f_equal. rewrite <- !app_assoc. reflexivity.
Qed.

Section Click.
Context `{Runtime}.
Variables (PYDANTIC_V2 : bool) (svc : services) (INTERESTS : list str).

(** With one of the three inputs empty, the click shows the warning
    and does nothing else: no request leaves the process. *)
Theorem missing_input_only_warns
  (place_id google_api_key openai_api_key : str) (w : world) :
  place_id = [] \/ google_api_key = [] \/ openai_api_key = [] ->
  App.on_generate_interests PYDANTIC_V2 svc INTERESTS
    place_id google_api_key openai_api_key w
  = (Return tt,
     shown w [StWarning (lit "Please enter Google Place ID, Google API Key, and OpenAI API Key.")]).
Proof.
  intros E. unfold App.on_generate_interests.
  assert (App.nonempty place_id && App.nonempty google_api_key
          && App.nonempty openai_api_key = false) as ->.
  { destruct E as [->|[->| ->]]; cbn;
      rewrite ?andb_false_r; reflexivity. }
  reflexivity.
Qed.

(** The run of the click up to the [try] block, for a place-details
    response with status [OK]. *)
Lemma page_before_try
  (place_id google_api_key openai_api_key : str) (top : dict)
  (n a t d : str) (w : world) :
  App.nonempty place_id = true ->
  App.nonempty google_api_key = true ->
  App.nonempty openai_api_key = true ->
  requests_get_json svc App.GOOGLE_PLACE_DETAILS_URL
    (place_details_params place_id google_api_key) = Return (VDict top) ->
  dict_get top (lit "status") = Some (VStr (lit "OK")) ->
  App.render_name (VDict top) = Return n ->
  App.render_address (VDict top) = Return a ->
  App.render_types (VDict top) = Return t ->
  App.render_description (VDict top) = Return d ->
  App.on_generate_interests PYDANTIC_V2 svc INTERESTS
    place_id google_api_key openai_api_key w
  = match App.generate_interests PYDANTIC_V2 svc INTERESTS (VDict top)
            openai_api_key
            {| calls := calls w
                        ++ [RequestsGet App.GOOGLE_PLACE_DETAILS_URL
                              (place_details_params place_id google_api_key)];
               page := page w ++ place_widgets n a t d |} with
    | (Return r, w') =>
        (Return tt,
         shown w' (StSubheader (lit "Generated Interests:")
                   :: flat_map interest_widgets (App.interests r)))
    | (Raise e, w') =>
        (Return tt,
         shown w' [StError (lit "Error generating interests: " ++ str_of_exn e)])
    end.
Proof.
  intros P G O Hget Hstatus N A T D.
  unfold App.on_generate_interests. rewrite P, G, O. cbn [andb].
  unfold App.get_place_details.
  fold (place_details_params place_id google_api_key).
  unfold bind at 1. unfold bind at 1. unfold call_out at 1. unfold lift at 1.
  rewrite Hget. unfold bind at 1. unfold lift at 1. cbn [py_getitem].
  rewrite Hstatus. cbn [eq_str]. rewrite str_eqb_refl.
  rewrite N, A, T, D.
  unfold bind at 1. unfold show at 1.
  unfold bind at 1. unfold lift at 1.
  unfold bind at 1. unfold show at 1.
  unfold bind at 1. unfold lift at 1.
  unfold bind at 1. unfold show at 1.
  unfold bind at 1. unfold lift at 1.
  unfold bind at 1. unfold show at 1.
  unfold bind at 1. unfold lift at 1.
  unfold bind at 1. unfold show at 1.
  cbn [calls page]. unfold try_except.
  unfold bind at 1.
  rewrite <- !app_assoc. cbn [List.app]. fold (place_widgets n a t d).
  destruct (App.generate_interests PYDANTIC_V2 svc INTERESTS (VDict top)
              openai_api_key _) as [[r|e] w'].
  - unfold bind at 1. unfold show at 1.
    rewrite for_each_interests. unfold shown. cbn [calls page].
    now rewrite <- app_assoc.
  - reflexivity.
Qed.


(** The request a click sends to the model. *)
Definition click_request (n a t d : str) : chat_request :=
  App.make_request (App.prompt_text n a t d (join (lit ", ") INTERESTS)).

Definition click_calls (place_id google_api_key openai_api_key n a t d : str)
  : list outbound :=
  [RequestsGet App.GOOGLE_PLACE_DETAILS_URL
     (place_details_params place_id google_api_key);
   ChatCompletionsCreate openai_api_key (click_request n a t d)].

(** A click that goes well: the page gains the place, the debug line
    with the raw answer, the heading, and then for each interest in
    order its line followed by one line for each of its sub-interests;
    the two requests of the run are the place lookup and the chat
    completion. *)
Theorem page_of_a_successful_click
  (place_id google_api_key openai_api_key : str) (top : dict)
  (n a t d : str) (cr : chat_completion) (c : option str)
  (r : App.PlaceInterests) (w : world) :
  App.nonempty place_id = true ->
  App.nonempty google_api_key = true ->
  App.nonempty openai_api_key = true ->
  requests_get_json svc App.GOOGLE_PLACE_DETAILS_URL
    (place_details_params place_id google_api_key) = Return (VDict top) ->
  dict_get top (lit "status") = Some (VStr (lit "OK")) ->
  App.render_name (VDict top) = Return n ->
  App.render_address (VDict top) = Return a ->
  App.render_types (VDict top) = Return t ->
  App.render_description (VDict top) = Return d ->
  chat_completions_create svc openai_api_key (click_request n a t d) = Return cr ->
  App.first_content cr = Return c ->
  App.parse_response PYDANTIC_V2 c = Return r ->
  App.on_generate_interests PYDANTIC_V2 svc INTERESTS
    place_id google_api_key openai_api_key w
  = (Return tt,
     {| calls := calls w
                 ++ click_calls place_id google_api_key openai_api_key n a t d;
        page := page w ++ place_widgets n a t d
                ++ [debug_widget c; StSubheader (lit "Generated Interests:")]
                ++ flat_map interest_widgets (App.interests r) |}).
Proof.
  intros P G O Hget Hstatus N A T D C F R.
  rewrite (page_before_try place_id google_api_key openai_api_key top n a t d w)
    by assumption.
  unfold App.generate_interests.
  rewrite (app_make_prompt_of_fields INTERESTS (VDict top) n a t d N A T D).
  unfold bind at 1. unfold lift at 1.
  unfold bind at 1. unfold call_out at 1.
  unfold bind at 1. unfold lift at 1.
  fold (click_request n a t d). rewrite C.
  unfold bind at 1. unfold lift at 1. rewrite F.
  unfold bind at 1. unfold show at 1. unfold lift. rewrite R.
  unfold shown, click_calls, debug_widget. cbn [calls page].
  rewrite <- !app_assoc. reflexivity.
Qed.

(** A click whose generation fails still returns: the failure is
    shown as one error line, after the place, and after the debug line
    when the model did answer. Nothing is raised to Streamlit. *)
Theorem page_reports_generation_failure
  (place_id google_api_key openai_api_key : str) (top : dict)
  (n a t d : str) (e : exn) (w : world) :
  App.nonempty place_id = true ->
  App.nonempty google_api_key = true ->
  App.nonempty openai_api_key = true ->
  requests_get_json svc App.GOOGLE_PLACE_DETAILS_URL
    (place_details_params place_id google_api_key) = Return (VDict top) ->
  dict_get top (lit "status") = Some (VStr (lit "OK")) ->
  App.render_name (VDict top) = Return n ->
  App.render_address (VDict top) = Return a ->
  App.render_types (VDict top) = Return t ->
  App.render_description (VDict top) = Return d ->
  (chat_completions_create svc openai_api_key (click_request n a t d) = Raise e ->
   App.on_generate_interests PYDANTIC_V2 svc INTERESTS
     place_id google_api_key openai_api_key w
   = (Return tt,
      {| calls := calls w
                  ++ click_calls place_id google_api_key openai_api_key n a t d;
         page := page w ++ place_widgets n a t d
                 ++ [StError (lit "Error generating interests: "
                              ++ str_of_exn e)] |}))
  /\ (forall cr c,
        chat_completions_create svc openai_api_key (click_request n a t d)
        = Return cr ->
        App.first_content cr = Return c ->
        App.parse_response PYDANTIC_V2 c = Raise e ->
        App.on_generate_interests PYDANTIC_V2 svc INTERESTS
          place_id google_api_key openai_api_key w
        = (Return tt,
           {| calls := calls w
                       ++ click_calls place_id google_api_key openai_api_key
                            n a t d;
              page := page w ++ place_widgets n a t d
                      ++ [debug_widget c;
                          StError (lit "Error generating interests: "
                                   ++ str_of_exn e)] |})).
Proof.
  intros P G O Hget Hstatus N A T D.
  split; [intros C|intros cr c C F R];
    rewrite (page_before_try place_id google_api_key openai_api_key top n a t d w)
      by assumption;
    unfold App.generate_interests;
    rewrite (app_make_prompt_of_fields INTERESTS (VDict top) n a t d N A T D);
    unfold bind at 1; unfold lift at 1;
    unfold bind at 1; unfold call_out at 1;
    unfold bind at 1; unfold lift at 1;
    fold (click_request n a t d); rewrite C.
  - unfold shown, click_calls. cbn [calls page].
    rewrite <- !app_assoc. reflexivity.
  - unfold bind at 1. unfold lift at 1. rewrite F.
    unfold bind at 1. unfold show at 1. unfold lift. rewrite R.
    unfold shown, click_calls, debug_widget. cbn [calls page].
    rewrite <- !app_assoc. reflexivity.
Qed.

(** The response of the place lookup is used unchecked: without the
    key [status] the click raises [KeyError] at once; with status [OK]
    but without the key [result] it raises [KeyError] after the first
    heading. In both cases the model is not called. *)
Theorem click_on_incomplete_response
  (place_id google_api_key openai_api_key : str) (top : dict) (w : world) :
  App.nonempty place_id = true ->
  App.nonempty google_api_key = true ->
  App.nonempty openai_api_key = true ->
  requests_get_json svc App.GOOGLE_PLACE_DETAILS_URL
    (place_details_params place_id google_api_key) = Return (VDict top) ->
  (dict_get top (lit "status") = None ->
   App.on_generate_interests PYDANTIC_V2 svc INTERESTS
     place_id google_api_key openai_api_key w
   = (Raise (KeyError (lit "status")),
      {| calls := calls w
                  ++ [RequestsGet App.GOOGLE_PLACE_DETAILS_URL
                        (place_details_params place_id google_api_key)];
         page := page w |}))
  /\ (dict_get top (lit "status") = Some (VStr (lit "OK")) ->
      dict_get top (lit "result") = None ->
      App.on_generate_interests PYDANTIC_V2 svc INTERESTS
        place_id google_api_key openai_api_key w
      = (Raise (KeyError (lit "result")),
         {| calls := calls w
                     ++ [RequestsGet App.GOOGLE_PLACE_DETAILS_URL
                           (place_details_params place_id google_api_key)];
            page := page w ++ [StSubheader (lit "Place Details:")] |})).
Proof.
  intros P G O Hget.
  split; [intros S|intros S R];
    unfold App.on_generate_interests; rewrite P, G, O; cbn [andb];
    unfold App.get_place_details;
    fold (place_details_params place_id google_api_key);
    unfold bind at 1; unfold bind at 1; unfold call_out at 1; unfold lift at 1;
    rewrite Hget; unfold bind at 1; unfold lift at 1; cbn [py_getitem];
    rewrite S.
  - reflexivity.
  - cbn [eq_str]. rewrite str_eqb_refl.
    unfold bind at 1. unfold show at 1.
    unfold bind at 1. unfold lift at 1.
    unfold App.render_name, obind, py_getitem. rewrite R. reflexivity.
Qed.

End Click.

(* ================================================================== *)
(** * Reading back what pydantic 2 wrote *)
(* ================================================================== *)

Lemma scan_escape_char_compact (strict : bool) (c : char) (s : str) :
  scanstring strict (escape_char_compact c ++ s) = kept strict c s.
Proof.
  unfold escape_char_compact.
  destruct (c =? 34)%N eqn:E1;
    [apply N.eqb_eq in E1; subst; now apply scan_short_escape|].
  destruct (c =? 92)%N eqn:E2;
    [apply N.eqb_eq in E2; subst; now apply scan_short_escape|].
  destruct (c =? 10)%N eqn:E3;
    [apply N.eqb_eq in E3; subst; now apply scan_short_escape|].
  destruct (c =? 13)%N eqn:E4;
    [apply N.eqb_eq in E4; subst; now apply scan_short_escape|].
  destruct (c =? 9)%N eqn:E5;
    [apply N.eqb_eq in E5; subst; now apply scan_short_escape|].
  destruct (c =? 8)%N eqn:E6;
    [apply N.eqb_eq in E6; subst; now apply scan_short_escape|].
  destruct (c =? 12)%N eqn:E7;
    [apply N.eqb_eq in E7; subst; now apply scan_short_escape|].
  destruct (c <? 32)%N eqn:L.
  - apply N.ltb_lt in L. apply scan_u_escape_scalar; [lia|].
    unfold is_surrogate.
    assert ((55296 <=? c)%N = false) as -> by (apply N.leb_gt; lia).
    reflexivity.
  - change ([c] ++ s) with (c :: s).
    rewrite scanstring_eq. cbv beta iota zeta. now rewrite E1, E2, L.
Qed.

Lemma scan_encoded_compact (strict : bool) (s rest : str) :
  scanstring strict (flat_map escape_char_compact s ++ 34%N :: rest)
  = Some (s, rest).
Proof.
  induction s as [|c s IH]; [reflexivity|].
  cbn [flat_map]. rewrite <- app_assoc, scan_escape_char_compact.
  unfold kept. now rewrite IH.
Qed.

Definition member_compact (kv : str * value) : str :=
  encode_str_compact (fst kv) ++ [58%N] ++ to_json (snd kv).

Lemma to_json_list (items : list value) :
  to_json (VList items) = 91%N :: join [44%N] (map to_json items) ++ [93%N].
Proof. reflexivity. Qed.

Lemma to_json_dict (members : list (str * value)) :
  to_json (VDict members)
  = 123%N :: join [44%N] (map member_compact members) ++ [125%N].
Proof. reflexivity. Qed.

Lemma to_json_start `{Runtime} [v : value] :
  well_formed v -> value_start (to_json v) = true.
Proof.
  intros W. pose proof (json_dumps_start W) as D.
  destruct v as [| [] | z | r | s | items | members]; try reflexivity;
    exact D.
Qed.

Section ReadCompact.
Context `{Runtime}.
Variable strict : bool.

Definition reads_compact (v : value) : Prop :=
  forall fuel rest,
    delimited rest = true ->
    2 * List.length (to_json v) + 2 <= fuel ->
    parse_value strict fuel (to_json v ++ rest) = Parsed v rest.

Lemma join_compact_start (x : value) (l : list value) (tail : str) :
  well_formed x ->
  value_start (join [44%N] (map to_json (x :: l)) ++ tail) = true.
Proof.
  intros W. apply value_start_app. cbn [map].
  destruct l; cbn [join map]; [|apply value_start_app];
    now apply to_json_start.
Qed.

Lemma parse_elems_compact (items : list value) :
  items <> [] ->
  Forall well_formed items ->
  Forall reads_compact items ->
  forall fuel rest,
    2 * List.length (join [44%N] (map to_json items)) + 3 <= fuel ->
    parse_elems strict fuel (join [44%N] (map to_json items) ++ 93%N :: rest)
    = Parsed items rest.
Proof.
  induction items as [|x l IH]; [congruence|]. intros _ W R fuel rest F.
  inversion W as [|? ? Wx Wl]; subst. inversion R as [|? ? Rx Rl]; subst.
  destruct fuel as [|m]; [lia|]. rewrite parse_elems_eq.
  destruct l as [|y l'].
  - cbn [map join] in *. rewrite Rx by (auto; lia). reflexivity.
  - assert (J : join [44%N] (map to_json (x :: y :: l'))
                = to_json x ++ 44%N :: join [44%N] (map to_json (y :: l')))
      by reflexivity.
    rewrite J in *. rewrite length_app in F. cbn [List.length] in F.
    rewrite <- app_assoc. cbn [List.app].
    rewrite Rx by (auto; lia). cbn [skip_ws is_ws N.eqb Pos.eqb orb].
    rewrite value_start_skip_ws
      by (inversion Wl; subst; now apply join_compact_start).
    rewrite IH; auto; [congruence|lia].
Qed.

Lemma member_compact_length (kv : str * value) :
  List.length (to_json (snd kv)) + 3 <= List.length (member_compact kv).
Proof.
  unfold member_compact, encode_str_compact. cbn [List.length List.app].
  rewrite !length_app. cbn [List.length]. lia.
Qed.

Lemma parse_members_compact (members : list (str * value)) :
  members <> [] ->
  Forall (fun kv => well_formed (snd kv)) members ->
  Forall (fun kv => reads_compact (snd kv)) members ->
  forall fuel rest,
    2 * List.length (join [44%N] (map member_compact members)) + 3 <= fuel ->
    parse_members strict fuel
      (join [44%N] (map member_compact members) ++ 125%N :: rest)
    = Parsed members rest.
Proof.
  induction members as [|[k x] l IH]; [congruence|]. intros _ W R fuel rest F.
  inversion W as [|? ? Wx Wl]; subst.
  inversion R as [|? ? Rx Rl]; subst. cbn [fst snd] in *.
  destruct fuel as [|m]; [lia|]. rewrite parse_members_eq.
  pose proof (member_compact_length (k, x)) as ML. cbn [snd] in ML.
  assert (K : forall tail,
             member_compact (k, x) ++ tail
             = 34%N :: flat_map escape_char_compact k
               ++ 34%N :: 58%N :: to_json x ++ tail).
  { intros tail. unfold member_compact, encode_str_compact.
    cbn [fst snd List.app]. now rewrite <- !app_assoc. }
  destruct l as [|y l'].
  - cbn [map join] in *. rewrite K. cbn [negb N.eqb Pos.eqb].
    rewrite scan_encoded_compact.
    cbn [skip_ws is_ws N.eqb Pos.eqb orb negb].
    rewrite value_start_skip_ws
      by (apply value_start_app; now apply to_json_start).
    rewrite Rx by (auto; lia). reflexivity.
  - assert (J : join [44%N] (map member_compact ((k, x) :: y :: l'))
                = member_compact (k, x)
                  ++ 44%N :: join [44%N] (map member_compact (y :: l')))
      by reflexivity.
    rewrite J in *. rewrite length_app in F. cbn [List.length] in F.
    rewrite <- app_assoc, K. cbn [List.app negb N.eqb Pos.eqb].
    rewrite scan_encoded_compact.
    cbn [skip_ws is_ws N.eqb Pos.eqb orb negb].
    rewrite value_start_skip_ws
      by (apply value_start_app; now apply to_json_start).
    rewrite Rx by (auto; lia).
    cbn [skip_ws is_ws N.eqb Pos.eqb orb].
    assert (V : value_start
                  (join [44%N] (map member_compact (y :: l')) ++ 125%N :: rest)
                = true).
    { cbn [map]. destruct l'; reflexivity. }
    rewrite value_start_skip_ws by exact V.
    rewrite IH; auto; [congruence|lia].
Qed.

Lemma parse_compact (v : value) : well_formed v -> reads_compact v.
Proof.
  induction v as [| b | z | r | s | items IH | members IH] using value_ind2;
    intros W fuel rest D F.
  - destruct fuel; [lia|]. reflexivity.
  - destruct fuel; [lia|]. now destruct b.
  - destruct fuel; [lia|]. apply parse_int. now apply delimited_stops.
  - destruct fuel; [lia|]. inversion W; subst.
    apply parse_float; [assumption|now apply delimited_stops].
  - destruct fuel; [lia|]. cbn [to_json]. unfold encode_str_compact.
    cbn [List.app]. rewrite parse_string, <- app_assoc.
    cbn [List.app]. now rewrite scan_encoded_compact.
  - destruct fuel as [|m]; [lia|]. rewrite to_json_list in *.
    inversion W as [| | | | | ? Wi |]; subst.
    assert (R : Forall reads_compact items).
    { apply Forall_forall. intros x I.
      rewrite Forall_forall in IH, Wi. auto. }
    cbn [List.app]. rewrite <- app_assoc. cbn [List.app].
    destruct items as [|x l]; [reflexivity|].
    rewrite parse_array_nonempty
      by (inversion Wi; subst; now apply join_compact_start).
    rewrite parse_elems_compact; auto; [congruence|].
    cbn [List.length] in F. rewrite length_app in F. cbn [List.length] in F. lia.
  - destruct fuel as [|m]; [lia|]. rewrite to_json_dict in *.
    inversion W as [| | | | | | ? Nd Wi]; subst.
    assert (R : Forall (fun kv => reads_compact (snd kv)) members).
    { apply Forall_forall. intros x I.
      rewrite Forall_forall in IH, Wi. auto. }
    cbn [List.app]. rewrite <- app_assoc. cbn [List.app].
    destruct members as [|[k x] l]; [reflexivity|].
    rewrite parse_object_nonempty by (cbn [map]; destruct l; reflexivity).
    rewrite parse_members_compact; auto; [|congruence|].
    + now rewrite dict_of_pairs_distinct.
    + cbn [List.length] in F. rewrite length_app in F. cbn [List.length] in F. lia.
Qed.

Lemma json_decode_compact (v : value) :
  well_formed v -> json_decode strict (to_json v) = Some v.
Proof.
  intros W. unfold json_decode.
  rewrite value_start_skip_ws by now apply to_json_start.
  pose proof (@parse_compact v W (2 * List.length (to_json v) + 2) []
                eq_refl (Nat.le_refl _)) as P.
  rewrite app_nil_r in P. now rewrite P.
Qed.

End ReadCompact.

(* ================================================================== *)
(** * The result as text *)
(* ================================================================== *)

Lemma to_json_ascii_start `{Runtime} [v : value] :
  well_formed v -> exists c t, to_json v = c :: t /\ (c < 128)%N.
Proof.
  intros W. pose proof (json_dumps_ascii_start W) as D.
  destruct v as [| [] | z | r | s | items | members];
    try (eexists; eexists; split; [reflexivity|reflexivity]); exact D.
Qed.

Lemma json_loads_compact `{Runtime} (v : value) :
  well_formed v -> json_loads (to_json v) = Some v.
Proof.
  intros W. unfold json_loads.
  destruct (to_json_ascii_start W) as (c & t & E & A). rewrite E.
  assert ((c =? 65279)%N = false) as -> by (apply N.eqb_neq; lia).
  rewrite <- E. now apply json_decode_compact.
Qed.

(** No string of the result holds a surrogate. *)
Definition main_plain_interest (i : Main.Interest) : bool :=
  forallb scalar (Main.main_interest i)
  && forallb (forallb scalar) (Main.sub_interests i).

Definition main_plain (r : Main.PlaceInterests) : bool :=
  forallb main_plain_interest (Main.interests r).

Definition app_plain_interest (i : App.Interest) : bool :=
  forallb scalar (App.main_interest i)
  && forallb (forallb scalar) (App.sub_interests i).

Definition app_plain (r : App.PlaceInterests) : bool :=
  forallb app_plain_interest (App.interests r).

Lemma field_names_differ : NoDup [lit "main_interest"; lit "sub_interests"].
Proof.
  constructor; [|constructor; [intros []|constructor]].
  intros [E|[]]. discriminate E.
Qed.

Lemma strs_well_formed `{Runtime} (l : list str) :
  Forall well_formed (map VStr l).
Proof. induction l; constructor; [constructor|assumption]. Qed.

Lemma strs_scalar (l : list str) :
  forallb scalar_strings (map VStr l) = forallb (forallb scalar) l.
Proof. induction l as [|s l IH]; [reflexivity|]. cbn. now rewrite IH. Qed.

Section Dumps.
Context `{Runtime}.

Lemma main_dump_well_formed (r : Main.PlaceInterests) :
  well_formed (model_dump r).
Proof.
  destruct r as [l]. cbn [model_dump Main.PlaceInterests_model Main.interests].
  constructor; [constructor; [intros []|constructor]|].
  constructor; [|constructor]. cbn [snd]. constructor.
  induction l as [|[m subs] l IH]; constructor; [|exact IH].
  cbn [model_dump Main.Interest_model Main.main_interest Main.sub_interests].
  constructor; [exact field_names_differ|].
  repeat constructor. cbn [snd]. apply strs_well_formed.
Qed.

Lemma app_dump_well_formed (r : App.PlaceInterests) :
  well_formed (model_dump r).
Proof.
  destruct r as [l]. cbn [model_dump App.PlaceInterests_model App.interests].
  constructor; [constructor; [intros []|constructor]|].
  constructor; [|constructor]. cbn [snd]. constructor.
  induction l as [|[m subs] l IH]; constructor; [|exact IH].
  cbn [model_dump App.Interest_model App.main_interest App.sub_interests].
  constructor; [exact field_names_differ|].
  repeat constructor. cbn [snd]. apply strs_well_formed.
Qed.

Lemma main_dump_scalar (r : Main.PlaceInterests) :
  scalar_strings (model_dump r) = main_plain r.
Proof.
  destruct r as [l]. unfold main_plain.
  cbn [model_dump Main.PlaceInterests_model Main.interests scalar_strings
       forallb fst snd].
  change (forallb scalar (lit "interests")) with true.
  cbn [andb]. rewrite andb_true_r.
  induction l as [|[m subs] l IH]; [reflexivity|].
  cbn [map forallb]. rewrite IH. f_equal.
  unfold main_plain_interest.
  cbn [model_dump Main.Interest_model Main.main_interest Main.sub_interests
       scalar_strings forallb fst snd].
  change (forallb scalar (lit "main_interest")) with true.
  change (forallb scalar (lit "sub_interests")) with true.
  cbn [andb]. now rewrite strs_scalar, andb_true_r.
Qed.

Lemma app_dump_scalar (r : App.PlaceInterests) :
  scalar_strings (model_dump r) = app_plain r.
Proof.
  destruct r as [l]. unfold app_plain.
  cbn [model_dump App.PlaceInterests_model App.interests scalar_strings
       forallb fst snd].
  change (forallb scalar (lit "interests")) with true.
  cbn [andb]. rewrite andb_true_r.
  induction l as [|[m subs] l IH]; [reflexivity|].
  cbn [map forallb]. rewrite IH. f_equal.
  unfold app_plain_interest.
  cbn [model_dump App.Interest_model App.main_interest App.sub_interests
       scalar_strings forallb fst snd].
  change (forallb scalar (lit "main_interest")) with true.
  change (forallb scalar (lit "sub_interests")) with true.
  cbn [andb]. now rewrite strs_scalar, andb_true_r.
Qed.

Lemma main_dump_conforms (r : Main.PlaceInterests) :
  Main.interests r <> [] -> main_conforms (model_dump r) r.
Proof.
  intros N. destruct r as [l]. cbn [Main.interests] in N.
  eexists. exists (map model_dump l).
  split; [reflexivity|]. split; [reflexivity|]. split; [|exact N].
  cbn [Main.interests]. clear N.
  induction l as [|[m subs] l IH]; constructor; [|exact IH].
  eexists. split; [reflexivity|]. split; reflexivity.
Qed.

Lemma app_dump_conforms (r : App.PlaceInterests) :
  App.interests r <> [] -> app_conforms (model_dump r) r.
Proof.
  intros N. destruct r as [l]. cbn [App.interests] in N.
  eexists. exists (map model_dump l).
  split; [reflexivity|]. split; [reflexivity|]. split; [|exact N].
  cbn [App.interests]. clear N.
  induction l as [|[m subs] l IH]; constructor; [|exact IH].
  eexists. split; [reflexivity|]. split; reflexivity.
Qed.

(** The text of a result reads back as the dict of the result, with
    [json.loads] and with the reader of pydantic 2, whichever version
    wrote it. *)
Lemma main_json_reads_back (v2 : bool) (r : Main.PlaceInterests) :
  main_plain r = true ->
  json_loads (model_json v2 r) = Some (model_dump r)
  /\ json_decode true (model_json v2 r) = Some (model_dump r).
Proof.
  intros P. rewrite <- main_dump_scalar in P.
  pose proof (main_dump_well_formed r) as W.
  unfold model_json. destruct v2.
  - split; [now apply json_loads_compact|now apply json_decode_compact].
  - split; [now apply json_loads_dumps|now apply json_decode_dumps].
Qed.

Lemma app_json_reads_back (v2 : bool) (r : App.PlaceInterests) :
  app_plain r = true ->
  json_loads (model_json v2 r) = Some (model_dump r)
  /\ json_decode true (model_json v2 r) = Some (model_dump r).
Proof.
  intros P. rewrite <- app_dump_scalar in P.
  pose proof (app_dump_well_formed r) as W.
  unfold model_json. destruct v2.
  - split; [now apply json_loads_compact|now apply json_decode_compact].
  - split; [now apply json_loads_dumps|now apply json_decode_dumps].
Qed.

(** What a result is written as never has the key that the call of a
    model refuses. *)
Lemma main_dump_not_refused (r : Main.PlaceInterests) :
  calls_refused (model_dump r) = false.
Proof.
  destruct r as [l]. cbn [model_dump Main.PlaceInterests_model Main.interests].
  cbn [calls_refused].
  change (names_self [(lit "interests", VList (map model_dump l))]) with false.
  change (dict_get [(lit "interests", VList (map model_dump l))]
            (lit "interests"))
    with (Some (VList (map model_dump l))).
  cbn [orb]. induction l as [|i l IH]; [reflexivity|].
  cbn [map existsb]. rewrite IH. reflexivity.
Qed.

Lemma app_dump_not_refused (r : App.PlaceInterests) :
  calls_refused (model_dump r) = false.
Proof.
  destruct r as [l]. cbn [model_dump App.PlaceInterests_model App.interests].
  cbn [calls_refused].
  change (names_self [(lit "interests", VList (map model_dump l))]) with false.
  change (dict_get [(lit "interests", VList (map model_dump l))]
            (lit "interests"))
    with (Some (VList (map model_dump l))).
  cbn [orb]. induction l as [|i l IH]; [reflexivity|].
  cbn [map existsb]. rewrite IH. reflexivity.
Qed.

End Dumps.

(** ** What pydantic 2 accepts *)

Lemma validate_items_inv (A : Type) (item : value -> validation A)
  (items : list value) :
  forall i l,
    validate_items A item i items = Valid l ->
    Forall2 (fun x a => item x = Valid a) items l.
Proof.
  induction items as [|x items IH]; intros i l; cbn [validate_items].
  - intros [= <-]. constructor.
  - destruct (item x) as [a|es] eqn:X;
      destruct (validate_items A item (S i) items) as [l'|es'] eqn:R;
      try discriminate.
    intros [= <-]. constructor; [exact X|]. now apply IH with (S i).
Qed.

Lemma required_inv (A : Type) (d : dict) (name : str)
  (check : value -> validation A) (a : A) :
  required d name check = Valid a ->
  exists v, dict_get d name = Some v /\ check v = Valid a.
Proof.
  unfold required. destruct (dict_get d name) as [v|]; [|discriminate].
  destruct (check v) as [a'|] eqn:C; [|discriminate].
  intros [= <-]. now exists v.
Qed.

Section Strict.
Context `{Runtime}.

Lemma validate_str_strict (v : value) (s : str) :
  validate_str true v = Valid s -> v = VStr s.
Proof. destruct v; cbn; try discriminate. now intros [= ->]. Qed.

Lemma validate_strs_strict (v : value) (l : list str) :
  validate_list str (validate_str true) 0 v = Valid l ->
  v = VList (map VStr l).
Proof.
  unfold validate_list. destruct v as [| | | | |items|]; try discriminate.
  destruct (validate_items str (validate_str true) 0 items) as [l'|] eqn:V;
    [|discriminate].
  cbn [Nat.ltb Nat.leb]. intros [= <-]. f_equal.
  apply validate_items_inv in V.
  induction V as [|x s items l' X _ IH]; [reflexivity|].
  cbn [map]. apply validate_str_strict in X. now rewrite X, IH.
Qed.

Lemma main_interest_strict (x : value) (i : Main.Interest) :
  validate_model true x = Valid i -> main_conforms_interest x i.
Proof.
  destruct x as [| | | | | |d]; try discriminate.
  cbn [validate_model model_init Main.Interest_model]. unfold both.
  destruct (required d (lit "main_interest") (validate_str true))
    as [m|] eqn:M;
    destruct (required d (lit "sub_interests")
                (validate_list str (validate_str true) 0)) as [subs|] eqn:S;
    try discriminate.
  intros [= <-]. exists d. split; [reflexivity|].
  apply required_inv in M as (vm & -> & M).
  apply required_inv in S as (vs & -> & S).
  apply validate_str_strict in M. apply validate_strs_strict in S.
  subst. split; reflexivity.
Qed.

Lemma app_interest_strict (x : value) (i : App.Interest) :
  validate_model true x = Valid i -> app_conforms_interest x i.
Proof.
  destruct x as [| | | | | |d]; try discriminate.
  cbn [validate_model model_init App.Interest_model]. unfold both.
  destruct (required d (lit "main_interest") (validate_str true))
    as [m|] eqn:M;
    destruct (required d (lit "sub_interests")
                (validate_list str (validate_str true) 0)) as [subs|] eqn:S;
    try discriminate.
  intros [= <-]. exists d. split; [reflexivity|].
  apply required_inv in M as (vm & -> & M).
  apply required_inv in S as (vs & -> & S).
  apply validate_str_strict in M. apply validate_strs_strict in S.
  subst. split; reflexivity.
Qed.

Lemma main_model_init_strict (d : dict) (r : Main.PlaceInterests) :
  model_init true d = Valid r -> main_conforms (VDict d) r.
Proof.
  cbn [model_init Main.PlaceInterests_model].
  destruct (required d (lit "interests")
              (validate_list Main.Interest (validate_model true) 1))
    as [l|] eqn:R; [|discriminate].
  intros [= <-]. apply required_inv in R as (v & G & V).
  unfold validate_list in V. destruct v as [| | | | |items|]; try discriminate.
  destruct (validate_items Main.Interest (validate_model true) 0 items)
    as [l'|] eqn:I; [|discriminate].
  destruct (List.length l' <? 1) eqn:L; [discriminate|].
  injection V as <-. exists d, items.
  split; [reflexivity|]. split; [exact G|]. cbn [Main.interests]. split.
  - apply validate_items_inv in I.
    eapply Forall2_impl; [|exact I]. exact main_interest_strict.
  - destruct l'; [discriminate|discriminate].
Qed.

Lemma app_model_init_strict (d : dict) (r : App.PlaceInterests) :
  model_init true d = Valid r -> app_conforms (VDict d) r.
Proof.
  cbn [model_init App.PlaceInterests_model].
  destruct (required d (lit "interests")
              (validate_list App.Interest (validate_model true) 1))
    as [l|] eqn:R; [|discriminate].
  intros [= <-]. apply required_inv in R as (v & G & V).
  unfold validate_list in V. destruct v as [| | | | |items|]; try discriminate.
  destruct (validate_items App.Interest (validate_model true) 0 items)
    as [l'|] eqn:I; [|discriminate].
  destruct (List.length l' <? 1) eqn:L; [discriminate|].
  injection V as <-. exists d, items.
  split; [reflexivity|]. split; [exact G|]. cbn [App.interests]. split.
  - apply validate_items_inv in I.
    eapply Forall2_impl; [|exact I]. exact app_interest_strict.
  - destruct l'; [discriminate|discriminate].
Qed.

End Strict.

(** ** Failures of the validation *)

Section NoTypeError.
Context `{Runtime}.
Variable PYDANTIC_V2 : bool.



End NoTypeError.

Section ResultText.
Context `{Runtime}.
Variables (PYDANTIC_V2 : bool) (svc : services)
          (environ_get : str -> option str) (INTERESTS : list str).

(** A result written as text validates back to itself: for a result
    with at least one interest and no surrogate in its strings,
    [validate_json] of its [json()] text returns the result, whichever
    pydantic version wrote the text and whichever reads it. *)
Theorem result_text_validates (written_by_v2 : bool) :
  (forall r : Main.PlaceInterests,
     Main.interests r <> [] -> main_plain r = true ->
     Main.validate_json PYDANTIC_V2 (model_json written_by_v2 r)
       Main.PlaceInterests = Return r)
  /\ (forall r : App.PlaceInterests,
        App.interests r <> [] -> app_plain r = true ->
        App.validate_json PYDANTIC_V2 (model_json written_by_v2 r)
          App.PlaceInterests = Return r).
Proof.
  split; intros r N P.
  - destruct (main_json_reads_back written_by_v2 r P) as (L & D).
    pose proof (main_dump_conforms r N) as C.
    unfold Main.validate_json, model_validate_json, parse_raw, parse_obj.
    destruct PYDANTIC_V2.
    + rewrite D. cbn [model_dump Main.PlaceInterests_model] in *.
      now rewrite (main_model_init_conforms true C (or_introl eq_refl)).
    + rewrite L. pose proof (main_dump_not_refused r) as F.
      cbn [model_dump Main.PlaceInterests_model dict_of_iterable] in *.
      change (names_self [(lit "interests",
                           VList (map model_dump (Main.interests r)))])
        with false. cbv iota.
      now rewrite (main_model_init_conforms false C (or_intror F)).
  - destruct (app_json_reads_back written_by_v2 r P) as (L & D).
    pose proof (app_dump_conforms r N) as C.
    unfold App.validate_json, model_validate_json, parse_raw, parse_obj.
    destruct PYDANTIC_V2.
    + rewrite D. cbn [model_dump App.PlaceInterests_model] in *.
      now rewrite (app_model_init_conforms true C (or_introl eq_refl)).
    + rewrite L. pose proof (app_dump_not_refused r) as F.
      cbn [model_dump App.PlaceInterests_model dict_of_iterable] in *.
      change (names_self [(lit "interests",
                           VList (map model_dump (App.interests r)))])
        with false. cbv iota.
      now rewrite (app_model_init_conforms false C (or_intror F)).
Qed.

(** When [generate_interests] returns, the handler answers 200 with
    the text of the result, which [json.loads] reads as the object
    with the one key [interests], holding for each interest its
    [main_interest] and its [sub_interests] and nothing more. *)
Theorem lambda_handler_success
  (d : dict) (pd context : value) (key : str) (r : Main.PlaceInterests)
  (w : world) :
  dict_get d (lit "place_details") = Some pd ->
  truthy pd = true ->
  environ_get (lit "OPENAI_API_KEY") = Some key ->
  key <> [] ->
  fst (Main.generate_interests PYDANTIC_V2 svc INTERESTS pd key w) = Return r ->
  Main.lambda_handler PYDANTIC_V2 svc environ_get INTERESTS (VDict d) context w
  = (Return {| Main.statusCode := 200;
               Main.body := model_json PYDANTIC_V2 r |},
     snd (Main.generate_interests PYDANTIC_V2 svc INTERESTS pd key w))
  /\ (main_plain r = true ->
      json_loads (model_json PYDANTIC_V2 r)
      = Some (VDict [(lit "interests",
                      VList (map (fun i =>
                        VDict [(lit "main_interest", VStr (Main.main_interest i));
                               (lit "sub_interests",
                                VList (map VStr (Main.sub_interests i)))])
                        (Main.interests r)))])).
Proof.
  intros P T K N G. split.
  - rewrite (handler_past_guard PYDANTIC_V2 svc environ_get INTERESTS
               context w P T K N).
    destruct (Main.generate_interests PYDANTIC_V2 svc INTERESTS pd key w)
      as [[r'|e] w']; cbn [fst snd] in *; [|discriminate].
    now injection G as ->.
  - intros S. now apply main_json_reads_back.
Qed.

(** Under pydantic 2, and for an answer within the limits of the
    readers and with no surrogate in its strings, acceptance is exact: [generate_interests] returns [r]
    when, and only when, the answer is an object whose [interests] is
    a non-empty list of objects with a string [main_interest] and a
    list of strings [sub_interests], and [r] holds just these. Nothing
    is coerced and nothing is made up. *)
Theorem accepted_iff_conforms
  (place_details : value) (key text : str) (v : value) (w : world) :
  json_loads text = Some v ->
  scalar_strings v = true ->
  within_limits text = true ->
  (forall r,
     main_model_answers svc INTERESTS place_details key (Some text) ->
     (fst (Main.generate_interests true svc INTERESTS place_details key w)
      = Return r
      <-> main_conforms v r))
  /\ (forall r,
        app_model_answers svc INTERESTS place_details key (Some text) ->
        (fst (App.generate_interests true svc INTERESTS place_details key w)
         = Return r
         <-> app_conforms v r)).
Proof.
  intros L S _. pose proof (json_loads_well_formed L) as W.
  split; intros r A.
  - rewrite (main_generate_interests_answer true svc INTERESTS w A).
    pose proof (main_parse_response_text true text) as P. rewrite L in P.
    split.
    + intros R.
      assert (V : Main.validate_json true (json_dumps v) Main.PlaceInterests
                  = Return r).
      { destruct (Main.validate_json true (json_dumps v) Main.PlaceInterests)
          as [r'|[]]; congruence. }
      unfold Main.validate_json, model_validate_json in V.
      rewrite (json_decode_dumps true v W S) in V.
      destruct v as [| | | | | |d]; try discriminate.
      apply main_model_init_strict.
      destruct (model_init true d); [|discriminate]. now injection V as ->.
    + intros C. now rewrite (main_validate_json_conforms true W S C (or_introl eq_refl)) in P.
  - rewrite (app_generate_interests_answer true svc INTERESTS w A).
    pose proof (app_parse_response_text true text) as P. rewrite L in P.
    split.
    + intros R.
      assert (V : App.validate_json true (json_dumps v) App.PlaceInterests
                  = Return r).
      { destruct (App.validate_json true (json_dumps v) App.PlaceInterests)
          as [r'|[]]; congruence. }
      unfold App.validate_json, model_validate_json in V.
      rewrite (json_decode_dumps true v W S) in V.
      destruct v as [| | | | | |d]; try discriminate.
      apply app_model_init_strict.
      destruct (model_init true d); [|discriminate]. now injection V as ->.
    + intros C. now rewrite (app_validate_json_conforms true W S C (or_introl eq_refl)) in P.
Qed.


End ResultText.

Section Reserialised.
Context `{Runtime}.
Variables (svc : services) (INTERESTS : list str).


End Reserialised.

(* ================================================================== *)
(** * The runs of the examples *)
(* ================================================================== *)

(** An event with a place record, and a place that is no dict. *)
Definition cafe : value := VDict [(lit "name", VStr (lit "Cafe Luna"))].

Definition cafe_event : dict := [(lit "place_details", cafe)].

Definition text_event : dict := [(lit "place_details", VStr (lit "Cafe Luna"))].

Lemma lambda_handler_without_api_key_witness :
  (no_environ (lit "OPENAI_API_KEY") = None
   \/ no_environ (lit "OPENAI_API_KEY") = Some [])
  /\ exists r,
       Main.lambda_handler (H := example_runtime) true
         (example_services food_answer VNone) no_environ [lit "Food"]
         (VDict cafe_event) VNone fresh_world
       = (Return r, fresh_world)
       /\ Main.statusCode r = 400%Z
       /\ json_loads (H := example_runtime) (Main.body r)
          = Some (VDict [(lit "error", VStr (lit "Missing required parameters"))]).
Proof.
  split; [left; reflexivity|].
  apply (@lambda_handler_without_api_key example_runtime true
           (example_services food_answer VNone) no_environ [lit "Food"]
           cafe_event VNone fresh_world).
  left. reflexivity.
Defined.

Lemma lambda_handler_reports_failure_witness :
  dict_get cafe_event (lit "place_details") = Some cafe
  /\ truthy cafe = true
  /\ key_environ (lit "sk-test") (lit "OPENAI_API_KEY") = Some (lit "sk-test")
  /\ fst (Main.generate_interests (H := example_runtime) true
            (example_services (lit "no json") VNone) [lit "Food"] cafe
            (lit "sk-test") fresh_world)
     = Raise (InvalidResponseFormat (H := example_runtime) (lit "no json"))
  /\ fst (Main.lambda_handler (H := example_runtime) true
            (example_services (lit "no json") VNone)
            (key_environ (lit "sk-test")) [lit "Food"]
            (VDict cafe_event) VNone fresh_world)
     = Return {| Main.statusCode := 500;
                 Main.body :=
                   jlit "{'error': 'Invalid JSON returned by API: JSONDecodeError'}" |}.
Proof.
  assert (G : fst (Main.generate_interests (H := example_runtime) true
                     (example_services (lit "no json") VNone) [lit "Food"] cafe
                     (lit "sk-test") fresh_world)
              = Raise (InvalidResponseFormat (H := example_runtime) (lit "no json")))
    by (vm_compute; reflexivity).
  split; [reflexivity|]. split; [reflexivity|]. split; [reflexivity|].
  split; [exact G|].
  destruct (@lambda_handler_reports_failure example_runtime true
              (example_services (lit "no json") VNone)
              (key_environ (lit "sk-test")) [lit "Food"]
              cafe_event cafe VNone (lit "sk-test") _ fresh_world
              eq_refl eq_refl eq_refl ltac:(discriminate) G) as (E & _).
  rewrite E. reflexivity.
Defined.

Lemma lambda_handler_prompt_failure_witness :
  dict_get text_event (lit "place_details") = Some (VStr (lit "Cafe Luna"))
  /\ truthy (VStr (lit "Cafe Luna")) = true
  /\ key_environ (lit "sk-test") (lit "OPENAI_API_KEY") = Some (lit "sk-test")
  /\ Main.make_prompt (H := example_runtime) [lit "Food"] (VStr (lit "Cafe Luna"))
     = Raise AttributeError
  /\ Main.lambda_handler (H := example_runtime) true
       (example_services food_answer VNone)
       (key_environ (lit "sk-test")) [lit "Food"]
       (VDict text_event) VNone fresh_world
     = (Return {| Main.statusCode := 500;
                  Main.body := error_body (H := example_runtime) AttributeError |},
        fresh_world).
Proof.
  split; [reflexivity|]. split; [reflexivity|]. split; [reflexivity|].
  split; [reflexivity|].
  apply (@lambda_handler_prompt_failure example_runtime true
           (example_services food_answer VNone)
           (key_environ (lit "sk-test")) [lit "Food"]
           text_event (VStr (lit "Cafe Luna")) VNone (lit "sk-test"));
    try reflexivity. discriminate.
Defined.

(** Services whose chat completion has no choice, or fails. *)
Definition silent_services (r : outcome chat_completion) : services := {|
  chat_completions_create := fun _ _ => r;
  requests_get_json := fun _ _ => Raise (LibraryError (lit "ConnectionError") []);
  s3_object_text := fun _ _ => Raise (LibraryError (lit "NoSuchKey") []);
  file_text := fun _ => Raise (LibraryError (lit "FileNotFoundError") [])
|}.

Lemma main_generate_interests_unwrapped_witness :
  (exists p, Main.make_prompt (H := example_runtime) [lit "Food"] cafe = Return p)
  /\ fst (Main.generate_interests (H := example_runtime) true
            (silent_services (Return {| choices := [] |})) [lit "Food"] cafe
            (lit "sk-test") fresh_world)
     = Raise IndexError
  /\ fst (Main.generate_interests (H := example_runtime) true
            (silent_services (Return {| choices := [None] |})) [lit "Food"] cafe
            (lit "sk-test") fresh_world)
     = Raise TypeError.
Proof.
  assert (P : Main.make_prompt (H := example_runtime) [lit "Food"] cafe
              = Return (Main.prompt_text (lit "Cafe Luna") (lit "N/A") []
                          (lit "N/A") (lit "Food")))
    by reflexivity.
  split; [eexists; exact P|]. split.
  - apply (proj1 (proj2 (@main_generate_interests_unwrapped example_runtime true
                           (silent_services (Return {| choices := [] |}))
                           [lit "Food"] cafe (lit "sk-test") _ fresh_world P))).
    reflexivity.
  - apply (proj2 (proj2 (@main_generate_interests_unwrapped example_runtime true
                           (silent_services (Return {| choices := [None] |}))
                           [lit "Food"] cafe (lit "sk-test") _ fresh_world P))
             []).
    reflexivity.
Defined.

(** A taxonomy file of three lines, the second of them empty. *)
Definition taxonomy_lines : list str :=
  [lit "Food,Cafes"; []; lit "Outdoors"].

Lemma loaders_on_unquoted_lines_witness :
  forallb unquoted taxonomy_lines = true
  /\ fields_fit taxonomy_lines = true
  /\ text_of_lines taxonomy_lines
     = lit "Food,Cafes" ++ [10%N] ++ [10%N] ++ lit "Outdoors" ++ [10%N]
  /\ Main.load_interests_from_s3 (H := example_runtime)
       (file_services (text_of_lines taxonomy_lines))
       Main.S3_BUCKET_NAME Main.S3_FILE_NAME fresh_world
     = (Return [lit "Food"; lit "Outdoors"],
        {| calls := [S3GetObject Main.S3_BUCKET_NAME Main.S3_FILE_NAME];
           page := [] |})
  /\ App.load_interests_from_csv (file_services (text_of_lines taxonomy_lines))
       (lit "interests.csv") fresh_world
     = (Return [lit "Food"; lit "Outdoors"], fresh_world).
Proof.
  split; [reflexivity|]. split; [reflexivity|]. split; [reflexivity|].
  destruct (@loaders_on_unquoted_lines example_runtime
              (file_services (text_of_lines taxonomy_lines))
              Main.S3_BUCKET_NAME Main.S3_FILE_NAME (lit "interests.csv")
              taxonomy_lines fresh_world eq_refl eq_refl) as (A & B).
  split; [rewrite A; reflexivity|rewrite B; reflexivity].
Defined.

(** The response of the place lookup for the cafe. *)
Definition cafe_response : dict :=
  [(lit "status", VStr (lit "OK")); (lit "result", cafe)].

Definition food_result : App.PlaceInterests :=
  {| App.interests :=
       [{| App.main_interest := lit "Food";
           App.sub_interests := [lit "Cafes"; lit "Bakeries"] |}] |}.

Lemma missing_input_only_warns_witness :
  ([] = @nil char \/ lit "g-key" = [] \/ lit "o-key" = [])
  /\ App.on_generate_interests (H := example_runtime) true
       (example_services food_answer (VDict cafe_response)) [lit "Food"]
       [] (lit "g-key") (lit "o-key") fresh_world
     = (Return tt,
        {| calls := [];
           page := [StWarning (lit "Please enter Google Place ID, Google API Key, and OpenAI API Key.")] |}).
Proof.
  split; [left; reflexivity|].
  apply (@missing_input_only_warns example_runtime true
           (example_services food_answer (VDict cafe_response)) [lit "Food"]
           [] (lit "g-key") (lit "o-key") fresh_world).
  left. reflexivity.
Defined.

Lemma page_of_a_successful_click_witness :
  dict_get cafe_response (lit "status") = Some (VStr (lit "OK"))
  /\ App.parse_response (H := example_runtime) true (Some food_answer)
     = Return food_result
  /\ App.on_generate_interests (H := example_runtime) true
       (example_services food_answer (VDict cafe_response)) [lit "Food"]
       (lit "ChIJ") (lit "g-key") (lit "o-key") fresh_world
     = (Return tt,
        {| calls :=
             [RequestsGet App.GOOGLE_PLACE_DETAILS_URL
                (place_details_params (lit "ChIJ") (lit "g-key"));
              ChatCompletionsCreate (lit "o-key")
                (click_request [lit "Food"] (lit "Cafe Luna") (lit "N/A") []
                   (lit "N/A"))];
           page :=
             [StSubheader (lit "Place Details:");
              StWrite [VStr (lit "Name: Cafe Luna")];
              StWrite [VStr (lit "Address: N/A")];
              StWrite [VStr (lit "Types: ")];
              StWrite [VStr (lit "Description: N/A")];
              StWrite [VStr (lit "Debug - API Response:"); VStr food_answer];
              StSubheader (lit "Generated Interests:");
              StWrite [VStr (lit "- Food")];
              StWrite [VStr (lit "  - Cafes")];
              StWrite [VStr (lit "  - Bakeries")]] |}).
Proof.
  assert (R : App.parse_response (H := example_runtime) true (Some food_answer)
              = Return food_result) by (vm_compute; reflexivity).
  split; [reflexivity|]. split; [exact R|].
  rewrite (@page_of_a_successful_click example_runtime true
             (example_services food_answer (VDict cafe_response)) [lit "Food"]
             (lit "ChIJ") (lit "g-key") (lit "o-key") cafe_response
             (lit "Cafe Luna") (lit "N/A") [] (lit "N/A")
             {| choices := [Some food_answer] |} (Some food_answer)
             food_result fresh_world
             eq_refl eq_refl eq_refl eq_refl eq_refl eq_refl eq_refl eq_refl
             eq_refl eq_refl eq_refl R).
  reflexivity.
Defined.

Lemma page_reports_generation_failure_witness :
  dict_get cafe_response (lit "status") = Some (VStr (lit "OK"))
  /\ App.parse_response (H := example_runtime) true (Some (jlit "{'interests': []}"))
     = Raise (SchemaValidationError (H := example_runtime)
                [([Field (lit "interests")], TooShort)])
  /\ App.on_generate_interests (H := example_runtime) true
       (example_services (jlit "{'interests': []}") (VDict cafe_response))
       [lit "Food"] (lit "ChIJ") (lit "g-key") (lit "o-key") fresh_world
     = (Return tt,
        {| calls :=
             [RequestsGet App.GOOGLE_PLACE_DETAILS_URL
                (place_details_params (lit "ChIJ") (lit "g-key"));
              ChatCompletionsCreate (lit "o-key")
                (click_request [lit "Food"] (lit "Cafe Luna") (lit "N/A") []
                   (lit "N/A"))];
           page :=
             [StSubheader (lit "Place Details:");
              StWrite [VStr (lit "Name: Cafe Luna")];
              StWrite [VStr (lit "Address: N/A")];
              StWrite [VStr (lit "Types: ")];
              StWrite [VStr (lit "Description: N/A")];
              StWrite [VStr (lit "Debug - API Response:");
                       VStr (jlit "{'interests': []}")];
              StError (lit "Error generating interests: API response doesn't match expected structure: ValidationError")] |}).
Proof.
  assert (R : App.parse_response (H := example_runtime) true
                (Some (jlit "{'interests': []}"))
              = Raise (SchemaValidationError (H := example_runtime)
                         [([Field (lit "interests")], TooShort)]))
    by (vm_compute; reflexivity).
  split; [reflexivity|]. split; [exact R|].
  destruct (@page_reports_generation_failure example_runtime true
              (example_services (jlit "{'interests': []}") (VDict cafe_response))
              [lit "Food"]
              (lit "ChIJ") (lit "g-key") (lit "o-key") cafe_response
              (lit "Cafe Luna") (lit "N/A") [] (lit "N/A")
              (SchemaValidationError (H := example_runtime)
                 [([Field (lit "interests")], TooShort)])
              fresh_world
              eq_refl eq_refl eq_refl eq_refl eq_refl eq_refl eq_refl eq_refl
              eq_refl) as (_ & B).
  rewrite (B {| choices := [Some (jlit "{'interests': []}")] |}
             (Some (jlit "{'interests': []}")) eq_refl eq_refl R).
  reflexivity.
Defined.

Lemma click_on_incomplete_response_witness :
  dict_get [(lit "status", VStr (lit "OK"))] (lit "result") = None
  /\ App.on_generate_interests (H := example_runtime) true
       (example_services food_answer (VDict []))
       [lit "Food"] (lit "ChIJ") (lit "g-key") (lit "o-key") fresh_world
     = (Raise (KeyError (lit "status")),
        {| calls := [RequestsGet App.GOOGLE_PLACE_DETAILS_URL
                       (place_details_params (lit "ChIJ") (lit "g-key"))];
           page := [] |})
  /\ App.on_generate_interests (H := example_runtime) true
       (example_services food_answer (VDict [(lit "status", VStr (lit "OK"))]))
       [lit "Food"] (lit "ChIJ") (lit "g-key") (lit "o-key") fresh_world
     = (Raise (KeyError (lit "result")),
        {| calls := [RequestsGet App.GOOGLE_PLACE_DETAILS_URL
                       (place_details_params (lit "ChIJ") (lit "g-key"))];
           page := [StSubheader (lit "Place Details:")] |}).
Proof.
  split; [reflexivity|]. split.
  - apply (proj1 (@click_on_incomplete_response example_runtime true
                    (example_services food_answer (VDict []))
                    [lit "Food"] (lit "ChIJ") (lit "g-key") (lit "o-key")
                    [] fresh_world eq_refl eq_refl eq_refl eq_refl)).
    reflexivity.
  - apply (proj2 (@click_on_incomplete_response example_runtime true
                    (example_services food_answer
                       (VDict [(lit "status", VStr (lit "OK"))]))
                    [lit "Food"] (lit "ChIJ") (lit "g-key") (lit "o-key")
                    [(lit "status", VStr (lit "OK"))] fresh_world
                    eq_refl eq_refl eq_refl eq_refl));
      reflexivity.
Defined.

Definition main_food_result : Main.PlaceInterests :=
  {| Main.interests :=
       [{| Main.main_interest := lit "Food";
           Main.sub_interests := [lit "Cafes"; lit "Bakeries"] |}] |}.

Definition food_value : value :=
  VDict [(lit "interests",
          VList [VDict [(lit "main_interest", VStr (lit "Food"));
                        (lit "sub_interests",
                         VList [VStr (lit "Cafes"); VStr (lit "Bakeries")])]])].

Lemma lambda_handler_success_witness :
  dict_get cafe_event (lit "place_details") = Some cafe
  /\ truthy cafe = true
  /\ key_environ (lit "sk-test") (lit "OPENAI_API_KEY") = Some (lit "sk-test")
  /\ fst (Main.generate_interests (H := example_runtime) true
            (example_services food_answer VNone) [lit "Food"] cafe
            (lit "sk-test") fresh_world)
     = Return main_food_result
  /\ fst (Main.lambda_handler (H := example_runtime) true
            (example_services food_answer VNone)
            (key_environ (lit "sk-test")) [lit "Food"]
            (VDict cafe_event) VNone fresh_world)
     = Return {| Main.statusCode := 200;
                 Main.body :=
                   jlit "{'interests':[{'main_interest':'Food','sub_interests':['Cafes','Bakeries']}]}" |}
  /\ json_loads (H := example_runtime)
       (@model_json _ (@Main.PlaceInterests_model example_runtime) true
          main_food_result)
     = Some food_value.
Proof.
  assert (G : fst (Main.generate_interests (H := example_runtime) true
                     (example_services food_answer VNone) [lit "Food"] cafe
                     (lit "sk-test") fresh_world)
              = Return main_food_result)
    by (vm_compute; reflexivity).
  split; [reflexivity|]. split; [reflexivity|]. split; [reflexivity|].
  split; [exact G|].
  destruct (@lambda_handler_success example_runtime true
              (example_services food_answer VNone)
              (key_environ (lit "sk-test")) [lit "Food"]
              cafe_event cafe VNone (lit "sk-test") main_food_result fresh_world
              eq_refl eq_refl eq_refl ltac:(discriminate) G) as (E & D).
  split; [rewrite E; reflexivity|]. apply D. reflexivity.
Defined.

Lemma accepted_iff_conforms_witness :
  json_loads (H := example_runtime) food_answer = Some food_value
  /\ scalar_strings food_value = true
  /\ within_limits food_answer = true
  /\ main_conforms food_value main_food_result
  /\ fst (Main.generate_interests (H := example_runtime) true
            (example_services food_answer VNone) [lit "Food"] example_place
            (lit "sk-test") fresh_world)
     = Return main_food_result.
Proof.
  assert (L : json_loads (H := example_runtime) food_answer = Some food_value)
    by reflexivity.
  assert (S : scalar_strings food_value = true) by reflexivity.
  assert (T : within_limits food_answer = true) by reflexivity.
  assert (C : main_conforms food_value main_food_result).
  { eexists. eexists. split; [reflexivity|]. split; [reflexivity|].
    split; [|discriminate]. constructor; [|constructor].
    eexists. split; [reflexivity|]. split; reflexivity. }
  split; [exact L|]. split; [exact S|]. split; [exact T|]. split; [exact C|].
  apply (proj1 (@accepted_iff_conforms example_runtime
                  (example_services food_answer VNone) [lit "Food"]
                  example_place (lit "sk-test") food_answer food_value
                  fresh_world L S T)
           main_food_result (example_main_model_answers food_answer)).
  exact C.
Defined.



Lemma main_generate_interests_bad_place_witness :
  Main.generate_interests (H := example_runtime) true
    (example_services food_answer VNone) [lit "Food"]
    (VDict [(lit "types", VList [VStr (lit "cafe"); VInt 1])])
    (lit "sk-test") fresh_world
  = (Raise TypeError, fresh_world)
  /\ Main.generate_interests (H := example_runtime) true
       (example_services food_answer VNone) [lit "Food"]
       (VDict [(lit "editorial_summary", VStr (lit "A cafe."))])
       (lit "sk-test") fresh_world
     = (Raise AttributeError, fresh_world).
Proof.
  split.
  - apply (proj1 (@main_generate_interests_bad_place example_runtime true
                    (example_services food_answer VNone) [lit "Food"]
                    [(lit "types", VList [VStr (lit "cafe"); VInt 1])]
                    (lit "sk-test") fresh_world)
             [VStr (lit "cafe"); VInt 1]);
      reflexivity.
  - apply (proj2 (@main_generate_interests_bad_place example_runtime true
                    (example_services food_answer VNone) [lit "Food"]
                    [(lit "editorial_summary", VStr (lit "A cafe."))]
                    (lit "sk-test") fresh_world)
             [] (VStr (lit "A cafe.")));
      try reflexivity. discriminate.
Defined.

(** One letter more than a field has room for. *)
Definition long_line : str := letters (N.to_nat (field_size_limit + 1)).

Lemma long_line_is_long :
  (field_size_limit <? N.of_nat (N.to_nat (field_size_limit + 1)))%N = true.
Proof. rewrite N2Nat.id. reflexivity. Qed.

Lemma load_interests_from_s3_outcome_witness :
  (N.of_nat (List.length example_rows_text) <=? field_size_limit)%N = true
  /\ (exists l,
        Main.load_interests_from_s3 (H := example_runtime)
          (file_services example_rows_text)
          Main.S3_BUCKET_NAME Main.S3_FILE_NAME fresh_world
        = (Return l,
           {| calls := [S3GetObject Main.S3_BUCKET_NAME Main.S3_FILE_NAME];
              page := [] |}))
  /\ Main.load_interests_from_s3 (H := example_runtime)
       (file_services long_line)
       Main.S3_BUCKET_NAME Main.S3_FILE_NAME fresh_world
     = (Raise (ValueError (lit "Error loading interests from S3: _csv.Error")),
        {| calls := [S3GetObject Main.S3_BUCKET_NAME Main.S3_FILE_NAME];
           page := [] |})
  /\ Main.load_interests_from_s3 (H := example_runtime)
       (silent_services (Return {| choices := [] |}))
       Main.S3_BUCKET_NAME Main.S3_FILE_NAME fresh_world
     = (Raise (ValueError (lit "Error loading interests from S3: NoSuchKey")),
        {| calls := [S3GetObject Main.S3_BUCKET_NAME Main.S3_FILE_NAME];
           page := [] |}).
Proof.
  split; [reflexivity|]. split; [|split].
  - apply (proj2 (proj1 (@load_interests_from_s3_outcome example_runtime
                           (file_services example_rows_text)
                           Main.S3_BUCKET_NAME Main.S3_FILE_NAME fresh_world)
                    example_rows_text eq_refl)).
    reflexivity.
  - apply (proj1 (proj2 (@load_interests_from_s3_outcome example_runtime
                           (file_services long_line)
                           Main.S3_BUCKET_NAME Main.S3_FILE_NAME fresh_world))
             (N.to_nat (field_size_limit + 1)) long_line_is_long).
    reflexivity.
  - apply (proj2 (proj2 (@load_interests_from_s3_outcome example_runtime
                           (silent_services (Return {| choices := [] |}))
                           Main.S3_BUCKET_NAME Main.S3_FILE_NAME fresh_world))
             (LibraryError (lit "NoSuchKey") [])).
    reflexivity.
Defined.

Lemma load_interests_from_csv_outcome_witness :
  (N.of_nat (List.length example_rows_text) <=? field_size_limit)%N = true
  /\ (exists l,
        App.load_interests_from_csv (file_services example_rows_text)
          (lit "interests.csv") fresh_world
        = (Return l, fresh_world))
  /\ App.load_interests_from_csv (file_services long_line)
       (lit "interests.csv") fresh_world
     = (Raise (csv_error_exn FieldTooLarge), fresh_world)
  /\ App.load_interests_from_csv (silent_services (Return {| choices := [] |}))
       (lit "interests.csv") fresh_world
     = (Raise (LibraryError (lit "FileNotFoundError") []), fresh_world).
Proof.
  split; [reflexivity|]. split; [|split].
  - apply (proj2 (proj1 (@load_interests_from_csv_outcome
                           (file_services example_rows_text)
                           (lit "interests.csv") fresh_world)
                    example_rows_text eq_refl)).
    reflexivity.
  - apply (proj1 (proj2 (@load_interests_from_csv_outcome
                           (file_services long_line)
                           (lit "interests.csv") fresh_world))
             (N.to_nat (field_size_limit + 1)) long_line_is_long).
    reflexivity.
  - apply (proj2 (proj2 (@load_interests_from_csv_outcome
                           (silent_services (Return {| choices := [] |}))
                           (lit "interests.csv") fresh_world))
             (LibraryError (lit "FileNotFoundError") [])).
    reflexivity.
Defined.

Lemma result_text_validates_witness :
  @Main.validate_json example_runtime true
    (@model_json _ (@Main.PlaceInterests_model example_runtime) false
       main_food_result)
    Main.PlaceInterests (@Main.PlaceInterests_model example_runtime)
  = Return main_food_result
  /\ @Main.validate_json example_runtime false
       (@model_json _ (@Main.PlaceInterests_model example_runtime) true
          main_food_result)
       Main.PlaceInterests (@Main.PlaceInterests_model example_runtime)
     = Return main_food_result.
Proof.
  split.
  - apply (proj1 (@result_text_validates example_runtime true false));
      [discriminate|reflexivity].
  - apply (proj1 (@result_text_validates example_runtime false true));
      [discriminate|reflexivity].
Defined.

(** A place record with all four fields. *)
Definition bakery : dict :=
  [(lit "name", VStr (lit "Bakery"));
   (lit "formatted_address", VStr (lit "1 Main St"));
   (lit "types", VList [VStr (lit "bakery"); VStr (lit "cafe")]);
   (lit "editorial_summary", VDict [(lit "overview", VStr (lit "Fresh bread."))])].

Lemma prompt_carries_place_and_taxonomy_witness :
  dict_get bakery (lit "types")
  = Some (VList (map VStr [lit "bakery"; lit "cafe"]))
  /\ exists p,
       Main.make_prompt (H := example_runtime) [lit "Food"; lit "Outdoors"]
         (VDict bakery) = Return p
       /\ contains (lit "Name: Bakery" ++ [10%N]) p = true
       /\ contains (lit "Address: 1 Main St" ++ [10%N]) p = true
       /\ contains (lit "Types: bakery, cafe" ++ [10%N]) p = true
       /\ contains (lit "Description: Fresh bread." ++ [10%N]) p = true
       /\ contains (lit "Provided list of interests:" ++ [10%N]
                    ++ lit "    Food, Outdoors" ++ [10%N]) p = true.
Proof.
  split; [reflexivity|].
  destruct (@prompt_carries_place_and_taxonomy example_runtime
              [lit "Food"; lit "Outdoors"] bakery
              [(lit "overview", VStr (lit "Fresh bread."))]
              (lit "Bakery") (lit "1 Main St") (lit "Fresh bread.")
              [lit "bakery"; lit "cafe"]
              eq_refl eq_refl eq_refl eq_refl eq_refl)
    as ((p & P & N & A & T & D & I) & _).
  exists p. split; [exact P|].
  repeat split; apply contains_spec; assumption.
Defined.
